(** * Trust & Growth Analyzer front end: the page component of src/app/page.tsx

    The page holds five pieces of React state (files, ticker, loading,
    result, error), submits the selection to the analysis service with
    [fetch], classifies the response, renders the result and exports it as
    a JSON file.

    The model has three layers:
    - [JS]: the JavaScript values the page manipulates (what [JSON.parse]
      returns), with [JSON.parse], [JSON.stringify], truthiness, property
      access and string conversion;
    - [Web]: the part of the Fetch API the page calls ([Response.ok],
      [Response.json], [Response.text]) and the error objects it catches;
    - [Page]: the component itself: [handleFileChange], [handleSubmit],
      [handleExportJson], the JSX it returns, and the page reacting to
      events (picking files, submitting, a fetch settling, exporting).

    The facts follow: [JSFacts] about JSON text (a well-formed value is
    read back from its text; what the parser returns is well formed),
    [PageFacts] about the page, and [PageLaws] about the page over all
    its runs, the form as rendered, and the responses and results that
    are not of the expected shape.

    Strings are byte strings ([string]): ASCII text is its own bytes and
    any other text is its UTF-8 encoding.  Numbers are integers: a JSON
    numeral that does not denote a safe integer is kept as the numeral it
    was read from, and what the engine prints for it is a parameter of the
    platform. *)

From Stdlib Require Import ZArith NArith List String Ascii Bool Lia.
Import ListNotations.
Local Open Scope string_scope.
Local Open Scope list_scope.
Local Open Scope Z_scope.

Set Implicit Arguments.

(* ================================================================== *)
(** * The platform *)
(* ================================================================== *)

(** What the browser and its JavaScript engine decide and the page does
    not: the wording of the errors they throw, and the arithmetic of
    numbers that are not safe integers. *)
Inductive PlatformError : Type :=
| JsonSyntax (text : string)
    (** the [SyntaxError] of [JSON.parse] on [text] *)
| BodyUsed (method : string)
    (** the [TypeError] of a [Body] method called on a body already read *)
| NotPrimitive
    (** the [TypeError] of converting to a string an object that has no
        callable [toString] or [valueOf] *)
| NullProperty (name : string).
    (** the [TypeError] of reading a property of [null] *)

Class Platform : Type := {
  (** the message of an error the platform throws *)
  error_message : PlatformError -> string;
  (** Number::toString of the number a numeral denotes *)
  number_to_string : string -> string;
  (** whether the number a numeral denotes is [+0] or [-0] *)
  number_is_zero : string -> bool;
  (** whether the number a numeral denotes is finite *)
  number_is_finite : string -> bool;
  (** whether the number a string converts to (ToNumber) is greater
      than 0 *)
  string_is_positive : string -> bool
}.

(* ================================================================== *)
(** * JavaScript values *)
(* ================================================================== *)

Module JS.

(** A Number.  [NInt z] is an integer of absolute value at most
    [2^53 - 1] (a safe integer, exactly representable).  [NOther l] is the
    number denoted by the JSON numeral [l] when that is not a safe integer
    (a fraction, an exponent form, a huge integer, or [-0]). *)
Inductive Number : Type :=
| NInt (z : Z)
| NOther (numeral : string).

(** The values [JSON.parse] can return.  An object is its list of own
    properties in property order. *)
Unset Elimination Schemes.
Inductive Value : Type :=
| JNull
| JBool (b : bool)
| JNum (n : Number)
| JStr (s : string)
| JArr (elems : list Value)
| JObj (props : list (string * Value)).
Set Elimination Schemes.

(** The result of a property read: a value or [undefined]. *)
Definition MaybeUndefined := option Value.
Definition undefined : MaybeUndefined := None.

Section ValueInduction.
Variable P : Value -> Prop.
Hypothesis Hnull : P JNull.
Hypothesis Hbool : forall b, P (JBool b).
Hypothesis Hnum : forall n, P (JNum n).
Hypothesis Hstr : forall s, P (JStr s).
Hypothesis Harr : forall l, Forall P l -> P (JArr l).
Hypothesis Hobj : forall o, Forall (fun kv => P (snd kv)) o -> P (JObj o).

Fixpoint Value_nested_ind (v : Value) : P v :=
  match v with
  | JNull => Hnull
  | JBool b => Hbool b
  | JNum n => Hnum n
  | JStr s => Hstr s
  | JArr l =>
      Harr ((fix go (l : list Value) : Forall P l :=
               match l with
               | [] => Forall_nil _
               | x :: r => Forall_cons _ (Value_nested_ind x) (go r)
               end) l)
  | JObj o =>
      Hobj ((fix go (o : list (string * Value))
               : Forall (fun kv => P (snd kv)) o :=
               match o with
               | [] => Forall_nil _
               | kv :: r => Forall_cons _ (Value_nested_ind (snd kv)) (go r)
               end) o)
  end.
End ValueInduction.

Definition max_safe_integer : Z := 2 ^ 53 - 1.

Definition safe_integer (z : Z) : bool :=
  (- max_safe_integer <=? z) && (z <=? max_safe_integer).

(* ------------------------------------------------------------------ *)
(** ** Characters *)

Definition chars := list ascii.

Definition code (c : ascii) : N := N_of_ascii c.

Definition ch_quote : ascii := "034".
Definition ch_backslash : ascii := "092".
Definition ch_lf : ascii := "010".
Definition ch_cr : ascii := "013".
Definition ch_tab : ascii := "009".
Definition ch_bs : ascii := "008".
Definition ch_ff : ascii := "012".

Definition is_digit (c : ascii) : bool :=
  ((48 <=? code c) && (code c <=? 57))%N.

Definition is_ws (c : ascii) : bool :=
  Ascii.eqb c " " || Ascii.eqb c ch_tab || Ascii.eqb c ch_lf || Ascii.eqb c ch_cr.

Definition digit_char (d : N) : ascii := ascii_of_N (48 + d).
Definition digit_val (c : ascii) : N := (code c - 48)%N.

(* ------------------------------------------------------------------ *)
(** ** Integers in decimal: Number::toString on a safe integer *)

Fixpoint dec_digits (fuel : nat) (n : N) (acc : chars) : chars :=
  match fuel with
  | O => acc
  | S f =>
      let acc' := digit_char (n mod 10) :: acc in
      if (n / 10 =? 0)%N then acc' else dec_digits f (n / 10) acc'
  end.

Definition N_to_chars (n : N) : chars :=
  dec_digits (S (N.to_nat (N.log2 n))) n [].

Definition Z_to_chars (z : Z) : chars :=
  if z <? 0 then "-"%char :: N_to_chars (Z.to_N (- z))
  else N_to_chars (Z.to_N z).

Definition Z_to_string (z : Z) : string :=
  string_of_list_ascii (Z_to_chars z).

(* ------------------------------------------------------------------ *)
(** ** JSON numerals *)

Definition digits_value (cs : chars) : N :=
  fold_left (fun a c => (10 * a + digit_val c)%N) cs 0%N.

Fixpoint drop_digits (cs : chars) : chars :=
  match cs with
  | c :: r => if is_digit c then drop_digits r else cs
  | [] => []
  end.

(** one or more digits, then [k] on what follows *)
Definition digits1_then (k : chars -> bool) (cs : chars) : bool :=
  match cs with
  | c :: r => is_digit c && k (drop_digits r)
  | [] => false
  end.

Definition is_nil (cs : chars) : bool :=
  match cs with [] => true | _ => false end.

(** the exponent part, optional: [e] or [E], an optional sign, digits *)
Definition valid_exponent (cs : chars) : bool :=
  match cs with
  | [] => true
  | e :: r =>
      (Ascii.eqb e "e" || Ascii.eqb e "E") &&
      match r with
      | s :: r' =>
          if Ascii.eqb s "+" || Ascii.eqb s "-"
          then digits1_then is_nil r' else digits1_then is_nil r
      | [] => false
      end
  end.

(** the fraction part, optional, then the exponent part *)
Definition valid_fraction (cs : chars) : bool :=
  match cs with
  | c :: r =>
      if Ascii.eqb c "." then digits1_then valid_exponent r
      else valid_exponent cs
  | [] => true
  end.

(** the integer part: [0], or a non-zero digit and more digits *)
Definition valid_unsigned (cs : chars) : bool :=
  match cs with
  | c :: r =>
      if Ascii.eqb c "0" then valid_fraction r
      else is_digit c && valid_fraction (drop_digits r)
  | [] => false
  end.

Definition valid_numeral (cs : chars) : bool :=
  match cs with
  | c :: r => if Ascii.eqb c "-" then valid_unsigned r else valid_unsigned cs
  | [] => false
  end.

(** The Number a numeral denotes; [None] when it is not a JSON numeral. *)
Definition Number_of_numeral (cs : chars) : option Number :=
  if valid_numeral cs then
    let other := NOther (string_of_list_ascii cs) in
    Some match cs with
         | c :: r =>
             if Ascii.eqb c "-" then
               let z := (- Z.of_N (digits_value r))%Z in
               if forallb is_digit r && (z <? 0)%Z && safe_integer z
               then NInt z else other
             else
               let z := Z.of_N (digits_value cs) in
               if forallb is_digit cs && safe_integer z
               then NInt z else other
         | [] => other
         end
  else None.

(* ------------------------------------------------------------------ *)
(** ** Strings in JSON text *)

Definition hex_char (d : N) : ascii :=
  if (d <? 10)%N then ascii_of_N (48 + d) else ascii_of_N (87 + d).

Definition hex_val (c : ascii) : option N :=
  let n := code c in
  if ((48 <=? n) && (n <=? 57))%N then Some (n - 48)%N
  else if ((97 <=? n) && (n <=? 102))%N then Some (n - 87)%N
  else if ((65 <=? n) && (n <=? 70))%N then Some (n - 55)%N
  else None.

(** QuoteJSONString, one character: the short escapes, [\u00xx] for the
    other control characters, the character itself otherwise. *)
Definition quote_char (c : ascii) : chars :=
  if Ascii.eqb c ch_quote then [ch_backslash; ch_quote]
  else if Ascii.eqb c ch_backslash then [ch_backslash; ch_backslash]
  else if Ascii.eqb c ch_bs then [ch_backslash; "b"%char]
  else if Ascii.eqb c ch_ff then [ch_backslash; "f"%char]
  else if Ascii.eqb c ch_lf then [ch_backslash; "n"%char]
  else if Ascii.eqb c ch_cr then [ch_backslash; "r"%char]
  else if Ascii.eqb c ch_tab then [ch_backslash; "t"%char]
  else if (code c <? 32)%N then
    [ch_backslash; "u"%char; "0"%char; "0"%char;
     hex_char (code c / 16); hex_char (code c mod 16)]
  else [c].

Definition quote (s : string) : chars :=
  ch_quote :: flat_map quote_char (list_ascii_of_string s) ++ [ch_quote].

(** What a string literal is read as: characters taken as they are, and
    UTF-16 code units written as [\uXXXX]. *)
Inductive Item : Type :=
| Raw (c : ascii)
| Unit16 (u : N).

Definition byte (n : N) : ascii := ascii_of_N (n mod 256).

(** UTF-8 of a code point *)
Definition utf8 (cp : N) : chars :=
  if (cp <? 128)%N then [byte cp]
  else if (cp <? 2048)%N then
    [byte (192 + cp / 64); byte (128 + cp mod 64)]
  else if (cp <? 65536)%N then
    [byte (224 + cp / 4096); byte (128 + (cp / 64) mod 64);
     byte (128 + cp mod 64)]
  else
    [byte (240 + cp / 262144); byte (128 + (cp / 4096) mod 64);
     byte (128 + (cp / 64) mod 64); byte (128 + cp mod 64)].

Definition is_high_surrogate (u : N) : bool := ((55296 <=? u) && (u <? 56320))%N.
Definition is_low_surrogate (u : N) : bool := ((56320 <=? u) && (u <? 57344))%N.

(** The bytes of the items: a surrogate pair is one code point, a lone
    surrogate has no UTF-8 and becomes U+FFFD. *)
Fixpoint items_bytes (l : list Item) : chars :=
  match l with
  | [] => []
  | Raw c :: r => c :: items_bytes r
  | Unit16 h :: r =>
      if is_high_surrogate h then
        match r with
        | Unit16 l :: r' =>
            if is_low_surrogate l
            then utf8 (65536 + (h - 55296) * 1024 + (l - 56320)) ++ items_bytes r'
            else utf8 65533 ++ items_bytes r
        | _ => utf8 65533 ++ items_bytes r
        end
      else if is_low_surrogate h then utf8 65533 ++ items_bytes r
      else utf8 h ++ items_bytes r
  end.

Definition string_of_items (acc : list Item) : string :=
  string_of_list_ascii (items_bytes (rev acc)).

(* ------------------------------------------------------------------ *)
(** ** Objects: own properties in property order *)

Definition Obj := list (string * Value).

(** An array index is a canonical numeral below [2^32 - 1]; such keys come
    first in property order, ascending. *)
Definition array_index (k : string) : option N :=
  match list_ascii_of_string k with
  | [] => None
  | c :: r =>
      if forallb is_digit (c :: r) && (negb (Ascii.eqb c "0") || is_nil r)
      then let n := digits_value (c :: r) in
           if (n <? 4294967295)%N then Some n else None
      else None
  end.

Fixpoint obj_get (k : string) (o : Obj) : MaybeUndefined :=
  match o with
  | [] => None
  | (k', v) :: r => if String.eqb k' k then Some v else obj_get k r
  end.

Fixpoint obj_replace (k : string) (v : Value) (o : Obj) : Obj :=
  match o with
  | [] => []
  | (k', v') :: r =>
      if String.eqb k' k then (k', v) :: r else (k', v') :: obj_replace k v r
  end.

Fixpoint obj_insert_index (i : N) (k : string) (v : Value) (o : Obj) : Obj :=
  match o with
  | [] => [(k, v)]
  | (k', v') :: r =>
      match array_index k' with
      | Some j =>
          if (j <? i)%N then (k', v') :: obj_insert_index i k v r
          else (k, v) :: o
      | None => (k, v) :: o
      end
  end.

(** CreateDataProperty: an existing property keeps its place and takes
    the new value, a new one goes where property order puts it. *)
Definition obj_set (k : string) (v : Value) (o : Obj) : Obj :=
  match obj_get k o with
  | Some _ => obj_replace k v o
  | None =>
      match array_index k with
      | Some i => obj_insert_index i k v o
      | None => o ++ [(k, v)]
      end
  end.

(* ------------------------------------------------------------------ *)
(** ** JSON.parse

    The text is read one character at a time.  The reader is in one of
    the states [Lex] (between tokens, or inside a string, an escape, a
    numeral or a literal name) and the grammar in one of the states
    [PState], with the enclosing arrays and objects on a stack. *)

Inductive Token : Type :=
| TLBrace | TRBrace | TLBrack | TRBrack | TComma | TColon
| TString (s : string)
| TPrim (v : Value).

Inductive Frame : Type :=
| FArr (acc : list Value)
    (** in an array, with the elements read so far, the last one first *)
| FObj (o : Obj) (k : string).
    (** in an object with properties [o], reading the value of [k] *)

Inductive PState : Type :=
| SValue (st : list Frame)                  (** a value must come *)
| SArrStart (st : list Frame)               (** after an opening bracket *)
| SObjStart (st : list Frame)               (** after an opening brace *)
| SKey (o : Obj) (st : list Frame)          (** after a comma in an object *)
| SColon (k : string) (o : Obj) (st : list Frame)  (** after a key *)
| SNextElem (acc : list Value) (st : list Frame)   (** after an element *)
| SNextMember (o : Obj) (st : list Frame)   (** after a member *)
| SDone (v : Value).                        (** the whole value is read *)

Definition deliver (v : Value) (st : list Frame) : PState :=
  match st with
  | [] => SDone v
  | FArr acc :: st' => SNextElem (v :: acc) st'
  | FObj o k :: st' => SNextMember (obj_set k v o) st'
  end.

Definition begin_value (t : Token) (st : list Frame) : option PState :=
  match t with
  | TLBrack => Some (SArrStart st)
  | TLBrace => Some (SObjStart st)
  | TString s => Some (deliver (JStr s) st)
  | TPrim v => Some (deliver v st)
  | _ => None
  end.

Definition token_step (t : Token) (p : PState) : option PState :=
  match p with
  | SValue st => begin_value t st
  | SArrStart st =>
      match t with
      | TRBrack => Some (deliver (JArr []) st)
      | _ => begin_value t (FArr [] :: st)
      end
  | SObjStart st =>
      match t with
      | TRBrace => Some (deliver (JObj []) st)
      | TString k => Some (SColon k [] st)
      | _ => None
      end
  | SKey o st =>
      match t with TString k => Some (SColon k o st) | _ => None end
  | SColon k o st =>
      match t with TColon => Some (SValue (FObj o k :: st)) | _ => None end
  | SNextElem acc st =>
      match t with
      | TComma => Some (SValue (FArr acc :: st))
      | TRBrack => Some (deliver (JArr (rev acc)) st)
      | _ => None
      end
  | SNextMember o st =>
      match t with
      | TComma => Some (SKey o st)
      | TRBrace => Some (deliver (JObj o) st)
      | _ => None
      end
  | SDone _ => None
  end.

Inductive Lex : Type :=
| LIdle
| LStr (acc : list Item)            (** in a string, the last item first *)
| LEsc (acc : list Item)            (** after a backslash *)
| LHex (acc : list Item) (n : nat) (u : N)
    (** after [\u] and [n] hexadecimal digits of value [u] *)
| LNum (acc : chars)                (** in a numeral, the last character first *)
| LLit (rest : chars) (v : Value).  (** in a literal name, [rest] to come *)

Definition St : Type := Lex * PState.

Definition emit (t : Token) (p : PState) : option St :=
  match token_step t p with
  | Some p' => Some (LIdle, p')
  | None => None
  end.

Definition is_numeral_char (c : ascii) : bool :=
  is_digit c || Ascii.eqb c "-" || Ascii.eqb c "+" || Ascii.eqb c "."
  || Ascii.eqb c "e" || Ascii.eqb c "E".

Definition step_idle (c : ascii) (p : PState) : option St :=
  if is_ws c then Some (LIdle, p)
  else if Ascii.eqb c "{" then emit TLBrace p
  else if Ascii.eqb c "}" then emit TRBrace p
  else if Ascii.eqb c "[" then emit TLBrack p
  else if Ascii.eqb c "]" then emit TRBrack p
  else if Ascii.eqb c "," then emit TComma p
  else if Ascii.eqb c ":" then emit TColon p
  else if Ascii.eqb c ch_quote then Some (LStr [], p)
  else if Ascii.eqb c "-" || is_digit c then Some (LNum [c], p)
  else if Ascii.eqb c "t" then Some (LLit ["r"; "u"; "e"]%char (JBool true), p)
  else if Ascii.eqb c "f" then Some (LLit ["a"; "l"; "s"; "e"]%char (JBool false), p)
  else if Ascii.eqb c "n" then Some (LLit ["u"; "l"; "l"]%char JNull, p)
  else None.

Definition finish_number (acc : chars) (p : PState) : option PState :=
  match Number_of_numeral (rev acc) with
  | Some n => token_step (TPrim (JNum n)) p
  | None => None
  end.

Definition step_escape (c : ascii) (acc : list Item) (p : PState) : option St :=
  if Ascii.eqb c ch_quote then Some (LStr (Raw ch_quote :: acc), p)
  else if Ascii.eqb c ch_backslash then Some (LStr (Raw ch_backslash :: acc), p)
  else if Ascii.eqb c "/" then Some (LStr (Raw "/" :: acc), p)
  else if Ascii.eqb c "b" then Some (LStr (Raw ch_bs :: acc), p)
  else if Ascii.eqb c "f" then Some (LStr (Raw ch_ff :: acc), p)
  else if Ascii.eqb c "n" then Some (LStr (Raw ch_lf :: acc), p)
  else if Ascii.eqb c "r" then Some (LStr (Raw ch_cr :: acc), p)
  else if Ascii.eqb c "t" then Some (LStr (Raw ch_tab :: acc), p)
  else if Ascii.eqb c "u" then Some (LHex acc 0 0%N, p)
  else None.

Definition step (c : ascii) (s : St) : option St :=
  let (l, p) := s in
  match l with
  | LIdle => step_idle c p
  | LStr acc =>
      if Ascii.eqb c ch_quote then emit (TString (string_of_items acc)) p
      else if Ascii.eqb c ch_backslash then Some (LEsc acc, p)
      else if (code c <? 32)%N then None
      else Some (LStr (Raw c :: acc), p)
  | LEsc acc => step_escape c acc p
  | LHex acc n u =>
      match hex_val c with
      | Some d =>
          let u' := (16 * u + d)%N in
          if Nat.eqb n 3 then Some (LStr (Unit16 u' :: acc), p)
          else Some (LHex acc (S n) u', p)
      | None => None
      end
  | LNum acc =>
      if is_numeral_char c then Some (LNum (c :: acc), p)
      else match finish_number acc p with
           | Some p' => step_idle c p'
           | None => None
           end
  | LLit rest v =>
      match rest with
      | c' :: rest' =>
          if Ascii.eqb c c' then
            if is_nil rest' then emit (TPrim v) p else Some (LLit rest' v, p)
          else None
      | [] => None
      end
  end.

Fixpoint run (cs : chars) (s : St) : option St :=
  match cs with
  | [] => Some s
  | c :: r => match step c s with Some s' => run r s' | None => None end
  end.

(** At the end of the text a numeral may still be open; nothing else. *)
Definition finish (s : St) : option Value :=
  match s with
  | (LIdle, SDone v) => Some v
  | (LNum acc, p) =>
      match finish_number acc p with Some (SDone v) => Some v | _ => None end
  | _ => None
  end.

Definition parse_from (cs : chars) (s : St) : option Value :=
  match run cs s with Some s' => finish s' | None => None end.

(** [JSON.parse text]: the value, or [None] for a [SyntaxError]. *)
Definition JSON_parse (text : string) : option Value :=
  parse_from (list_ascii_of_string text) (LIdle, SValue []).

(* ------------------------------------------------------------------ *)
(** ** JSON.stringify, truthiness, ToString *)

Fixpoint join (sep : chars) (l : list chars) : chars :=
  match l with
  | [] => []
  | [x] => x
  | x :: r => x ++ sep ++ join sep r
  end.

(** the line break before an item at indentation [ind]; nothing when the
    gap is empty *)
Definition newline (gap ind : nat) : chars :=
  if Nat.eqb gap 0 then [] else ch_lf :: repeat " "%char ind.

Definition colon (gap : nat) : chars :=
  if Nat.eqb gap 0 then [":"%char] else [":"; " "]%char.

Section WithPlatform.
Context {PF : Platform}.

Definition number_chars (n : Number) : chars :=
  match n with
  | NInt z => Z_to_chars z
  | NOther l =>
      list_ascii_of_string
        (if number_is_finite l then number_to_string l else "null")
  end.

(** SerializeJSONProperty with a gap of [gap] spaces, at indentation
    [ind] *)
Fixpoint stringify_at (gap ind : nat) (v : Value) : chars :=
  match v with
  | JNull => list_ascii_of_string "null"
  | JBool true => list_ascii_of_string "true"
  | JBool false => list_ascii_of_string "false"
  | JNum n => number_chars n
  | JStr s => quote s
  | JArr [] => list_ascii_of_string "[]"
  | JArr l =>
      "["%char :: newline gap (ind + gap)
      ++ join (","%char :: newline gap (ind + gap))
              (map (stringify_at gap (ind + gap)) l)
      ++ newline gap ind ++ ["]"%char]
  | JObj [] => list_ascii_of_string "{}"
  | JObj o =>
      "{"%char :: newline gap (ind + gap)
      ++ join (","%char :: newline gap (ind + gap))
              (map (fun kv => quote (fst kv) ++ colon gap
                              ++ stringify_at gap (ind + gap) (snd kv)) o)
      ++ newline gap ind ++ ["}"%char]
  end.

(** [JSON.stringify(v, null, gap)]; [JSON.stringify(v)] is gap 0. *)
Definition JSON_stringify (v : Value) (gap : nat) : string :=
  string_of_list_ascii (stringify_at gap 0 v).

(** ToBoolean *)
Definition truthy (v : Value) : bool :=
  match v with
  | JNull => false
  | JBool b => b
  | JNum (NInt z) => negb (z =? 0)
  | JNum (NOther l) => negb (number_is_zero l)
  | JStr s => negb (String.eqb s "")
  | JArr _ | JObj _ => true
  end.

Definition truthy_or_undefined (m : MaybeUndefined) : bool :=
  match m with Some v => truthy v | None => false end.

Definition Number_to_string (n : Number) : string :=
  match n with
  | NInt z => Z_to_string z
  | NOther l => number_to_string l
  end.

Fixpoint string_join (sep : string) (l : list string) : string :=
  match l with
  | [] => ""
  | [x] => x
  | x :: r => (x ++ sep ++ string_join sep r)%string
  end.

Fixpoint sequence (l : list (option string)) : option (list string) :=
  match l with
  | [] => Some []
  | Some x :: r =>
      match sequence r with Some xs => Some (x :: xs) | None => None end
  | None :: _ => None
  end.

(** ToString; [None] when it throws the [NotPrimitive] TypeError.  An
    array is its elements joined by commas, [null] counting as empty;
    an object is [[object Object]] unless an own [toString] property
    (never callable in a parsed value) hides the inherited method. *)
Fixpoint to_string (v : Value) : option string :=
  match v with
  | JNull => Some "null"
  | JBool true => Some "true"
  | JBool false => Some "false"
  | JNum n => Some (Number_to_string n)
  | JStr s => Some s
  | JArr l =>
      match sequence (map (fun x => match x with
                                    | JNull => Some ""
                                    | _ => to_string x
                                    end) l) with
      | Some xs => Some (string_join "," xs)
      | None => None
      end
  | JObj o =>
      match obj_get "toString" o with
      | Some _ => None
      | None => Some "[object Object]"
      end
  end.

Definition to_string_or_undefined (m : MaybeUndefined) : option string :=
  match m with Some v => to_string v | None => Some "undefined" end.

End WithPlatform.

(** [v.name] for the property names the page reads ([error], [ticker],
    [runId], the scores, justifications and recommendations, [summary]):
    [None] when [v] is [null] (a TypeError), the own property of an
    object, and [undefined] on any other value. *)
Definition get_prop (v : Value) (name : string) : option MaybeUndefined :=
  match v with
  | JNull => None
  | JObj o => Some (obj_get name o)
  | _ => Some None
  end.

(** The object built by creating the properties of [l] in order. *)
Definition obj_of_entries (l : list (string * Value)) : Obj :=
  fold_left (fun acc kv => obj_set (fst kv) (snd kv) acc) l [].

(** A value as [JSON.parse] builds them, with integer numbers: every
    number is a safe integer and every object lists its properties as
    creating them in that order lists them (no key twice, array indices
    first and ascending). *)
Fixpoint well_formed (v : Value) : Prop :=
  match v with
  | JNull | JBool _ | JStr _ => True
  | JNum (NInt z) => safe_integer z = true
  | JNum (NOther _) => False
  | JArr l =>
      (fix all (l : list Value) : Prop :=
         match l with
         | [] => True
         | x :: r => well_formed x /\ all r
         end) l
  | JObj o =>
      obj_of_entries o = o /\
      (fix all (o : list (string * Value)) : Prop :=
         match o with
         | [] => True
         | kv :: r => well_formed (snd kv) /\ all r
         end) o
  end.

(* ------------------------------------------------------------------ *)
(** ** Vocabulary for the facts about JSON text *)

(** the number read from digits, starting from [a] *)
Definition value_from (a : N) (cs : chars) : N :=
  fold_left (fun a c => (10 * a + digit_val c)%N) cs a.

(** What may follow a numeral without being read as part of it. *)
Definition sep_ok (rest : chars) : Prop :=
  match rest with
  | [] => True
  | c :: _ => is_numeral_char c = false
  end.

(** The state in which a value is awaited, and the frames around that
    value: directly after an opening bracket the array frame is not
    pushed until the first element begins. *)
Definition awaiting (first : bool) (st : list Frame) : PState :=
  if first then SArrStart st else SValue st.

Definition around (first : bool) (st : list Frame) : list Frame :=
  if first then FArr [] :: st else st.

(** [k'] comes after [k] in property order, and is another key. *)
Definition key_before (k k' : string) : Prop :=
  k' <> k /\
  match array_index k, array_index k' with
  | Some i, Some j => (i < j)%N
  | None, Some _ => False
  | _, _ => True
  end.

(** keys in property order, none twice *)
Fixpoint ordered_keys (ks : list string) : Prop :=
  match ks with
  | [] => True
  | k :: r => (forall k', In k' r -> key_before k k') /\ ordered_keys r
  end.

(** The shape of the values the parser builds: an integer number is
    safe, the keys of an object are in property order. *)
Fixpoint canonical (v : Value) : Prop :=
  match v with
  | JNull | JBool _ | JStr _ | JNum (NOther _) => True
  | JNum (NInt z) => safe_integer z = true
  | JArr l =>
      (fix all (l : list Value) : Prop :=
         match l with
         | [] => True
         | x :: r => canonical x /\ all r
         end) l
  | JObj o =>
      ordered_keys (map fst o) /\
      (fix all (o : list (string * Value)) : Prop :=
         match o with
         | [] => True
         | kv :: r => canonical (snd kv) /\ all r
         end) o
  end.

(** Every number in the value is an integer. *)
Fixpoint integral (v : Value) : Prop :=
  match v with
  | JNull | JBool _ | JStr _ | JNum (NInt _) => True
  | JNum (NOther _) => False
  | JArr l =>
      (fix all (l : list Value) : Prop :=
         match l with
         | [] => True
         | x :: r => integral x /\ all r
         end) l
  | JObj o =>
      (fix all (o : list (string * Value)) : Prop :=
         match o with
         | [] => True
         | kv :: r => integral (snd kv) /\ all r
         end) o
  end.

(** What the parser keeps true of its state. *)
Definition good_frame (f : Frame) : Prop :=
  match f with
  | FArr acc => Forall canonical acc
  | FObj o _ => canonical (JObj o)
  end.

Definition good_pstate (p : PState) : Prop :=
  match p with
  | SValue st | SArrStart st | SObjStart st => Forall good_frame st
  | SKey o st | SColon _ o st | SNextMember o st =>
      canonical (JObj o) /\ Forall good_frame st
  | SNextElem acc st => Forall canonical acc /\ Forall good_frame st
  | SDone v => canonical v
  end.

Definition good_token (t : Token) : Prop :=
  match t with TPrim v => canonical v | _ => True end.

Definition good_state (s : St) : Prop :=
  match fst s with LLit _ v => canonical v | _ => True end /\
  good_pstate (snd s).

(** no digit [0] in front *)
Definition no_leading_zero (cs : chars) : Prop :=
  match cs with [] => True | c :: _ => Ascii.eqb c "0" = false end.

Section Reading.
Context {PF : Platform}.

(** The text of [v], wherever a value is awaited, is read as [v]. *)
Definition reads (v : Value) : Prop :=
  forall gap ind first st rest,
    sep_ok rest ->
    parse_from (stringify_at gap ind v ++ rest) (LIdle, awaiting first st) =
    parse_from rest (LIdle, deliver v (around first st)).

(** the text of a member of an object *)
Definition member_chars (gap ind : nat) (kv : string * Value) : chars :=
  quote (fst kv) ++ colon gap ++ stringify_at gap ind (snd kv).

End Reading.

End JS.

(* ================================================================== *)
(** * The Fetch API, as far as the page uses it *)
(* ================================================================== *)

Module Web.
Import JS.

(** An error object: what [catch] binds and [e.message] reads. *)
Record JsError : Type := { error_name : string; message : string }.

(** A response: its status and its body, [None] for a null body.  The
    body is delivered whole and is UTF-8 text. *)
Record Response : Type := { status : Z; body : option string }.

(** What [await fetch(...)] does: it throws, or yields a response. *)
Inductive FetchOutcome : Type :=
| Rejected (e : JsError)
| Resolved (res : Response).

(** [res.ok]: the status is in the range 200 to 299. *)
Definition ok (res : Response) : bool :=
  (200 <=? status res) && (status res <=? 299).

(** UTF-8 decode drops a leading byte order mark. *)
Definition utf8_decode (text : string) : string :=
  match text with
  | String a (String b (String c r)) =>
      if (Ascii.eqb a "239" && Ascii.eqb b "187" && Ascii.eqb c "191")%bool
      then r else text
  | _ => text
  end.

(** The text a body method reads: the decoded body, empty for a null
    body. *)
Definition decoded_body (res : Response) : string :=
  match body res with
  | Some t => utf8_decode t
  | None => ""
  end.

(** Code that reads the body of one response and may throw: the state is
    the [bodyUsed] flag of that response. *)
Definition Body (A : Type) : Type := bool -> (JsError + A) * bool.

Definition ret {A} (a : A) : Body A := fun used => (inr a, used).

Definition throw {A} (e : JsError) : Body A := fun used => (inl e, used).

Definition bind {A B} (m : Body A) (k : A -> Body B) : Body B :=
  fun used =>
    match m used with
    | (inr a, used') => k a used'
    | (inl e, used') => (inl e, used')
    end.

(** [try { m } catch { h }] *)
Definition try_catch {A} (m : Body A) (h : JsError -> Body A) : Body A :=
  fun used =>
    match m used with
    | (inl e, used') => h e used'
    | r => r
    end.

Notation "x <- m ;; k" := (bind m (fun x => k))
  (at level 61, m at next level, right associativity).

Section WithPlatform.
Context {PF : Platform}.

Definition SyntaxError (text : string) : JsError :=
  {| error_name := "SyntaxError"; message := error_message (JsonSyntax text) |}.

Definition TypeError (e : PlatformError) : JsError :=
  {| error_name := "TypeError"; message := error_message e |}.

(** [new Error(msg)] *)
Definition Error (msg : string) : JsError :=
  {| error_name := "Error"; message := msg |}.

(** The "consume body" steps of the Fetch Standard: a body that is not
    null and has been read is unusable and the method throws; otherwise
    the whole body is read, which marks it used.  A null body reads as
    the empty text and is never unusable. *)
Definition consume (method : string) (res : Response) : Body string :=
  fun used =>
    match body res with
    | None => (inr "", used)
    | Some text =>
        if used then (inl (TypeError (BodyUsed method)), used)
        else (inr (utf8_decode text), true)
    end.

(** [res.text()] *)
Definition text (res : Response) : Body string := consume "text" res.

(** [res.json()] *)
Definition json (res : Response) : Body Value :=
  t <- consume "json" res ;;
  match JSON_parse t with
  | Some v => ret v
  | None => throw (SyntaxError t)
  end.

End WithPlatform.

End Web.

(* ================================================================== *)
(** * The page component *)
(* ================================================================== *)

Module AnalysisResult.
(** [type AnalysisResult] (lines 4-14) *)
Record t : Type := {
  ticker : string;
  trustScore : JS.Number;
  trustJustification : string;
  trustRecommendations : list string;
  growthScore : JS.Number;
  growthJustification : string;
  growthRecommendations : list string;
  summary : string;
  runId : string
}.
End AnalysisResult.

Module Page.
Import JS Web.

(** The two values of the [ticker] state and of the select. *)
Inductive Ticker : Type := VOLV_B | HM_B.

Definition ticker_value (t : Ticker) : string :=
  match t with VOLV_B => "VOLV-B" | HM_B => "HM-B" end.

(** A file handle of the file picker. *)
Record File : Type := { file_name : string; file_bytes : string }.

(** The five [useState] cells (lines 17-21).  [files] is [None] for
    [null]; [result] is [JNull] for [null], and otherwise whatever value
    [setResult] was given; [error] is [None] for [null]. *)
Record State : Type := {
  files : option (list File);
  ticker : Ticker;
  loading : bool;
  result : Value;
  error : option string
}.

Definition initial : State :=
  {| files := None; ticker := VOLV_B; loading := false;
     result := JNull; error := None |}.

Definition setFiles (fs : option (list File)) (s : State) : State :=
  {| files := fs; ticker := ticker s; loading := loading s;
     result := result s; error := error s |}.
Definition setTicker (t : Ticker) (s : State) : State :=
  {| files := files s; ticker := t; loading := loading s;
     result := result s; error := error s |}.
Definition setLoading (b : bool) (s : State) : State :=
  {| files := files s; ticker := ticker s; loading := b;
     result := result s; error := error s |}.
Definition setResult (v : Value) (s : State) : State :=
  {| files := files s; ticker := ticker s; loading := loading s;
     result := v; error := error s |}.
Definition setError (e : option string) (s : State) : State :=
  {| files := files s; ticker := ticker s; loading := loading s;
     result := result s; error := e |}.

(** A [FormData]: its entries in the order they were appended. *)
Inductive FormValue : Type :=
| FText (s : string)
| FFile (f : File).

Definition FormData := list (string * FormValue).

Record Request : Type := {
  url : string;
  method : string;
  form : FormData
}.

(** What a handler does, in order: state updates, the console, and the
    one point where it waits, [await fetch]. *)
Inductive Proc : Type :=
| Done
| PreventDefault (k : Proc)
| SetFiles (fs : option (list File)) (k : Proc)
| SetTicker (t : Ticker) (k : Proc)
| SetLoading (b : bool) (k : Proc)
| SetResult (v : Value) (k : Proc)
| SetError (e : option string) (k : Proc)
| ConsoleError (label : string) (e : JsError) (k : Proc)
| AwaitFetch (req : Request) (k : FetchOutcome -> Proc).

Definition endpoint : string := "http://localhost:4000/api/analyze".

Definition no_files_message : string := "Please select at least one PDF file.".

Section WithPlatform.
Context {PF : Platform}.

(** lines 24-26 *)
Definition handleFileChange (target_files : option (list File)) : Proc :=
  SetFiles target_files Done.

(** line 94 *)
Definition handleTickerChange (t : Ticker) : Proc :=
  SetTicker t Done.

(** [new Error(errMsg)]: the message is ToString of the argument. *)
Definition new_Error (errMsg : Value) : JsError :=
  match to_string errMsg with
  | Some s => Error s
  | None => TypeError NotPrimitive
  end.

(** [errJson.error]; reading a property of [null] throws. *)
Definition read_error_property (errJson : Value) : Body MaybeUndefined :=
  match get_prop errJson "error" with
  | Some m => ret m
  | None => throw (TypeError (NullProperty "error"))
  end.

(** lines 48-60, the body of the [try] once [fetch] has resolved *)
Definition read_response (res : Response) : Body Value :=
  if negb (ok res) then
    let errMsg0 := ("HTTP " ++ Z_to_string (status res))%string in
    errMsg <- try_catch
                (errJson <- json res ;;
                 e <- read_error_property errJson ;;
                 ret (match e with
                      | Some v =>
                          if truthy v then v
                          else JStr (JSON_stringify errJson 0)
                      | None => JStr (JSON_stringify errJson 0)
                      end))
                (fun _ =>
                   t <- text res ;;
                   ret (JStr (if String.eqb t "" then errMsg0 else t))) ;;
    throw (new_Error errMsg)
  else json res.

(** line 64: [e.message || 'Unknown error'] *)
Definition surfaced (e : JsError) : string :=
  if String.eqb (message e) "" then "Unknown error" else message e.

(** lines 62-67: the [catch] block, then the [finally] block *)
Definition caught (e : JsError) : Proc :=
  ConsoleError "Fetch error:" e
    (SetError (Some (surfaced e)) (SetLoading false Done)).

(** lines 43-67: the [try] / [catch] / [finally] around the request,
    from the point where [fetch] settles *)
Definition after_fetch (o : FetchOutcome) : Proc :=
  let tried : JsError + Value :=
    match o with
    | Rejected e => inl e
    | Resolved res => fst (read_response res false)
    end in
  match tried with
  | inr json => SetResult json (SetLoading false Done)
  | inl e => caught e
  end.

(** lines 39-41 *)
Definition build_form (t : Ticker) (fs : list File) : FormData :=
  ("ticker", FText (ticker_value t)) :: map (fun f => ("files", FFile f)) fs.

(** lines 29-68; [files] and [ticker] are the state the handler closed
    over *)
Definition handleSubmit (files : option (list File)) (ticker : Ticker) : Proc :=
  PreventDefault
    match files with
    | None | Some [] => SetError (Some no_files_message) Done
    | Some fs =>
        SetLoading true (SetError None (SetResult JNull
          (AwaitFetch {| url := endpoint; method := "POST";
                         form := build_form ticker fs |}
                      after_fetch)))
    end.

End WithPlatform.

(* ------------------------------------------------------------------ *)
(** ** Export *)

(** What the click on the temporary anchor downloads: the blob behind
    the object URL, under the name in [a.download]. *)
Record Download : Type := {
  filename : string;
  mime : string;
  content : string
}.

Section Exporting.
Context {PF : Platform}.

(** A substitution of a template literal: ToString of a property. *)
Definition property_text (v : Value) (name : string) : option string :=
  match get_prop v name with
  | Some m => to_string_or_undefined m
  | None => None
  end.

(** lines 71-81.  [None]: nothing is downloaded, because there is no
    result or because building the name threw. *)
Definition handleExportJson (result : Value) : option Download :=
  if negb (truthy result) then None
  else
    let dataStr := JSON_stringify result 2 in
    match property_text result "ticker", property_text result "runId" with
    | Some t, Some r =>
        Some {| filename := (t ++ "_analysis_" ++ r ++ ".json")%string;
                mime := "application/json";
                content := dataStr |}
    | _, _ => None
    end.
End Exporting.

(* ------------------------------------------------------------------ *)
(** ** The result at its declared type *)

Fixpoint strings_of (l : list Value) : option (list string) :=
  match l with
  | [] => Some []
  | JStr s :: r =>
      match strings_of r with Some ss => Some (s :: ss) | None => None end
  | _ :: _ => None
  end.

(** The record a value is, when it has the nine properties of
    [AnalysisResult] at their types.  [as AnalysisResult] (line 60)
    checks nothing: a result that is not of this shape is held all the
    same. *)
Definition decode (v : Value) : option AnalysisResult.t :=
  match v with
  | JObj o =>
      match obj_get "ticker" o, obj_get "trustScore" o,
            obj_get "trustJustification" o, obj_get "trustRecommendations" o,
            obj_get "growthScore" o, obj_get "growthJustification" o,
            obj_get "growthRecommendations" o, obj_get "summary" o,
            obj_get "runId" o with
      | Some (JStr t), Some (JNum ts), Some (JStr tj), Some (JArr tr),
        Some (JNum gs), Some (JStr gj), Some (JArr gr), Some (JStr su),
        Some (JStr ri) =>
          match strings_of tr, strings_of gr with
          | Some trs, Some grs =>
              Some {| AnalysisResult.ticker := t;
                      AnalysisResult.trustScore := ts;
                      AnalysisResult.trustJustification := tj;
                      AnalysisResult.trustRecommendations := trs;
                      AnalysisResult.growthScore := gs;
                      AnalysisResult.growthJustification := gj;
                      AnalysisResult.growthRecommendations := grs;
                      AnalysisResult.summary := su;
                      AnalysisResult.runId := ri |}
          | _, _ => None
          end
      | _, _, _, _, _, _, _, _, _ => None
      end
  | _ => None
  end.

(** The object with exactly the nine properties, in declaration order. *)
Definition encode (r : AnalysisResult.t) : Value :=
  JObj [("ticker", JStr (AnalysisResult.ticker r));
        ("trustScore", JNum (AnalysisResult.trustScore r));
        ("trustJustification", JStr (AnalysisResult.trustJustification r));
        ("trustRecommendations",
          JArr (map JStr (AnalysisResult.trustRecommendations r)));
        ("growthScore", JNum (AnalysisResult.growthScore r));
        ("growthJustification", JStr (AnalysisResult.growthJustification r));
        ("growthRecommendations",
          JArr (map JStr (AnalysisResult.growthRecommendations r)));
        ("summary", JStr (AnalysisResult.summary r));
        ("runId", JStr (AnalysisResult.runId r))].

(* ------------------------------------------------------------------ *)
(** ** The rendered page (lines 83-192)

    Elements keep their tag, the attributes that carry behaviour and
    their children; [className] is left out. *)

Inductive Handler : Type :=
| OnSubmit | OnFileChange | OnTickerChange | OnExportClick.

Inductive Attr : Type :=
| Att (name value : string)
| Flag (name : string) (b : bool)
| On (h : Handler).

Unset Elimination Schemes.
Inductive Node : Type :=
| Text (s : string)
| El (tag : string) (attrs : list Attr) (children : list Node).
Set Elimination Schemes.

(** [{cond && (...)}] with a boolean condition *)
Definition when (b : bool) (ns : list Node) : list Node :=
  if b then ns else [].

Section View.
Context {PF : Platform}.

(** lines 149-158 and 165-174: the heading and the list, when the list
    has an item *)
Definition recommendations (heading : string) (recs : list string) : list Node :=
  when (0 <? Z.of_nat (List.length recs))
    [El "h4" [] [Text heading];
     El "ul" [] (map (fun rec => El "li" [] [Text rec]) recs)].

(** lines 146-159 and 162-175 *)
Definition score_section (title : string) (score : Number)
    (justification heading : string) (recs : list string) : Node :=
  El "div" []
    ([El "h3" [] [Text title; Text (Number_to_string score); Text "/100"];
      El "p" [] [Text justification]]
     ++ recommendations heading recs).

(** lines 142-189 *)
Definition result_panel (r : AnalysisResult.t) : Node :=
  El "div" []
    [El "h2" [] [Text "Results for "; Text (AnalysisResult.ticker r)];
     score_section "Trust (Transparency): " (AnalysisResult.trustScore r)
       (AnalysisResult.trustJustification r)
       "Transparency Recommendations:"
       (AnalysisResult.trustRecommendations r);
     score_section "Growth (Differentiation): " (AnalysisResult.growthScore r)
       (AnalysisResult.growthJustification r)
       "Differentiation Recommendations:"
       (AnalysisResult.growthRecommendations r);
     El "p" [] [Text (AnalysisResult.summary r)];
     El "p" [] [Text "Run ID: "; Text (AnalysisResult.runId r)];
     El "div" []
       [El "button" [On OnExportClick] [Text "Export JSON"]]].

(** lines 130-136 *)
Definition submit_button (s : State) : Node :=
  El "button" [Att "type" "submit"; Flag "disabled" (loading s)]
    [Text (if loading s then "Analyzingâ€¦" else "Run Analysis")].

(** lines 118-127 *)
Definition selected_files (s : State) : list Node :=
  match files s with
  | Some (f :: fs) =>
      [El "div" []
         [Text "Selected Files:";
          El "ul" [] (map (fun file => El "li" [] [Text (file_name file)])
                          (f :: fs))]]
  | _ => []
  end.

(** line 138 *)
Definition error_line (s : State) : list Node :=
  match error s with
  | Some e => when (negb (String.eqb e "")) [El "p" [] [Text e]]
  | None => []
  end.

(** lines 86-139 *)
Definition form_node (s : State) : Node :=
  El "form" [On OnSubmit]
    ([El "div" []
        [El "label" [] [Text "Select Company:"];
         El "select" [Att "value" (ticker_value (ticker s)); On OnTickerChange]
           [El "option" [Att "value" "VOLV-B"] [Text "Volvo Group (VOLV-B)"];
            El "option" [Att "value" "HM-B"] [Text "H&M (HM-B)"]]];
      El "div" []
        ([El "label" [] [Text "Upload up to 5 Annual Report PDFs:"];
          El "input" [Att "type" "file"; Att "accept" "application/pdf";
                      Flag "multiple" true; On OnFileChange;
                      Att "id" "annual-report-upload"] [];
          El "label" [Att "htmlFor" "annual-report-upload"]
            [Text "Choose PDF Files"]]
         ++ selected_files s);
      submit_button s]
     ++ error_line s).

(** ** The result panel for any result

    [as AnalysisResult] (line 60) checks nothing, so the JSX of lines
    141-190 runs on whatever value is held.  Rendering is [None] when
    it throws. *)

(** [{v}]: a value as a child of an element.  A string or a number is
    a text, a boolean or [null] is nothing, an array is its items one
    after the other; an object is not a valid child, and React
    throws. *)
Fixpoint child (v : Value) : option (list Node) :=
  match v with
  | JNull | JBool _ => Some []
  | JNum n => Some [Text (Number_to_string n)]
  | JStr s => Some [Text s]
  | JArr l =>
      (fix all (l : list Value) : option (list Node) :=
         match l with
         | [] => Some []
         | x :: r =>
             match child x, all r with
             | Some a, Some b => Some (a ++ b)
             | _, _ => None
             end
         end) l
  | JObj _ => None
  end.

Definition child_or_undefined (m : MaybeUndefined) : option (list Node) :=
  match m with Some v => child v | None => Some [] end.

(** What [{v && ...}] renders for a falsy [v]: the value itself, of
    which only a number shows. *)
Definition falsy_child (v : Value) : list Node :=
  match v with
  | JNum n => [Text (Number_to_string n)]
  | _ => []
  end.

(** [x > 0]; [None] when converting [x] to a primitive throws.  A
    numeral that is not a safe integer denotes a number above 0 when it
    has no minus sign and does not round to 0. *)
Definition greater_than_zero (x : Value) : option bool :=
  match x with
  | JNull => Some false
  | JBool b => Some b
  | JNum (NInt z) => Some (0 <? z)
  | JNum (NOther l) =>
      Some (negb (number_is_zero l) &&
            match l with
            | String c _ => negb (Ascii.eqb c "-")
            | EmptyString => true
            end)
  | JStr s => Some (string_is_positive s)
  | JArr _ | JObj _ =>
      match to_string x with
      | Some s => Some (string_is_positive s)
      | None => None
      end
  end.

(** [recs.map((rec, idx) => <li key={idx}>{rec}</li>)] on an array *)
Fixpoint list_items (l : list Value) : option (list Node) :=
  match l with
  | [] => Some []
  | rec :: r =>
      match child rec, list_items r with
      | Some c, Some lis => Some (El "li" [] c :: lis)
      | _, _ => None
      end
  end.

(** lines 149-158 and 165-174 on any value of the property:
    [{recs && recs.length > 0 && (<>...</>)}].  A falsy [recs] is
    rendered itself.  The [length] of an array is its length, that of a
    string is above 0 when the string is truthy, that of a boolean or a
    number is [undefined], that of an object is its own property.  When
    the length is above 0, [recs.map] is called: it is a function on an
    array only. *)
Definition recommendations_of (heading : string) (recs : MaybeUndefined)
    : option (list Node) :=
  match recs with
  | None => Some []
  | Some v =>
      if negb (truthy v) then Some (falsy_child v)
      else
        match v with
        | JArr [] => Some []
        | JArr l =>
            match list_items l with
            | Some lis => Some [El "h4" [] [Text heading]; El "ul" [] lis]
            | None => None
            end
        | JStr _ => None
        | JObj o =>
            match obj_get "length" o with
            | None => Some []
            | Some x =>
                match greater_than_zero x with
                | Some false => Some []
                | _ => None
                end
            end
        | _ => Some []
        end
  end.

(** lines 146-159 and 162-175 on any values of the properties *)
Definition score_section_of (title : string) (score justification : MaybeUndefined)
    (heading : string) (recs : MaybeUndefined) : option Node :=
  match child_or_undefined score, child_or_undefined justification,
        recommendations_of heading recs with
  | Some sc, Some ju, Some re =>
      Some (El "div" []
              ([El "h3" [] ([Text title] ++ sc ++ [Text "/100"]);
                El "p" [] ju]
               ++ re))
  | _, _, _ => None
  end.

(** lines 142-189 on any result that is not [null] *)
Definition panel (result : Value) : option Node :=
  match get_prop result "ticker", get_prop result "trustScore",
        get_prop result "trustJustification",
        get_prop result "trustRecommendations",
        get_prop result "growthScore",
        get_prop result "growthJustification",
        get_prop result "growthRecommendations",
        get_prop result "summary", get_prop result "runId" with
  | Some t, Some ts, Some tj, Some tr, Some gs, Some gj, Some gr,
    Some su, Some ri =>
      match child_or_undefined t,
            score_section_of "Trust (Transparency): " ts tj
              "Transparency Recommendations:" tr,
            score_section_of "Growth (Differentiation): " gs gj
              "Differentiation Recommendations:" gr,
            child_or_undefined su, child_or_undefined ri with
      | Some ct, Some trust, Some growth, Some csu, Some cri =>
          Some (El "div" []
                  [El "h2" [] ([Text "Results for "] ++ ct);
                   trust;
                   growth;
                   El "p" [] csu;
                   El "p" [] ([Text "Run ID: "] ++ cri);
                   El "div" []
                     [El "button" [On OnExportClick] [Text "Export JSON"]]])
      | _, _, _, _, _ => None
      end
  | _, _, _, _, _, _, _, _, _ => None
  end.

(** lines 83-192: the heading, the form, and what [{result && (...)}]
    renders.  [None] when rendering the panel throws. *)
Definition view (s : State) : option Node :=
  let top := [El "h1" [] [Text "Trust & Growth Analyzer"]; form_node s] in
  if truthy (result s) then
    match panel (result s) with
    | Some p => Some (El "div" [] (top ++ [p]))
    | None => None
    end
  else Some (El "div" [] (top ++ falsy_child (result s))).

End View.

(* ------------------------------------------------------------------ *)
(** ** The page in its environment *)

(** What a handler has done, one entry per action. *)
Inductive Action : Type :=
| DidPreventDefault
| DidSetFiles (fs : option (list File))
| DidSetTicker (t : Ticker)
| DidSetLoading (b : bool)
| DidSetResult (v : Value)
| DidSetError (e : option string)
| DidConsoleError (label : string) (e : JsError)
| DidFetch (req : Request)
| DidDownload (d : Download).

(** The component state, the handlers suspended at [await fetch], and
    everything done so far, the oldest action first. *)
Record World : Type := {
  st : State;
  waiting : list (FetchOutcome -> Proc);
  history : list Action
}.

Definition boot : World :=
  {| st := initial; waiting := []; history := [] |}.

Definition act (a : Action) (f : State -> State) (w : World) : World :=
  {| st := f (st w); waiting := waiting w; history := history w ++ [a] |}.

(** Run a handler up to its end or to the point where it waits. *)
Fixpoint run (p : Proc) (w : World) : World :=
  match p with
  | Done => w
  | PreventDefault k => run k (act DidPreventDefault (fun s => s) w)
  | SetFiles fs k => run k (act (DidSetFiles fs) (setFiles fs) w)
  | SetTicker t k => run k (act (DidSetTicker t) (setTicker t) w)
  | SetLoading b k => run k (act (DidSetLoading b) (setLoading b) w)
  | SetResult v k => run k (act (DidSetResult v) (setResult v) w)
  | SetError e k => run k (act (DidSetError e) (setError e) w)
  | ConsoleError l e k => run k (act (DidConsoleError l e) (fun s => s) w)
  | AwaitFetch req k =>
      {| st := st w; waiting := waiting w ++ [k];
         history := history w ++ [DidFetch req] |}
  end.

(** The requests among some actions, in order. *)
Fixpoint requests (h : list Action) : list Request :=
  match h with
  | [] => []
  | DidFetch req :: r => req :: requests r
  | _ :: r => requests r
  end.

Fixpoint remove_nth {A} (i : nat) (l : list A) : list A :=
  match i, l with
  | O, _ :: r => r
  | S i', x :: r => x :: remove_nth i' r
  | _, [] => []
  end.

(** What happens to the page. *)
Inductive Event : Type :=
| PickFiles (fs : option (list File))   (** the file input changes *)
| PickTicker (t : Ticker)               (** the select changes *)
| Submit                                (** the form is submitted *)
| Settle (i : nat) (o : FetchOutcome)   (** the [i]-th waiting fetch settles *)
| Export.                               (** the export button is clicked *)

Section Reactions.
Context {PF : Platform}.

(** The world after an event; [None] when the page offers no such
    event: the submit button is disabled while [loading], the export
    button exists only with a result, and only a waiting fetch can
    settle. *)
Definition react (e : Event) (w : World) : option World :=
  match e with
  | PickFiles fs => Some (run (handleFileChange fs) w)
  | PickTicker t => Some (run (handleTickerChange t) w)
  | Submit =>
      if loading (st w) then None
      else Some (run (handleSubmit (files (st w)) (ticker (st w))) w)
  | Settle i o =>
      match nth_error (waiting w) i with
      | Some k =>
          Some (run (k o)
                  {| st := st w; waiting := remove_nth i (waiting w);
                     history := history w |})
      | None => None
      end
  | Export =>
      if truthy (result (st w)) then
        Some {| st := st w; waiting := waiting w;
                history := history w ++
                  match handleExportJson (result (st w)) with
                  | Some d => [DidDownload d]
                  | None => []
                  end |}
      else None
  end.

Fixpoint play (es : list Event) (w : World) : option World :=
  match es with
  | [] => Some w
  | e :: r => match react e w with Some w' => play r w' | None => None end
  end.

(** What holds of the page after any events: while a submission is in
flight its handler alone is waiting and neither a result nor an error is
held; otherwise nothing is waiting, and an error held next to a result
can only be the validation message. *)
Definition settled_or_waiting (w : World) : Prop :=
  if loading (st w) then
    waiting w = [after_fetch] /\ error (st w) = None /\ result (st w) = JNull
  else
    waiting w = [] /\
    (result (st w) <> JNull ->
     error (st w) = None \/ error (st w) = Some no_files_message).

(** The result held is [null] or a value that [JSON.parse] returned. *)
Definition held_parsed (w : World) : Prop :=
  result (st w) = JNull \/
  exists text, JSON_parse text = Some (result (st w)).

End Reactions.

(** All the nodes of a tree, the root first. *)
Fixpoint nodes (n : Node) : list Node :=
  n :: match n with
       | Text _ => []
       | El _ _ cs => flat_map nodes cs
       end.

(** The number of times the [finally] block (line 66) has run. *)
Fixpoint settlements (h : list Action) : nat :=
  match h with
  | [] => O
  | DidSetLoading false :: r => S (settlements r)
  | _ :: r => settlements r
  end.

End Page.

(* ================================================================== *)
(** * A platform to compute with *)
(* ================================================================== *)

(** Error messages after Chromium's.  The three functions on numerals
    are only ever applied to numerals that are not safe integers; none
    occurs in the texts this platform is run on below, but for a
    fraction printed as it is written.  A string is converted as the
    JSON numeral it is, if it is one; no string is converted in what
    this platform is run on below. *)
Definition example_platform : Platform := {|
  error_message e :=
    match e with
    | JsonSyntax text =>
        if String.eqb text "" then "Unexpected end of JSON input"
        else "Unexpected token in JSON at position 0"
    | BodyUsed m =>
        "Failed to execute '" ++ m ++ "' on 'Response': body stream already read"
    | NotPrimitive => "Cannot convert object to primitive value"
    | NullProperty n =>
        "Cannot read properties of null (reading '" ++ n ++ "')"
    end%string;
  number_to_string l := l;
  number_is_zero _ := false;
  number_is_finite _ := true;
  string_is_positive s :=
    match JS.JSON_parse s with
    | Some (JS.JNum (JS.NInt z)) => 0 <? z
    | Some (JS.JNum (JS.NOther (String c _))) => negb (Ascii.eqb c "-")
    | _ => false
    end
|}.

(* ================================================================== *)
(** * Sample data *)
(* ================================================================== *)

Module Sample.
Import JS Web Page.

(** a string between double quotes *)
Definition dq (s : string) : string :=
  (String ch_quote s ++ String ch_quote "")%string.

Definition report : File :=
  {| file_name := "annual-2023.pdf"; file_bytes := "%PDF-1.7" |}.

(** the page once a file has been picked *)
Definition file_picked : World :=
  run (@handleFileChange (Some [report])) boot.

(** the page once that selection has been submitted *)
Definition submitted : World :=
  run (@handleSubmit example_platform (Some [report]) VOLV_B) file_picked.

Definition analysis : AnalysisResult.t :=
  {| AnalysisResult.ticker := "VOLV-B";
     AnalysisResult.trustScore := NInt 82;
     AnalysisResult.trustJustification := "Clear segment reporting.";
     AnalysisResult.trustRecommendations :=
       ["Publish audit fees."; "Disclose supplier list."];
     AnalysisResult.growthScore := NInt 64;
     AnalysisResult.growthJustification := "Electric trucks.";
     AnalysisResult.growthRecommendations := [];
     AnalysisResult.summary := "Solid.";
     AnalysisResult.runId := "run-42" |}.

(** the body a well-behaved service answers with *)
Definition analysis_body : string :=
  @JSON_stringify example_platform (encode analysis) 0.

(** the page once the service has answered that submission *)
Definition answered : World :=
  run (@after_fetch example_platform
         (Resolved {| status := 200; body := Some analysis_body |}))
      {| st := st submitted; waiting := []; history := history submitted |}.

(** the page once the selection has then been emptied and the form
    submitted again *)
Definition revalidated : World :=
  run (@handleSubmit example_platform (Some []) VOLV_B)
      (run (@handleFileChange (Some [])) answered).

(** [{"error":"boom"}] *)
Definition boom_body : string :=
  ("{" ++ dq "error" ++ ":" ++ dq "boom" ++ "}")%string.

Definition http (code : Z) (text : string) : FetchOutcome :=
  Resolved {| status := code; body := Some text |}.

Definition connection_refused : FetchOutcome :=
  Rejected {| error_name := "TypeError"; message := "Failed to fetch" |}.

(** the page as the handler of that submission resumes *)
Definition resumed : World :=
  {| st := st submitted; waiting := []; history := history submitted |}.

(** the page once the service has answered that submission with a 500
    and [{"error":"boom"}] *)
Definition failed : World :=
  run (@after_fetch example_platform (http 500 boom_body)) resumed.

(** the page once the service has answered that submission with a 200
    and [{"error":"boom"}] *)
Definition mistyped : World :=
  run (@after_fetch example_platform (http 200 boom_body)) resumed.

(** [{"message":"bad ticker"}] *)
Definition detail_body : string :=
  ("{" ++ dq "message" ++ ":" ++ dq "bad ticker" ++ "}")%string.

(** [{"ratio":0.5}] *)
Definition ratio_body : string :=
  ("{" ++ dq "ratio" ++ ":0.5}")%string.

(** [{"error":{"code":1}}] *)
Definition coded_body : string :=
  ("{" ++ dq "error" ++ ":{" ++ dq "code" ++ ":1}}")%string.

(** six reports *)
Definition six_reports : list File :=
  map (fun name => {| file_name := name; file_bytes := "%PDF-1.7" |})
      ["2018.pdf"; "2019.pdf"; "2020.pdf"; "2021.pdf"; "2022.pdf"; "2023.pdf"].

End Sample.

(* ================================================================== *)
(** * Facts about JSON text *)
(* ================================================================== *)

Module JSFacts.
Import JS.
Unset Implicit Arguments.

(** ** Running the reader over a concatenation *)

Lemma run_app (a b : chars) (s : St) :
  run (a ++ b) s =
  match run a s with Some s' => run b s' | None => None end.
Proof.
  revert s; induction a as [|c a IH]; intros s; simpl.
  - reflexivity.
  - destruct (step c s) as [s'|]; [apply IH | reflexivity].
Qed.

Lemma parse_from_app (a b : chars) (s s' : St) :
  run a s = Some s' -> parse_from (a ++ b) s = parse_from b s'.
Proof.
  intros H. unfold parse_from. now rewrite run_app, H.
Qed.

Lemma parse_from_cons (c : ascii) (b : chars) (s s' : St) :
  step c s = Some s' -> parse_from (c :: b) s = parse_from b s'.
Proof.
  intros H. unfold parse_from. simpl. now rewrite H.
Qed.

(** ** White space between tokens *)

Lemma run_spaces (n : nat) (p : PState) :
  run (repeat " "%char n) (LIdle, p) = Some (LIdle, p).
Proof.
  induction n as [|n IH]; simpl; [reflexivity | exact IH].
Qed.

Lemma run_newline (gap ind : nat) (p : PState) :
  run (newline gap ind) (LIdle, p) = Some (LIdle, p).
Proof.
  unfold newline. destruct (Nat.eqb gap 0); simpl.
  - reflexivity.
  - apply run_spaces.
Qed.

(** ** Digits *)

Lemma digit_cases (d : N) :
  (d < 10)%N ->
  d = 0%N \/ d = 1%N \/ d = 2%N \/ d = 3%N \/ d = 4%N \/ d = 5%N \/
  d = 6%N \/ d = 7%N \/ d = 8%N \/ d = 9%N.
Proof. lia. Qed.

Ltac each_digit d H :=
  destruct (digit_cases d H) as [?|[?|[?|[?|[?|[?|[?|[?|[?|?]]]]]]]]]; subst d.

Lemma digit_char_is_digit (d : N) :
  (d < 10)%N -> is_digit (digit_char d) = true.
Proof. intros H. each_digit d H; reflexivity. Qed.

Lemma digit_char_val (d : N) :
  (d < 10)%N -> digit_val (digit_char d) = d.
Proof. intros H. each_digit d H; reflexivity. Qed.

Lemma digit_char_zero (d : N) :
  (d < 10)%N -> Ascii.eqb (digit_char d) "0" = (d =? 0)%N.
Proof. intros H. each_digit d H; reflexivity. Qed.

Lemma is_digit_numeral_char (c : ascii) :
  is_digit c = true -> is_numeral_char c = true.
Proof. intros H. unfold is_numeral_char. now rewrite H. Qed.

Lemma is_digit_not_minus (c : ascii) :
  is_digit c = true -> Ascii.eqb c "-" = false.
Proof.
  intros H. destruct (Ascii.eqb_spec c "-") as [->|]; [discriminate H | reflexivity].
Qed.

(** ** Printing a natural number and reading it back *)

Lemma dec_digits_value (f : nat) :
  forall n acc,
    (n < 2 ^ N.of_nat f)%N ->
    value_from 0 (dec_digits f n acc) = value_from n acc.
Proof.
  induction f as [|f IH]; intros n acc Hn.
  - simpl in *. assert (n = 0%N) by lia. now subst.
  - cbn [dec_digits].
    assert (Hd : (n mod 10 < 10)%N) by (apply N.mod_lt; lia).
    assert (Hdiv : n = (10 * (n / 10) + n mod 10)%N)
      by (apply N.div_mod; lia).
    destruct (N.eqb_spec (n / 10) 0) as [E|E].
    + unfold value_from. cbn [fold_left]. rewrite digit_char_val by exact Hd.
      f_equal. lia.
    + rewrite IH.
      * unfold value_from. cbn [fold_left]. rewrite digit_char_val by exact Hd.
        f_equal. lia.
      * rewrite Nat2N.inj_succ, N.pow_succ_r' in Hn.
        apply N.Div0.div_lt_upper_bound. lia.
Qed.

Lemma dec_digits_all (f : nat) :
  forall n acc,
    forallb is_digit (dec_digits f n acc) = forallb is_digit acc.
Proof.
  induction f as [|f IH]; intros n acc; cbn [dec_digits].
  - reflexivity.
  - assert (Hd : (n mod 10 < 10)%N) by (apply N.mod_lt; lia).
    destruct (n / 10 =? 0)%N.
    + simpl. now rewrite digit_char_is_digit.
    + rewrite IH. simpl. now rewrite digit_char_is_digit.
Qed.

(** The first digit printed is [0] only for the number zero. *)
Lemma dec_digits_head (f : nat) :
  forall n acc,
    (n < 2 ^ N.of_nat (S f))%N ->
    exists c r,
      dec_digits (S f) n acc = c :: r /\
      Ascii.eqb c "0" = (n =? 0)%N /\
      (n = 0%N -> r = acc).
Proof.
  induction f as [|f IH]; intros n acc Hn.
  - change (2 ^ N.of_nat 1)%N with 2%N in Hn.
    exists (digit_char (n mod 10)), acc.
    assert (n = 0 \/ n = 1)%N as [->| ->] by lia; cbn; auto.
  - cbn [dec_digits].
    assert (Hd : (n mod 10 < 10)%N) by (apply N.mod_lt; lia).
    assert (Hdiv : n = (10 * (n / 10) + n mod 10)%N)
      by (apply N.div_mod; lia).
    destruct (N.eqb_spec (n / 10) 0) as [E|E].
    + exists (digit_char (n mod 10)), acc.
      split; [reflexivity|]. split; [|reflexivity].
      rewrite digit_char_zero by exact Hd. f_equal. lia.
    + destruct (IH (n / 10)%N (digit_char (n mod 10) :: acc))
        as (c & r & E1 & E2 & _).
      * rewrite Nat2N.inj_succ, N.pow_succ_r' in Hn.
        apply N.Div0.div_lt_upper_bound. lia.
      * exists c, r. cbn [dec_digits] in E1. rewrite E1.
        split; [reflexivity|]. split.
        -- rewrite E2. destruct (N.eqb_spec (n / 10) 0); [contradiction|].
           symmetry. apply N.eqb_neq. intros Hz. apply E. now rewrite Hz.
        -- intros ->. now contradiction E.
Qed.

Lemma fuel_enough (n : N) : (n < 2 ^ N.of_nat (S (N.to_nat (N.log2 n))))%N.
Proof.
  rewrite Nat2N.inj_succ, N2Nat.id.
  destruct (N.eq_dec n 0) as [->|Hn]; [reflexivity|].
  apply N.log2_spec. lia.
Qed.

Lemma N_to_chars_value (n : N) : digits_value (N_to_chars n) = n.
Proof.
  unfold N_to_chars. change digits_value with (value_from 0).
  rewrite dec_digits_value by apply fuel_enough. reflexivity.
Qed.

Lemma N_to_chars_digits (n : N) : forallb is_digit (N_to_chars n) = true.
Proof. unfold N_to_chars. now rewrite dec_digits_all. Qed.

Lemma N_to_chars_head (n : N) :
  exists c r,
    N_to_chars n = c :: r /\ Ascii.eqb c "0" = (n =? 0)%N /\ (n = 0%N -> r = []).
Proof. unfold N_to_chars. apply dec_digits_head, fuel_enough. Qed.

(** ** Numerals *)

Lemma drop_digits_all (r : chars) :
  forallb is_digit r = true -> drop_digits r = [].
Proof.
  induction r as [|c r IH]; simpl; [reflexivity|].
  intros H. apply andb_true_iff in H as [Hc Hr]. rewrite Hc. now apply IH.
Qed.

Lemma valid_unsigned_N (n : N) : valid_unsigned (N_to_chars n) = true.
Proof.
  destruct (N_to_chars_head n) as (c & r & E & Hc & Hr).
  pose proof (N_to_chars_digits n) as Hd. rewrite E in *.
  simpl in Hd. apply andb_true_iff in Hd as [Hd1 Hd2].
  unfold valid_unsigned. rewrite Hc.
  destruct (N.eqb_spec n 0) as [Hn|Hn].
  - rewrite (Hr Hn). reflexivity.
  - rewrite Hd1, (drop_digits_all _ Hd2). reflexivity.
Qed.

Lemma Number_of_Z_to_chars (z : Z) :
  safe_integer z = true ->
  Number_of_numeral (Z_to_chars z) = Some (NInt z).
Proof.
  intros Hs. unfold Number_of_numeral, Z_to_chars.
  destruct (Z.ltb_spec z 0) as [Hz|Hz].
  - cbn [valid_numeral]. change (Ascii.eqb "-" "-") with true. cbv iota.
    rewrite valid_unsigned_N, N_to_chars_digits, N_to_chars_value.
    replace (- Z.of_N (Z.to_N (- z))) with z by lia.
    rewrite Hs. destruct (Z.ltb_spec z 0); [reflexivity | lia].
  - destruct (N_to_chars_head (Z.to_N z)) as (c & r & E & _ & _).
    pose proof (N_to_chars_digits (Z.to_N z)) as Hd.
    pose proof (N_to_chars_value (Z.to_N z)) as Hv.
    pose proof (valid_unsigned_N (Z.to_N z)) as Hu.
    rewrite E in *.
    assert (Hm : Ascii.eqb c "-" = false).
    { apply is_digit_not_minus. simpl in Hd.
      now apply andb_true_iff in Hd as [Hd _]. }
    cbn [valid_numeral]. rewrite Hm, Hu, Hd, Hv.
    replace (Z.of_N (Z.to_N z)) with z by lia.
    now rewrite Hs.
Qed.

Lemma run_numeral_chars (cs : chars) :
  forall acc p,
    forallb is_numeral_char cs = true ->
    run cs (LNum acc, p) = Some (LNum (rev cs ++ acc), p).
Proof.
  induction cs as [|c cs IH]; intros acc p H; simpl in *.
  - reflexivity.
  - apply andb_true_iff in H as [Hc Hr]. rewrite Hc.
    rewrite IH by exact Hr. now rewrite <- app_assoc.
Qed.

Lemma step_idle_digit (c : ascii) (p : PState) :
  is_digit c = true -> step_idle c p = Some (LNum [c], p).
Proof.
  destruct c as [[] [] [] [] [] [] [] []]; intros H;
    try discriminate H; reflexivity.
Qed.

Lemma digits_numeral_chars (cs : chars) :
  forallb is_digit cs = true -> forallb is_numeral_char cs = true.
Proof.
  induction cs as [|c cs IH]; simpl; [reflexivity|].
  intros H. apply andb_true_iff in H as [Hc Hr].
  now rewrite (is_digit_numeral_char _ Hc), IH.
Qed.

(** From between two tokens, the characters of a safe integer followed
    by [rest] are read as that number, then [rest]. *)
Lemma read_number (z : Z) (p : PState) (rest : chars) :
  safe_integer z = true ->
  sep_ok rest ->
  parse_from (Z_to_chars z ++ rest) (LIdle, p) =
  match token_step (TPrim (JNum (NInt z))) p with
  | Some p' => parse_from rest (LIdle, p')
  | None => None
  end.
Proof.
  intros Hs Hrest.
  pose proof (Number_of_Z_to_chars z Hs) as Hnum.
  assert (Hshape : exists c cs,
             Z_to_chars z = c :: cs /\
             step_idle c p = Some (LNum [c], p) /\
             forallb is_numeral_char cs = true).
  { unfold Z_to_chars. destruct (z <? 0).
    - exists "-"%char, (N_to_chars (Z.to_N (- z))).
      split; [reflexivity|]. split; [reflexivity|].
      apply digits_numeral_chars, N_to_chars_digits.
    - destruct (N_to_chars_head (Z.to_N z)) as (c & r & E & _ & _).
      pose proof (N_to_chars_digits (Z.to_N z)) as Hd. rewrite E in Hd.
      simpl in Hd. apply andb_true_iff in Hd as [Hd1 Hd2].
      exists c, r. split; [exact E|]. split.
      + now apply step_idle_digit.
      + now apply digits_numeral_chars. }
  destruct Hshape as (c & cs & E & Hc & Hcs).
  rewrite E in *. cbn [app].
  rewrite (parse_from_cons c _ (LIdle, p) _ Hc).
  rewrite (parse_from_app _ _ _ _ (run_numeral_chars cs [c] p Hcs)).
  assert (Hfin : finish_number (rev cs ++ [c]) p =
                 token_step (TPrim (JNum (NInt z))) p).
  { unfold finish_number.
    rewrite rev_app_distr, rev_involutive. cbn [rev app]. now rewrite Hnum. }
  destruct rest as [|d rest].
  - unfold parse_from. cbn [run finish]. rewrite Hfin.
    destruct (token_step _ p) as [[]|]; reflexivity.
  - simpl in Hrest. unfold parse_from at 1. cbn [run step].
    rewrite Hrest, Hfin.
    destruct (token_step _ p) as [p'|]; [|reflexivity].
    unfold parse_from. cbn [run step]. reflexivity.
Qed.

(** ** Strings *)

Lemma read_quoted_char (c : ascii) :
  forall acc p,
    exists i,
      run (quote_char c) (LStr acc, p) = Some (LStr (i :: acc), p) /\
      forall r, items_bytes (i :: r) = c :: items_bytes r.
Proof.
  destruct c as [[] [] [] [] [] [] [] []]; intros acc p;
    eexists; (split; [reflexivity | intros r; reflexivity]).
Qed.

Lemma read_quoted_chars (cs : chars) :
  forall acc p,
    exists its,
      run (flat_map quote_char cs) (LStr acc, p) = Some (LStr (its ++ acc), p) /\
      forall r, items_bytes (rev its ++ r) = cs ++ items_bytes r.
Proof.
  induction cs as [|c cs IH]; intros acc p.
  - exists []. split; reflexivity.
  - destruct (read_quoted_char c acc p) as (i & Hi & Hb).
    destruct (IH (i :: acc) p) as (its & Hits & Hbs).
    exists (its ++ [i]). split.
    + cbn [flat_map]. rewrite run_app, Hi, Hits. now rewrite <- app_assoc.
    + intros r. rewrite rev_app_distr. cbn [rev app].
      rewrite Hb, Hbs. reflexivity.
Qed.

(** From between two tokens, a quoted string followed by [rest] is read
    as that string, then [rest]. *)
Lemma read_string (s : string) (p : PState) (rest : chars) :
  parse_from (quote s ++ rest) (LIdle, p) =
  match token_step (TString s) p with
  | Some p' => parse_from rest (LIdle, p')
  | None => None
  end.
Proof.
  unfold quote.
  destruct (read_quoted_chars (list_ascii_of_string s) [] p)
    as (its & Hrun & Hbytes).
  rewrite app_nil_r in Hrun.
  cbn [app]. rewrite (parse_from_cons _ _ _ (LStr [], p)) by reflexivity.
  rewrite <- app_assoc. rewrite (parse_from_app _ _ _ _ Hrun).
  cbn [app]. unfold parse_from at 1. cbn [run step].
  change (Ascii.eqb ch_quote ch_quote) with true. cbv iota.
  assert (Hs : string_of_items its = s).
  { unfold string_of_items. specialize (Hbytes []).
    change (items_bytes []) with (@nil ascii) in Hbytes.
    rewrite !app_nil_r in Hbytes.
    rewrite Hbytes. apply string_of_list_ascii_of_string. }
  rewrite Hs. unfold emit.
  destruct (token_step (TString s) p); reflexivity.
Qed.

(** ** Values *)

Lemma well_formed_arr (l : list Value) :
  well_formed (JArr l) <-> Forall well_formed l.
Proof.
  induction l as [|x l IH].
  - split; [constructor | exact (fun _ => I)].
  - split.
    + intros [Hx Hl]. constructor; [exact Hx | now apply IH].
    + intros H. inversion H; subst. split; [assumption | now apply IH].
Qed.

Lemma well_formed_props (o : list (string * Value)) :
  (fix all (o : list (string * Value)) : Prop :=
     match o with
     | [] => True
     | kv :: r => well_formed (snd kv) /\ all r
     end) o <-> Forall (fun kv => well_formed (snd kv)) o.
Proof.
  induction o as [|kv o IH].
  - split; [constructor | exact (fun _ => I)].
  - split.
    + intros [Hx Hl]. constructor; [exact Hx | now apply IH].
    + intros H. inversion H; subst. split; [assumption | now apply IH].
Qed.

Lemma well_formed_obj (o : list (string * Value)) :
  well_formed (JObj o) <->
  obj_of_entries o = o /\ Forall (fun kv => well_formed (snd kv)) o.
Proof.
  cbn [well_formed]. now rewrite well_formed_props.
Qed.

Lemma join_cons (sep x : chars) (xs : list chars) :
  join sep (x :: xs) = x ++ flat_map (fun y => sep ++ y) xs.
Proof.
  revert x; induction xs as [|y xs IH]; intros x.
  - simpl. now rewrite app_nil_r.
  - change (join sep (x :: y :: xs)) with (x ++ sep ++ join sep (y :: xs)).
    rewrite IH. cbn [flat_map]. now rewrite <- app_assoc.
Qed.

Section RoundTrip.
Context {PF : Platform}.

Lemma reads_value v gap ind st rest :
  reads v ->
  sep_ok rest ->
  parse_from (stringify_at gap ind v ++ rest) (LIdle, SValue st) =
  parse_from rest (LIdle, deliver v st).
Proof. intros Hv Hrest. exact (Hv gap ind false st rest Hrest). Qed.

Lemma reads_first v gap ind st rest :
  reads v ->
  sep_ok rest ->
  parse_from (stringify_at gap ind v ++ rest) (LIdle, SArrStart st) =
  parse_from rest (LIdle, SNextElem [v] st).
Proof. intros Hv Hrest. exact (Hv gap ind true st rest Hrest). Qed.

Lemma stringify_arr gap ind x xs :
  stringify_at gap ind (JArr (x :: xs)) =
  "["%char :: newline gap (ind + gap)
  ++ join (","%char :: newline gap (ind + gap))
          (map (stringify_at gap (ind + gap)) (x :: xs))
  ++ newline gap ind ++ ["]"%char].
Proof. reflexivity. Qed.

Lemma stringify_obj gap ind kv o :
  stringify_at gap ind (JObj (kv :: o)) =
  "{"%char :: newline gap (ind + gap)
  ++ join (","%char :: newline gap (ind + gap))
          (map (member_chars gap (ind + gap)) (kv :: o))
  ++ newline gap ind ++ ["}"%char].
Proof. reflexivity. Qed.

Lemma sep_ok_newline gap ind c rest :
  is_numeral_char c = false -> sep_ok (newline gap ind ++ c :: rest).
Proof.
  intros Hc. unfold newline. destruct (Nat.eqb gap 0); simpl.
  - exact Hc.
  - reflexivity.
Qed.

Lemma sep_ok_more gap i1 i2 c rest (ys : list chars) :
  is_numeral_char c = false ->
  sep_ok (flat_map (fun y => (","%char :: newline gap i1) ++ y) ys
          ++ newline gap i2 ++ c :: rest).
Proof.
  intros Hc. destruct ys as [|y ys].
  - now apply sep_ok_newline.
  - reflexivity.
Qed.

Lemma run_colon gap k o st :
  run (colon gap) (LIdle, SColon k o st) =
  Some (LIdle, SValue (FObj o k :: st)).
Proof. unfold colon. destruct (Nat.eqb gap 0); reflexivity. Qed.

(** The elements after the first, up to the closing bracket. *)
Lemma reads_elements gap i1 i2 st rest (l : list Value) :
  Forall reads l ->
  forall acc,
    parse_from
      (flat_map (fun y => (","%char :: newline gap i1) ++ y)
                (map (stringify_at gap i1) l)
       ++ newline gap i2 ++ "]"%char :: rest)
      (LIdle, SNextElem acc st) =
    parse_from rest (LIdle, deliver (JArr (rev acc ++ l)) st).
Proof.
  induction 1 as [|x l Hx Hl IH]; intros acc.
  - cbn [map flat_map app].
    rewrite (parse_from_app _ _ _ _ (run_newline gap i2 _)).
    rewrite app_nil_r. reflexivity.
  - cbn [map flat_map]. rewrite <- !app_assoc. cbn [app].
    rewrite (parse_from_cons _ _ _ (LIdle, SValue (FArr acc :: st)))
      by reflexivity.
    rewrite (parse_from_app _ _ _ _ (run_newline gap i1 _)).
    rewrite reads_value; [ | exact Hx | apply sep_ok_more; reflexivity ].
    cbn [deliver]. rewrite IH.
    cbn [rev]. now rewrite <- app_assoc.
Qed.

(** A member, from the colon on. *)
Lemma reads_member_value gap ind k v acc st rest :
  reads v ->
  sep_ok rest ->
  parse_from (colon gap ++ stringify_at gap ind v ++ rest)
             (LIdle, SColon k acc st) =
  parse_from rest (LIdle, SNextMember (obj_set k v acc) st).
Proof.
  intros Hv Hrest.
  rewrite (parse_from_app _ _ _ _ (run_colon gap k acc st)).
  now rewrite reads_value.
Qed.

(** The members after the first, up to the closing brace. *)
Lemma reads_members gap i1 i2 st rest (l : list (string * Value)) :
  Forall (fun kv => reads (snd kv)) l ->
  forall acc,
    parse_from
      (flat_map (fun y => (","%char :: newline gap i1) ++ y)
                (map (member_chars gap i1) l)
       ++ newline gap i2 ++ "}"%char :: rest)
      (LIdle, SNextMember acc st) =
    parse_from rest
      (LIdle,
       deliver (JObj (fold_left (fun a kv => obj_set (fst kv) (snd kv) a)
                                l acc)) st).
Proof.
  induction 1 as [|[k v] l Hx Hl IH]; intros acc.
  - cbn [map flat_map app fold_left].
    rewrite (parse_from_app _ _ _ _ (run_newline gap i2 _)).
    reflexivity.
  - cbn [map flat_map fold_left fst snd]. unfold member_chars at 1.
    cbn [fst snd]. rewrite <- !app_assoc. cbn [app].
    rewrite (parse_from_cons _ _ _ (LIdle, SKey acc st)) by reflexivity.
    rewrite (parse_from_app _ _ _ _ (run_newline gap i1 _)).
    rewrite read_string. cbn [token_step].
    rewrite reads_member_value;
      [ | exact Hx | apply sep_ok_more; reflexivity ].
    apply IH.
Qed.

Lemma awaiting_bracket first st :
  token_step TLBrack (awaiting first st) = Some (SArrStart (around first st)).
Proof. destruct first; reflexivity. Qed.

Lemma awaiting_brace first st :
  token_step TLBrace (awaiting first st) = Some (SObjStart (around first st)).
Proof. destruct first; reflexivity. Qed.

Lemma awaiting_prim v first st :
  token_step (TPrim v) (awaiting first st) =
  Some (deliver v (around first st)).
Proof. destruct first; reflexivity. Qed.

Lemma awaiting_string s first st :
  token_step (TString s) (awaiting first st) =
  Some (deliver (JStr s) (around first st)).
Proof. destruct first; reflexivity. Qed.

(** Every well-formed value is read back from its text. *)
Theorem well_formed_reads (v : Value) : well_formed v -> reads v.
Proof.
  induction v as [| b | n | s | l IH | o IH] using Value_nested_ind;
    intros Hwf gap ind first st rest Hrest.
  - (* null *)
    cbn [stringify_at]. unfold parse_from. cbn [list_ascii_of_string app run step].
    unfold step_idle. cbn. unfold emit. rewrite awaiting_prim. reflexivity.
  - (* true, false *)
    destruct b; cbn [stringify_at]; unfold parse_from;
      cbn [list_ascii_of_string app run step];
      unfold step_idle; cbn; unfold emit; rewrite awaiting_prim; reflexivity.
  - (* numbers *)
    destruct n as [z|l]; [|contradiction].
    cbn [stringify_at number_chars].
    rewrite read_number by assumption. now rewrite awaiting_prim.
  - (* strings *)
    cbn [stringify_at]. rewrite read_string. now rewrite awaiting_string.
  - (* arrays *)
    apply well_formed_arr in Hwf.
    assert (Hreads : Forall reads l).
    { clear - IH Hwf. induction IH; inversion Hwf; subst; constructor; auto. }
    destruct l as [|x xs].
    + cbn [stringify_at list_ascii_of_string app].
      unfold parse_from. cbn [run step]. unfold step_idle. cbn.
      unfold emit. rewrite awaiting_bracket. cbn. reflexivity.
    + rewrite stringify_arr. inversion Hreads as [|? ? Hx Hxs]; subst.
      cbn [map]. rewrite join_cons. cbn [app]. rewrite <- !app_assoc.
      cbn [app].
      rewrite (parse_from_cons _ _ _ (LIdle, SArrStart (around first st)))
        by (cbn [step]; unfold step_idle; cbn; unfold emit;
            now rewrite awaiting_bracket).
      rewrite (parse_from_app _ _ _ _ (run_newline gap _ _)).
      rewrite reads_first; [ | exact Hx | apply sep_ok_more; reflexivity ].
      exact (reads_elements gap _ _ _ rest xs Hxs [x]).
  - (* objects *)
    apply well_formed_obj in Hwf as [Hcanon Hwf].
    assert (Hreads : Forall (fun kv => reads (snd kv)) o).
    { clear - IH Hwf. induction IH; inversion Hwf; subst; constructor; auto. }
    destruct o as [|[k v] o'].
    + cbn [stringify_at list_ascii_of_string app].
      unfold parse_from. cbn [run step]. unfold step_idle. cbn.
      unfold emit. rewrite awaiting_brace. cbn. reflexivity.
    + rewrite stringify_obj. inversion Hreads as [|? ? Hx Hxs]; subst.
      cbn [map]. rewrite join_cons. unfold member_chars at 1.
      cbn [fst snd] in *. cbn [app]. rewrite <- !app_assoc. cbn [app].
      rewrite (parse_from_cons _ _ _ (LIdle, SObjStart (around first st)))
        by (cbn [step]; unfold step_idle; cbn; unfold emit;
            now rewrite awaiting_brace).
      rewrite (parse_from_app _ _ _ _ (run_newline gap _ _)).
      rewrite read_string. cbn [token_step].
      rewrite reads_member_value;
        [ | exact Hx | apply sep_ok_more; reflexivity ].
      etransitivity; [exact (reads_members gap _ _ _ rest o' Hxs _)|].
      unfold obj_of_entries in Hcanon. cbn [fold_left fst snd] in Hcanon.
      now rewrite Hcanon.
Qed.

(** [JSON.parse(JSON.stringify(v, null, gap))] is [v]. *)
Theorem parse_stringify (v : Value) (gap : nat) :
  well_formed v -> JSON_parse (JSON_stringify v gap) = Some v.
Proof.
  intros Hwf. unfold JSON_parse, JSON_stringify.
  rewrite list_ascii_of_string_of_list_ascii.
  rewrite <- (app_nil_r (stringify_at gap 0 v)).
  exact (well_formed_reads v Hwf gap 0%nat false [] [] I).
Qed.

End RoundTrip.

(** ** Array indices name their keys *)

Lemma digit_char_of_val (c : ascii) :
  is_digit c = true -> digit_char (digit_val c) = c.
Proof.
  destruct c as [[] [] [] [] [] [] [] []]; intros H;
    try discriminate H; reflexivity.
Qed.

Lemma digit_val_small (c : ascii) :
  is_digit c = true -> (digit_val c < 10)%N.
Proof.
  destruct c as [[] [] [] [] [] [] [] []]; intros H;
    try discriminate H; reflexivity.
Qed.

Lemma digit_val_nonzero (c : ascii) :
  is_digit c = true -> Ascii.eqb c "0" = false -> (0 < digit_val c)%N.
Proof.
  destruct c as [[] [] [] [] [] [] [] []]; intros H H0;
    try discriminate H; try discriminate H0; reflexivity.
Qed.

Lemma value_from_ge (cs : chars) : forall a, (a <= value_from a cs)%N.
Proof.
  induction cs as [|c cs IH]; intros a; unfold value_from; cbn [fold_left].
  - lia.
  - specialize (IH (10 * a + digit_val c)%N). unfold value_from in IH. lia.
Qed.

Lemma digits_value_positive (cs : chars) :
  forallb is_digit cs = true ->
  cs <> [] ->
  no_leading_zero cs ->
  (0 < digits_value cs)%N.
Proof.
  destruct cs as [|c r]; [congruence|]. intros Hd _ Hz.
  cbn [forallb] in Hd. apply andb_true_iff in Hd as [Hc _].
  cbn [no_leading_zero] in Hz.
  pose proof (digit_val_nonzero c Hc Hz).
  pose proof (value_from_ge r (10 * 0 + digit_val c)%N) as Hge.
  unfold digits_value. cbn [fold_left]. unfold value_from in Hge. lia.
Qed.

Lemma digits_value_snoc (ds : chars) (d : ascii) :
  digits_value (ds ++ [d]) = (10 * digits_value ds + digit_val d)%N.
Proof. unfold digits_value. now rewrite fold_left_app. Qed.

Lemma no_leading_zero_prefix (ds : chars) (d : ascii) :
  no_leading_zero (ds ++ [d]) -> ds <> [] -> no_leading_zero ds.
Proof. destruct ds; [congruence | trivial]. Qed.

Lemma digits_value_inj (cs : chars) :
  forall cs',
    forallb is_digit cs = true -> forallb is_digit cs' = true ->
    no_leading_zero cs -> no_leading_zero cs' ->
    digits_value cs = digits_value cs' ->
    cs = cs'.
Proof.
  induction cs as [|d ds IH] using rev_ind; intros cs' Hd Hd' Hz Hz' Hv.
  - destruct cs' as [|c' r']; [reflexivity|].
    pose proof (digits_value_positive (c' :: r') Hd' ltac:(discriminate) Hz').
    rewrite <- Hv in H. cbn in H. lia.
  - destruct cs' as [|d' ds' _] using rev_ind.
    + assert (Hne : ds ++ [d] <> []) by (destruct ds; discriminate).
      pose proof (digits_value_positive (ds ++ [d]) Hd Hne Hz).
      rewrite Hv in H. cbn in H. lia.
    + rewrite forallb_app in Hd, Hd'.
      apply andb_true_iff in Hd as [Hds Hdd].
      apply andb_true_iff in Hd' as [Hds' Hdd'].
      cbn [forallb] in Hdd, Hdd'. rewrite andb_true_r in Hdd, Hdd'.
      rewrite !digits_value_snoc in Hv.
      pose proof (digit_val_small d Hdd). pose proof (digit_val_small d' Hdd').
      assert (Hvs : digits_value ds = digits_value ds') by lia.
      assert (Hvd : digit_val d = digit_val d') by lia.
      assert (Hpre : forall xs x, no_leading_zero (xs ++ [x]) -> no_leading_zero xs).
      { intros xs x Hx. destruct xs; [exact I | exact Hx]. }
      rewrite (IH ds' Hds Hds' (Hpre _ _ Hz) (Hpre _ _ Hz') Hvs).
      f_equal. f_equal.
      rewrite <- (digit_char_of_val d Hdd), <- (digit_char_of_val d' Hdd').
      now rewrite Hvd.
Qed.

Lemma list_ascii_of_string_inj (a b : string) :
  list_ascii_of_string a = list_ascii_of_string b -> a = b.
Proof.
  intros H. rewrite <- (string_of_list_ascii_of_string a),
              <- (string_of_list_ascii_of_string b).
  now rewrite H.
Qed.

Lemma array_index_chars (k : string) (i : N) :
  array_index k = Some i ->
  exists c r,
    list_ascii_of_string k = c :: r /\
    forallb is_digit (c :: r) = true /\
    (Ascii.eqb c "0" = false \/ r = []) /\
    i = digits_value (c :: r).
Proof.
  unfold array_index. destruct (list_ascii_of_string k) as [|c r]; [discriminate|].
  destruct (forallb is_digit (c :: r)) eqn:Hd; [|discriminate].
  cbn [andb].
  destruct (negb (Ascii.eqb c "0") || is_nil r) eqn:Hz; [|discriminate].
  destruct (digits_value (c :: r) <? 4294967295)%N; [|discriminate].
  intros H. injection H as <-. exists c, r.
  split; [reflexivity|]. split; [exact Hd|]. split; [|reflexivity].
  apply orb_true_iff in Hz as [Hz|Hz].
  - left. now apply negb_true_iff in Hz.
  - right. destruct r; [reflexivity | discriminate].
Qed.

(** Two keys with the same array index are the same key. *)
Lemma array_index_inj (k k' : string) (i : N) :
  array_index k = Some i -> array_index k' = Some i -> k = k'.
Proof.
  intros H H'.
  destruct (array_index_chars k i H) as (c & r & E & Hd & Hz & Hi).
  destruct (array_index_chars k' i H') as (c' & r' & E' & Hd' & Hz' & Hi').
  apply list_ascii_of_string_inj. rewrite E, E'.
  assert (Hpos : forall c r,
             forallb is_digit (c :: r) = true ->
             Ascii.eqb c "0" = false -> (0 < digits_value (c :: r))%N).
  { intros x xs Hx Hx0. apply digits_value_positive;
      [exact Hx | discriminate | exact Hx0]. }
  assert (Hzero : forall c, forallb is_digit [c] = true ->
                            digits_value [c] = 0%N -> c = "0"%char).
  { intros x Hx Hv. cbn [forallb] in Hx. rewrite andb_true_r in Hx.
    rewrite <- (digit_char_of_val x Hx).
    unfold digits_value in Hv. cbn [fold_left] in Hv.
    replace (digit_val x) with 0%N by lia. reflexivity. }
  destruct Hz as [Hz| ->], Hz' as [Hz'| ->].
  - apply digits_value_inj; try assumption. congruence.
  - pose proof (Hpos c r Hd Hz).
    destruct (Ascii.eqb c' "0") eqn:Hc0.
    + apply Ascii.eqb_eq in Hc0. subst c'. cbn in Hi'. lia.
    + apply digits_value_inj; try assumption. congruence.
  - pose proof (Hpos c' r' Hd' Hz').
    destruct (Ascii.eqb c "0") eqn:Hc0.
    + apply Ascii.eqb_eq in Hc0. subst c. cbn in Hi. lia.
    + apply digits_value_inj; try assumption. congruence.
  - destruct (Ascii.eqb c "0") eqn:Hc0, (Ascii.eqb c' "0") eqn:Hc0'.
    + apply Ascii.eqb_eq in Hc0, Hc0'. now subst.
    + apply Ascii.eqb_eq in Hc0. subst c. cbn in Hi.
      pose proof (Hpos c' [] Hd' Hc0'). lia.
    + apply Ascii.eqb_eq in Hc0'. subst c'. cbn in Hi'.
      pose proof (Hpos c [] Hd Hc0). lia.
    + apply digits_value_inj; try assumption. congruence.
Qed.

(** ** Property order *)

Lemma obj_get_none (k : string) (o : Obj) :
  obj_get k o = None -> ~ In k (map fst o).
Proof.
  induction o as [|[k' v'] r IH]; simpl; [tauto|].
  destruct (String.eqb_spec k' k) as [E|E]; [discriminate|].
  intros H [H'|H']; [contradiction | now apply IH].
Qed.

Lemma not_in_obj_get (k : string) (o : Obj) :
  ~ In k (map fst o) -> obj_get k o = None.
Proof.
  induction o as [|[k' v'] r IH]; simpl; [reflexivity|].
  intros H. destruct (String.eqb_spec k' k) as [E|E]; [tauto|].
  apply IH. tauto.
Qed.

Lemma obj_replace_keys (k : string) (v : Value) (o : Obj) :
  map fst (obj_replace k v o) = map fst o.
Proof.
  induction o as [|[k' v'] r IH]; simpl; [reflexivity|].
  destruct (String.eqb k' k); simpl; [reflexivity | now rewrite IH].
Qed.

Lemma obj_replace_all (P : Value -> Prop) (k : string) (v : Value) (o : Obj) :
  P v -> Forall (fun kv => P (snd kv)) o ->
  Forall (fun kv => P (snd kv)) (obj_replace k v o).
Proof.
  intros Hv. induction 1 as [|[k' v'] r Hx Hr IH]; simpl; [constructor|].
  destruct (String.eqb k' k); constructor; auto.
Qed.

Lemma obj_insert_index_keys (i : N) (k : string) (v : Value) (o : Obj) (x : string) :
  In x (map fst (obj_insert_index i k v o)) <-> x = k \/ In x (map fst o).
Proof.
  induction o as [|[k' v'] r IH]; simpl.
  - intuition.
  - destruct (array_index k') as [j|]; [destruct (j <? i)%N|]; simpl;
      rewrite ?IH; intuition.
Qed.

Lemma obj_insert_index_all (P : Value -> Prop) (i : N) (k : string)
    (v : Value) (o : Obj) :
  P v -> Forall (fun kv => P (snd kv)) o ->
  Forall (fun kv => P (snd kv)) (obj_insert_index i k v o).
Proof.
  intros Hv. induction 1 as [|[k' v'] r Hx Hr IH]; simpl.
  - constructor; [exact Hv | constructor].
  - destruct (array_index k') as [j|]; [destruct (j <? i)%N|];
      repeat constructor; auto.
Qed.

Lemma ordered_insert_index (i : N) (k : string) (v : Value) (o : Obj) :
  array_index k = Some i ->
  ~ In k (map fst o) ->
  ordered_keys (map fst o) ->
  ordered_keys (map fst (obj_insert_index i k v o)).
Proof.
  intros Hk. induction o as [|[k' v'] r IH]; intros Hnot Hord.
  - simpl. split; [intros ? [] | exact I].
  - cbn [map fst ordered_keys] in Hord. destruct Hord as [Hall Hord].
    assert (Hkk' : k' <> k) by (intros ->; apply Hnot; now left).
    assert (Hnot' : ~ In k (map fst r)) by (intros H; apply Hnot; now right).
    cbn [obj_insert_index].
    destruct (array_index k') as [j|] eqn:Hj; [destruct (N.ltb_spec j i)|].
    + cbn [map fst ordered_keys]. split; [|now apply IH].
      intros x Hx. apply obj_insert_index_keys in Hx as [->|Hx].
      * split; [congruence|]. now rewrite Hj, Hk.
      * now apply Hall.
    + cbn [map fst ordered_keys]. split; [|split; assumption].
      intros x [<-|Hx].
      * split; [exact Hkk'|]. rewrite Hk, Hj.
        assert (i <> j) by (intros ->; apply Hkk'; eauto using array_index_inj).
        lia.
      * split; [intros ->; contradiction|].
        destruct (Hall x Hx) as [_ Hrel]. rewrite Hj in Hrel. rewrite Hk.
        destruct (array_index x); [lia | exact I].
    + cbn [map fst ordered_keys]. split; [|split; assumption].
      intros x [<-|Hx].
      * split; [exact Hkk'|]. now rewrite Hk, Hj.
      * split; [intros ->; contradiction|].
        destruct (Hall x Hx) as [_ Hrel]. rewrite Hj in Hrel. rewrite Hk.
        destruct (array_index x); [contradiction | exact I].
Qed.

Lemma ordered_keys_snoc (ks : list string) (k : string) :
  ordered_keys ks ->
  (forall k', In k' ks -> key_before k' k) ->
  ordered_keys (ks ++ [k]).
Proof.
  induction ks as [|x r IH]; intros Hord Hall.
  - simpl. split; [intros ? [] | exact I].
  - destruct Hord as [Hx Hr]. cbn [app ordered_keys]. split.
    + intros y Hy. apply in_app_or in Hy as [Hy|[<-|[]]].
      * now apply Hx.
      * apply Hall. now left.
    + apply IH; [exact Hr|]. intros y Hy. apply Hall. now right.
Qed.

Lemma ordered_keys_mid (a b : list string) (k : string) :
  ordered_keys (a ++ k :: b) ->
  forall k', In k' a -> key_before k' k.
Proof.
  induction a as [|x r IH]; intros Hord y Hy; [contradiction|].
  destruct Hord as [Hx Hr]. destruct Hy as [<-|Hy].
  - apply Hx. apply in_or_app. right. now left.
  - now apply IH.
Qed.

(** Creating a property keeps the keys in property order. *)
Lemma ordered_obj_set (k : string) (v : Value) (o : Obj) :
  ordered_keys (map fst o) -> ordered_keys (map fst (obj_set k v o)).
Proof.
  intros Hord. unfold obj_set. destruct (obj_get k o) eqn:Hg.
  - now rewrite obj_replace_keys.
  - apply obj_get_none in Hg.
    destruct (array_index k) as [i|] eqn:Hk.
    + now apply ordered_insert_index.
    + rewrite map_app. cbn [map fst]. apply ordered_keys_snoc; [exact Hord|].
      intros k' Hk'. split; [intros ->; contradiction|].
      rewrite Hk. now destruct (array_index k').
Qed.

Lemma obj_set_all (P : Value -> Prop) (k : string) (v : Value) (o : Obj) :
  P v -> Forall (fun kv => P (snd kv)) o ->
  Forall (fun kv => P (snd kv)) (obj_set k v o).
Proof.
  intros Hv Ho. unfold obj_set. destruct (obj_get k o).
  - now apply obj_replace_all.
  - destruct (array_index k).
    + now apply obj_insert_index_all.
    + apply Forall_app. split; [exact Ho | repeat constructor; exact Hv].
Qed.

Lemma obj_insert_index_last (i : N) (k : string) (v : Value) (o : Obj) :
  (forall k', In k' (map fst o) ->
              exists j, array_index k' = Some j /\ (j < i)%N) ->
  obj_insert_index i k v o = o ++ [(k, v)].
Proof.
  induction o as [|[k' v'] r IH]; intros H; [reflexivity|].
  cbn [obj_insert_index].
  destruct (H k' (or_introl eq_refl)) as (j & Hj & Hlt). rewrite Hj.
  destruct (N.ltb_spec j i); [|lia].
  cbn [app]. f_equal. apply IH. intros x Hx. apply H. now right.
Qed.

(** Creating, in order, the properties of an object whose keys are in
    property order gives that object. *)
Lemma rebuild_ordered (l : Obj) :
  forall acc,
    ordered_keys (map fst (acc ++ l)) ->
    fold_left (fun a kv => obj_set (fst kv) (snd kv) a) l acc = acc ++ l.
Proof.
  induction l as [|[k v] r IH]; intros acc Hord; cbn [fold_left fst snd].
  - now rewrite app_nil_r.
  - assert (Hset : obj_set k v acc = acc ++ [(k, v)]).
    { rewrite map_app in Hord. cbn [map fst] in Hord.
      pose proof (ordered_keys_mid _ _ _ Hord) as Hbefore.
      unfold obj_set. rewrite not_in_obj_get.
      - destruct (array_index k) as [i|] eqn:Hk; [|reflexivity].
        apply obj_insert_index_last. intros k' Hk'.
        destruct (Hbefore k' Hk') as [_ Hrel]. rewrite Hk in Hrel.
        destruct (array_index k') as [j|]; [eauto | contradiction].
      - intros Hin. now destruct (Hbefore k Hin) as [Hne _]. }
    rewrite Hset. rewrite IH; rewrite <- app_assoc; [reflexivity | exact Hord].
Qed.

Lemma obj_of_entries_ordered (o : Obj) :
  ordered_keys (map fst o) -> obj_of_entries o = o.
Proof. intros H. exact (rebuild_ordered o [] H). Qed.

Lemma canonical_arr (l : list Value) :
  canonical (JArr l) <-> Forall canonical l.
Proof.
  induction l as [|x l IH].
  - split; [constructor | exact (fun _ => I)].
  - split.
    + intros [Hx Hl]. constructor; [exact Hx | now apply IH].
    + intros H. inversion H; subst. split; [assumption | now apply IH].
Qed.

Lemma canonical_obj (o : Obj) :
  canonical (JObj o) <->
  ordered_keys (map fst o) /\ Forall (fun kv => canonical (snd kv)) o.
Proof.
  cbn [canonical]. apply and_iff_compat_l.
  induction o as [|kv o IH].
  - split; [constructor | exact (fun _ => I)].
  - split.
    + intros [Hx Hl]. constructor; [exact Hx | now apply IH].
    + intros H. inversion H; subst. split; [assumption | now apply IH].
Qed.

(** A value in the parser's shape whose numbers are all integers is
    well formed. *)
Lemma canonical_well_formed (v : Value) :
  canonical v -> integral v -> well_formed v.
Proof.
  induction v as [| b | n | s | l IH | o IH] using Value_nested_ind;
    intros Hc Hi; try exact I.
  - destruct n; [exact Hc | contradiction].
  - apply well_formed_arr. apply canonical_arr in Hc.
    induction IH as [|x l Hx Hl IHl]; constructor.
    + inversion Hc; subst. destruct Hi as [Hi _]. now apply Hx.
    + inversion Hc; subst. destruct Hi as [_ Hi]. now apply IHl.
  - apply well_formed_obj. apply canonical_obj in Hc as [Hord Hc].
    split; [now apply obj_of_entries_ordered|]. clear Hord.
    induction IH as [|x l Hx Hl IHl]; constructor.
    + inversion Hc; subst. destruct Hi as [Hi _]. now apply Hx.
    + inversion Hc; subst. destruct Hi as [_ Hi]. now apply IHl.
Qed.

(** ** What the parser builds *)

Lemma canonical_empty_obj : canonical (JObj []).
Proof. split; exact I. Qed.

Lemma deliver_good (v : Value) (st : list Frame) :
  canonical v -> Forall good_frame st -> good_pstate (deliver v st).
Proof.
  intros Hv Hst. destruct st as [|[acc|o k] st]; cbn [deliver good_pstate].
  - exact Hv.
  - inversion Hst; subst. split; [constructor|]; assumption.
  - inversion Hst as [|? ? Hf Hst']; subst. split; [|exact Hst'].
    cbn [good_frame] in Hf. apply canonical_obj in Hf as [Hord Hall].
    apply canonical_obj. split.
    + now apply ordered_obj_set.
    + now apply obj_set_all.
Qed.

Lemma begin_value_good (t : Token) (st : list Frame) (p' : PState) :
  good_token t -> Forall good_frame st ->
  begin_value t st = Some p' -> good_pstate p'.
Proof.
  intros Ht Hst H. destruct t; cbn [begin_value] in H;
    try discriminate H; injection H as <-.
  - exact Hst.
  - exact Hst.
  - now apply deliver_good.
  - now apply deliver_good.
Qed.

Lemma token_step_good (t : Token) (p p' : PState) :
  good_token t -> good_pstate p -> token_step t p = Some p' -> good_pstate p'.
Proof.
  intros Ht Hp H. destruct p as [st|st|st|o st|k o st|acc st|o st|v];
    cbn [token_step good_pstate] in *.
  - eapply begin_value_good; eauto.
  - assert (Hst : Forall good_frame (FArr [] :: st))
      by (constructor; [constructor | exact Hp]).
    destruct t; try (eapply begin_value_good; eauto; fail).
    injection H as <-. apply deliver_good; [exact I | exact Hp].
  - destruct t; try discriminate H; injection H as <-.
    + apply deliver_good; [exact canonical_empty_obj | exact Hp].
    + split; [exact canonical_empty_obj | exact Hp].
  - destruct t; try discriminate H; injection H as <-. exact Hp.
  - destruct t; try discriminate H; injection H as <-.
    destruct Hp as [Ho Hst]. constructor; assumption.
  - destruct Hp as [Hacc Hst].
    destruct t; try discriminate H; injection H as <-.
    + apply deliver_good; [|exact Hst].
      apply canonical_arr. now apply Forall_rev.
    + constructor; assumption.
  - destruct Hp as [Ho Hst].
    destruct t; try discriminate H; injection H as <-.
    + now apply deliver_good.
    + split; assumption.
  - discriminate H.
Qed.

Lemma emit_good (t : Token) (p : PState) (s' : St) :
  good_token t -> good_pstate p -> emit t p = Some s' -> good_state s'.
Proof.
  intros Ht Hp H. unfold emit in H.
  destruct (token_step t p) as [p'|] eqn:E; [|discriminate].
  injection H as <-. split; [exact I | eapply token_step_good; eauto].
Qed.

Lemma Number_of_numeral_canonical (cs : chars) (n : Number) :
  Number_of_numeral cs = Some n -> canonical (JNum n).
Proof.
  unfold Number_of_numeral. destruct (valid_numeral cs); [|discriminate].
  intros H. injection H as <-.
  destruct cs as [|c r]; [exact I|].
  destruct (Ascii.eqb c "-").
  - destruct (forallb is_digit r && (- Z.of_N (digits_value r) <? 0)
              && safe_integer (- Z.of_N (digits_value r)))%bool eqn:E;
      [|exact I].
    apply andb_true_iff in E as [_ E]. exact E.
  - destruct (forallb is_digit (c :: r)
              && safe_integer (Z.of_N (digits_value (c :: r))))%bool eqn:E;
      [|exact I].
    apply andb_true_iff in E as [_ E]. exact E.
Qed.

Lemma finish_number_good (acc : chars) (p p' : PState) :
  good_pstate p -> finish_number acc p = Some p' -> good_pstate p'.
Proof.
  intros Hp H. unfold finish_number in H.
  destruct (Number_of_numeral (rev acc)) as [n|] eqn:E; [|discriminate].
  eapply token_step_good; [|exact Hp|exact H].
  exact (Number_of_numeral_canonical _ _ E).
Qed.

Ltac walk_ifs H :=
  repeat match type of H with
         | (if ?b then _ else _) = Some _ => destruct b
         end.

Lemma step_idle_good (c : ascii) (p : PState) (s' : St) :
  good_pstate p -> step_idle c p = Some s' -> good_state s'.
Proof.
  intros Hp H. unfold step_idle in H. walk_ifs H;
    try discriminate H;
    try (eapply emit_good; [| exact Hp | exact H]; exact I);
    injection H as <-; (split; [exact I | exact Hp]).
Qed.

Lemma step_good (c : ascii) (s s' : St) :
  good_state s -> step c s = Some s' -> good_state s'.
Proof.
  destruct s as [l p]. intros [Hl Hp] H. cbn [fst snd] in Hl, Hp.
  destruct l as [|acc|acc|acc n u|acc|rest v]; cbn [step] in H.
  - now apply step_idle_good with (c := c) (p := p).
  - walk_ifs H; try discriminate H.
    + eapply emit_good; [| exact Hp | exact H]. exact I.
    + injection H as <-. split; [exact I | exact Hp].
    + injection H as <-. split; [exact I | exact Hp].
  - unfold step_escape in H. walk_ifs H; try discriminate H;
      injection H as <-; (split; [exact I | exact Hp]).
  - destruct (hex_val c); [|discriminate]. walk_ifs H;
      injection H as <-; (split; [exact I | exact Hp]).
  - destruct (is_numeral_char c).
    + injection H as <-. split; [exact I | exact Hp].
    + destruct (finish_number acc p) as [p'|] eqn:E; [|discriminate].
      apply step_idle_good with (c := c) (p := p'); [|exact H].
      eapply finish_number_good; eauto.
  - destruct rest as [|c' rest']; [discriminate|]. walk_ifs H;
      try discriminate H.
    + eapply emit_good; [| exact Hp | exact H]. exact Hl.
    + injection H as <-. split; [exact Hl | exact Hp].
Qed.

Lemma run_good (cs : chars) :
  forall s s', good_state s -> run cs s = Some s' -> good_state s'.
Proof.
  induction cs as [|c cs IH]; intros s s' Hs H; cbn [run] in H.
  - now injection H as <-.
  - destruct (step c s) as [s1|] eqn:E; [|discriminate].
    exact (IH s1 s' (step_good c s s1 Hs E) H).
Qed.

(** Every value [JSON.parse] returns has safe integers for its integer
    numbers and lists the properties of its objects in property order. *)
Theorem parse_canonical (text : string) (v : Value) :
  JSON_parse text = Some v -> canonical v.
Proof.
  unfold JSON_parse, parse_from. intros H.
  destruct (run (list_ascii_of_string text) (LIdle, SValue [])) as [[l p]|] eqn:E;
    [|discriminate].
  assert (Hgood : good_state (l, p)).
  { eapply run_good; [|exact E]. split; [exact I | constructor]. }
  destruct Hgood as [_ Hp]. cbn [snd] in Hp.
  destruct l; cbn [finish] in H; try discriminate H.
  - destruct p; try discriminate H. injection H as <-. exact Hp.
  - destruct (finish_number acc p) as [p'|] eqn:F; [|discriminate].
    pose proof (finish_number_good acc p p' Hp F) as Hp'.
    destruct p'; try discriminate H. injection H as <-. exact Hp'.
Qed.

(** A parsed value whose numbers are all integers is well formed. *)
Theorem parse_well_formed (text : string) (v : Value) :
  JSON_parse text = Some v -> integral v -> well_formed v.
Proof.
  intros H Hi. apply canonical_well_formed; [|exact Hi].
  exact (parse_canonical text v H).
Qed.

(** ** The parser and the printer on sample texts *)

Example parse_plain_text : JSON_parse "server down" = None.
Proof. reflexivity. Qed.

Example parse_empty_text : JSON_parse "" = None.
Proof. reflexivity. Qed.

Example parse_empty_object : JSON_parse "{}" = Some (JObj []).
Proof. reflexivity. Qed.

Example parse_array :
  JSON_parse " [1, -20, 0, true, false, null, [], [[]]] " =
  Some (JArr [JNum (NInt 1); JNum (NInt (-20)); JNum (NInt 0); JBool true;
              JBool false; JNull; JArr []; JArr [JArr []]]).
Proof. reflexivity. Qed.

Example parse_rejects :
  JSON_parse "[1,]" = None /\ JSON_parse "{,}" = None /\
  JSON_parse "01" = None /\ JSON_parse "1." = None /\
  JSON_parse "-" = None /\ JSON_parse "nul" = None /\
  JSON_parse "[1 2]" = None /\ JSON_parse "1 2" = None /\
  JSON_parse "[" = None /\ JSON_parse "]" = None.
Proof. repeat split. Qed.

Example parse_other_numbers :
  JSON_parse "[1.5, 1e2, -0, 9007199254740991, 9007199254740992]" =
  Some (JArr [JNum (NOther "1.5"); JNum (NOther "1e2"); JNum (NOther "-0");
              JNum (NInt 9007199254740991);
              JNum (NOther "9007199254740992")]).
Proof. reflexivity. Qed.

(** a key given twice keeps its first place and its last value; array
    indices come first, ascending *)
Example parse_property_order :
  JSON_parse ("{" ++ Sample.dq "b" ++ ":1," ++ Sample.dq "2" ++ ":2,"
              ++ Sample.dq "a" ++ ":3," ++ Sample.dq "b" ++ ":4,"
              ++ Sample.dq "1" ++ ":5}")%string =
  Some (JObj [("1", JNum (NInt 5)); ("2", JNum (NInt 2));
              ("b", JNum (NInt 4)); ("a", JNum (NInt 3))]).
Proof. reflexivity. Qed.

Example parse_escapes :
  JSON_parse (Sample.dq "a\n\u0041\u00e9\ud83d\uDE00\\")%string =
  Some (JStr (String "a" (String ch_lf (String "A" "é😀\")))).
Proof. reflexivity. Qed.

Example stringify_indented :
  @JSON_stringify example_platform
     (JObj [("a", JArr [JNum (NInt 1); JStr "x"]); ("b", JObj [])]) 2 =
  ("{" ++ String ch_lf "  " ++ Sample.dq "a" ++ ": ["
   ++ String ch_lf "    1,"
   ++ String ch_lf "    " ++ Sample.dq "x"
   ++ String ch_lf "  ],"
   ++ String ch_lf "  " ++ Sample.dq "b" ++ ": {}"
   ++ String ch_lf "}")%string.
Proof. reflexivity. Qed.

Example stringify_compact :
  @JSON_stringify example_platform
     (JObj [("a", JArr [JNum (NInt 1); JStr "x"]); ("b", JObj [])]) 0 =
  ("{" ++ Sample.dq "a" ++ ":[1," ++ Sample.dq "x" ++ "],"
   ++ Sample.dq "b" ++ ":{}}")%string.
Proof. reflexivity. Qed.

End JSFacts.

(* ================================================================== *)
(** * Facts about the page *)
(* ================================================================== *)

Module PageFacts.
Import JS Web Page.
Unset Implicit Arguments.

Lemma requests_app (h h' : list Action) :
  requests (h ++ h') = requests h ++ requests h'.
Proof.
  induction h as [|a h IH]; simpl; [reflexivity|].
  destruct a; simpl; now rewrite IH.
Qed.

Section Submission.
Context {PF : Platform}.

(** ** What [fetch] settling leads to *)

Lemma after_fetch_rejected (e : JsError) :
  after_fetch (Rejected e) = caught e.
Proof. reflexivity. Qed.

(** A 2xx response: the parsed body becomes the result, whatever it
    is; a body that does not parse is the only way to [catch]. *)
Lemma after_fetch_ok (res : Response) :
  ok res = true ->
  after_fetch (Resolved res) =
  match JSON_parse (decoded_body res) with
  | Some v => SetResult v (SetLoading false Done)
  | None => caught (SyntaxError (decoded_body res))
  end.
Proof.
  intros Hok. unfold after_fetch, read_response, decoded_body.
  rewrite Hok. cbn [negb]. unfold json, bind, consume.
  destruct (body res) as [t|]; cbn [fst];
    destruct (JSON_parse _); reflexivity.
Qed.

(** A non-2xx response whose body parses: [errJson.error] when truthy,
    else the text of [errJson]. *)
Lemma after_fetch_error_json (res : Response) (errJson : Value) (e : MaybeUndefined) :
  ok res = false ->
  JSON_parse (decoded_body res) = Some errJson ->
  get_prop errJson "error" = Some e ->
  after_fetch (Resolved res) =
  caught (new_Error (match e with
                     | Some v => if truthy v then v
                                 else JStr (JSON_stringify errJson 0)
                     | None => JStr (JSON_stringify errJson 0)
                     end)).
Proof.
  intros Hok Hparse Hget.
  unfold after_fetch, read_response, decoded_body in *.
  rewrite Hok. cbn [negb].
  unfold try_catch, json, bind, consume, read_error_property, ret, throw.
  destruct (body res) as [t|]; rewrite Hparse, Hget; reflexivity.
Qed.

(** A non-2xx response with a body that does not parse: the body has
    been read by [res.json()], so [res.text()] throws, and that error
    is what [catch] receives. *)
Lemma after_fetch_error_text (res : Response) (t : string) :
  ok res = false ->
  body res = Some t ->
  JSON_parse (utf8_decode t) = None ->
  after_fetch (Resolved res) = caught (TypeError (BodyUsed "text")).
Proof.
  intros Hok Hbody Hparse.
  unfold after_fetch, read_response. rewrite Hok. cbn [negb].
  unfold try_catch, json, text, bind, consume, ret, throw.
  rewrite Hbody, Hparse. reflexivity.
Qed.

(** A non-2xx response with a null body: the generic status message. *)
Lemma after_fetch_error_null_body (res : Response) :
  ok res = false ->
  body res = None ->
  after_fetch (Resolved res) =
  caught (Error ("HTTP " ++ Z_to_string (status res))).
Proof.
  intros Hok Hbody.
  unfold after_fetch, read_response. rewrite Hok. cbn [negb].
  unfold try_catch, json, text, bind, consume, ret, throw.
  rewrite Hbody. reflexivity.
Qed.

Lemma run_caught (e : JsError) (w : World) :
  run (caught e) w =
  {| st := setLoading false (setError (Some (surfaced e)) (st w));
     waiting := waiting w;
     history := history w ++ [DidConsoleError "Fetch error:" e;
                              DidSetError (Some (surfaced e));
                              DidSetLoading false] |}.
Proof.
  unfold caught. cbn [run]. unfold act. cbn [st waiting history].
  now rewrite <- !app_assoc.
Qed.

(** Whatever [fetch] settles with, the handler ends by setting
    [loading] to false and issues no request. *)
Lemma after_fetch_shape (o : FetchOutcome) :
  (exists v, after_fetch o = SetResult v (SetLoading false Done)) \/
  (exists e, after_fetch o = caught e).
Proof.
  unfold after_fetch.
  destruct (match o with
            | Rejected e => inl e
            | Resolved res => fst (read_response res false)
            end) as [e|v].
  - right. now exists e.
  - left. now exists v.
Qed.


(** ** The submit handler *)

Lemma run_submit_no_files (w : World) :
  files (st w) = None \/ files (st w) = Some [] ->
  run (handleSubmit (files (st w)) (ticker (st w))) w =
  {| st := setError (Some no_files_message) (st w);
     waiting := waiting w;
     history := history w ++ [DidPreventDefault;
                              DidSetError (Some no_files_message)] |}.
Proof.
  intros [H|H]; rewrite H; unfold handleSubmit; cbn [run]; unfold act;
    cbn [st waiting history]; now rewrite <- !app_assoc.
Qed.

Lemma run_submit_files (w : World) (f : File) (fs : list File) :
  files (st w) = Some (f :: fs) ->
  run (handleSubmit (files (st w)) (ticker (st w))) w =
  {| st := setResult JNull (setError None (setLoading true (st w)));
     waiting := waiting w ++ [after_fetch];
     history := history w ++
                [DidPreventDefault; DidSetLoading true; DidSetError None;
                 DidSetResult JNull;
                 DidFetch {| url := endpoint; method := "POST";
                             form := build_form (ticker (st w)) (f :: fs) |}] |}.
Proof.
  intros H. rewrite H. unfold handleSubmit. cbn [run]. unfold act.
  cbn [st waiting history setLoading setError setResult ticker].
  now rewrite <- !app_assoc.
Qed.

Lemma nth_error_last {A} (l : list A) (x : A) :
  nth_error (l ++ [x]) (List.length l) = Some x.
Proof. induction l; simpl; auto. Qed.

Lemma remove_nth_last {A} (l : list A) (x : A) :
  remove_nth (List.length l) (l ++ [x]) = l.
Proof. induction l; simpl; [reflexivity | now f_equal]. Qed.

Lemma run_result (v : Value) (w : World) :
  run (SetResult v (SetLoading false Done)) w =
  {| st := setLoading false (setResult v (st w));
     waiting := waiting w;
     history := history w ++ [DidSetResult v; DidSetLoading false] |}.
Proof.
  cbn [run]. unfold act. cbn [st waiting history].
  now rewrite <- !app_assoc.
Qed.

(** ** Submitting *)

(** C2. With no file selected ([files] null or empty), submitting
    issues no request, suspends nothing, leaves [loading] false and
    sets the error to the validation message. *)
Theorem submit_without_files (w : World) :
  loading (st w) = false ->
  files (st w) = None \/ files (st w) = Some [] ->
  exists w',
    react Submit w = Some w' /\
    requests (history w') = requests (history w) /\
    waiting w' = waiting w /\
    loading (st w') = false /\
    error (st w') = Some "Please select at least one PDF file.".
Proof.
  intros Hl Hf. eexists. split.
  - unfold react. rewrite Hl. reflexivity.
  - rewrite (run_submit_no_files w Hf). cbn [st waiting history].
    rewrite requests_app. cbn [requests]. rewrite app_nil_r.
    repeat split. exact Hl.
Qed.

(** C3. With at least one file selected, submitting issues exactly one
    request, a POST to the fixed endpoint whose form data is the field
    [ticker] with the selected identifier (one of VOLV-B and HM-B)
    followed by one [files] part per selected file, in order; when the
    fetch settles, in whatever way, no further request is issued. *)
Theorem submit_issues_one_request (w : World) (f : File) (fs : list File) :
  loading (st w) = false ->
  files (st w) = Some (f :: fs) ->
  exists w1,
    react Submit w = Some w1 /\
    requests (history w1) =
      requests (history w) ++
      [{| url := "http://localhost:4000/api/analyze";
          method := "POST";
          form := ("ticker", FText (ticker_value (ticker (st w))))
                  :: map (fun x => ("files", FFile x)) (f :: fs) |}] /\
    (ticker_value (ticker (st w)) = "VOLV-B" \/
     ticker_value (ticker (st w)) = "HM-B") /\
    forall o, exists w2,
      react (Settle (List.length (waiting w)) o) w1 = Some w2 /\
      requests (history w2) = requests (history w1).
Proof.
  intros Hl Hf. eexists. split; [|split; [|split]].
  - unfold react. rewrite Hl. reflexivity.
  - rewrite (run_submit_files w f fs Hf). cbn [history].
    rewrite requests_app. reflexivity.
  - destruct (ticker (st w)); [left | right]; reflexivity.
  - intros o. rewrite (run_submit_files w f fs Hf).
    unfold react. cbn [waiting st history].
    rewrite nth_error_last, remove_nth_last.
    eexists. split; [reflexivity|].
    destruct (after_fetch_shape o) as [[v ->]|[e ->]].
    + rewrite run_result. cbn [history]. rewrite requests_app.
      cbn [requests]. now rewrite app_nil_r.
    + rewrite run_caught. cbn [history]. rewrite requests_app.
      cbn [requests]. now rewrite app_nil_r.
Qed.

(** C5. A non-2xx response whose body parses as a JSON object with a
    non-empty string under [error] surfaces exactly that string. *)
Theorem service_error_message_surfaced
    (w : World) (res : Response) (o : Obj) (msg : string) :
  ok res = false ->
  JSON_parse (decoded_body res) = Some (JObj o) ->
  obj_get "error" o = Some (JStr msg) ->
  msg <> "" ->
  error (st (run (after_fetch (Resolved res)) w)) = Some msg.
Proof.
  intros Hok Hparse Hget Hmsg.
  rewrite (after_fetch_error_json res (JObj o) (Some (JStr msg)) Hok Hparse)
    by (cbn [get_prop]; now rewrite Hget).
  rewrite run_caught. cbn [st error setLoading setError].
  cbn [truthy]. destruct (String.eqb_spec msg ""); [contradiction|].
  cbn [negb]. unfold new_Error. cbn [to_string]. unfold surfaced.
  cbn [message Error]. destruct (String.eqb_spec msg ""); [contradiction|].
  reflexivity.
Qed.

(** C6. When [fetch] throws, and when the body of a 2xx response does
    not parse, the surfaced error is the message of the exception
    thrown, or "Unknown error" when that message is empty. *)
Theorem transport_failure_message (w : World) :
  (forall e : JsError,
      error (st (run (after_fetch (Rejected e)) w)) =
      Some (if String.eqb (message e) "" then "Unknown error"
            else message e)) /\
  (forall res : Response,
      ok res = true ->
      JSON_parse (decoded_body res) = None ->
      error (st (run (after_fetch (Resolved res)) w)) =
      Some (if String.eqb (message (SyntaxError (decoded_body res))) ""
            then "Unknown error"
            else message (SyntaxError (decoded_body res)))).
Proof.
  split.
  - intros e. rewrite after_fetch_rejected, run_caught. reflexivity.
  - intros res Hok Hparse. rewrite (after_fetch_ok res Hok), Hparse.
    rewrite run_caught. reflexivity.
Qed.

(** C7. A submission with files sets [loading] to true before it
    issues the request; while it waits the submit button is disabled
    and cannot submit; however the fetch settles, the handler resumes
    and ends by setting [loading] to false, which enables the button
    again, and nothing is left waiting. *)
Theorem loading_brackets_submission (w : World) (f : File) (fs : list File) :
  loading (st w) = false ->
  files (st w) = Some (f :: fs) ->
  exists w1 req,
    react Submit w = Some w1 /\
    history w1 = history w ++
                 [DidPreventDefault; DidSetLoading true; DidSetError None;
                  DidSetResult JNull; DidFetch req] /\
    loading (st w1) = true /\
    submit_button (st w1) =
      El "button" [Att "type" "submit"; Flag "disabled" true]
         [Text "Analyzingâ€¦"] /\
    react Submit w1 = None /\
    forall o, exists w2 done,
      react (Settle (List.length (waiting w)) o) w1 = Some w2 /\
      history w2 = history w1 ++ done ++ [DidSetLoading false] /\
      loading (st w2) = false /\
      waiting w2 = waiting w /\
      submit_button (st w2) =
        El "button" [Att "type" "submit"; Flag "disabled" false]
           [Text "Run Analysis"].
Proof.
  intros Hl Hf. eexists. eexists. split; [|split; [|split; [|split; [|split]]]].
  - unfold react. rewrite Hl. reflexivity.
  - rewrite (run_submit_files w f fs Hf). reflexivity.
  - rewrite (run_submit_files w f fs Hf). reflexivity.
  - rewrite (run_submit_files w f fs Hf). reflexivity.
  - rewrite (run_submit_files w f fs Hf). reflexivity.
  - intros o. rewrite (run_submit_files w f fs Hf).
    unfold react. cbn [waiting st history].
    rewrite nth_error_last, remove_nth_last.
    destruct (after_fetch_shape o) as [[v ->]|[e ->]].
    + exists (run (SetResult v (SetLoading false Done))
                {| st := setResult JNull (setError None (setLoading true (st w)));
                   waiting := waiting w;
                   history := history w ++
                     [DidPreventDefault; DidSetLoading true; DidSetError None;
                      DidSetResult JNull;
                      DidFetch {| url := endpoint; method := "POST";
                                  form := build_form (ticker (st w)) (f :: fs) |}] |}),
             [DidSetResult v].
      split; [reflexivity|]. rewrite run_result. repeat split.
    + exists (run (caught e)
                {| st := setResult JNull (setError None (setLoading true (st w)));
                   waiting := waiting w;
                   history := history w ++
                     [DidPreventDefault; DidSetLoading true; DidSetError None;
                      DidSetResult JNull;
                      DidFetch {| url := endpoint; method := "POST";
                                  form := build_form (ticker (st w)) (f :: fs) |}] |}),
             [DidConsoleError "Fetch error:" e; DidSetError (Some (surfaced e))].
      split; [reflexivity|]. rewrite run_caught. repeat split.
Qed.

(** C10. The body of a 2xx response, once it parses, becomes the
    result as it is, whatever its shape, and the error is left as the
    submission cleared it; only a body that does not parse takes a 2xx
    response to the error, and then the result is left alone. *)
Theorem any_json_becomes_result (w : World) (res : Response) :
  ok res = true ->
  let w' := run (after_fetch (Resolved res)) w in
  match JSON_parse (decoded_body res) with
  | Some v =>
      result (st w') = v /\
      error (st w') = error (st w) /\
      history w' = history w ++ [DidSetResult v; DidSetLoading false]
  | None =>
      result (st w') = result (st w) /\
      error (st w') = Some (surfaced (SyntaxError (decoded_body res))) /\
      history w' = history w ++
                   [DidConsoleError "Fetch error:"
                      (SyntaxError (decoded_body res));
                    DidSetError (Some (surfaced (SyntaxError (decoded_body res))));
                    DidSetLoading false]
  end.
Proof.
  intros Hok w'. subst w'. rewrite (after_fetch_ok res Hok).
  destruct (JSON_parse (decoded_body res)) as [v|].
  - rewrite run_result. repeat split.
  - rewrite run_caught. repeat split.
Qed.

(** With no file selected, the handler does not touch the result. *)
Lemma validation_leaves_result (w : World) :
  files (st w) = None \/ files (st w) = Some [] ->
  let w' := run (handleSubmit (files (st w)) (ticker (st w))) w in
  result (st w') = result (st w) /\ error (st w') = Some no_files_message.
Proof.
  intros Hf w'. subst w'. rewrite (run_submit_no_files w Hf). split; reflexivity.
Qed.

(** ** Export *)

Lemma decode_object (v : Value) (r : AnalysisResult.t) :
  decode v = Some r ->
  exists o,
    v = JObj o /\
    obj_get "ticker" o = Some (JStr (AnalysisResult.ticker r)) /\
    obj_get "runId" o = Some (JStr (AnalysisResult.runId r)).
Proof.
  intros H. destruct v as [| | | | |o]; try discriminate H. unfold decode in H.
  destruct (obj_get "ticker" o) as [[| | |t| |]|] eqn:Et; try discriminate H.
  destruct (obj_get "trustScore" o) as [[| |ts| | |]|]; try discriminate H.
  destruct (obj_get "trustJustification" o) as [[| | |tj| |]|]; try discriminate H.
  destruct (obj_get "trustRecommendations" o) as [[| | | |tr|]|]; try discriminate H.
  destruct (obj_get "growthScore" o) as [[| |gs| | |]|]; try discriminate H.
  destruct (obj_get "growthJustification" o) as [[| | |gj| |]|]; try discriminate H.
  destruct (obj_get "growthRecommendations" o) as [[| | | |gr|]|]; try discriminate H.
  destruct (obj_get "summary" o) as [[| | |su| |]|]; try discriminate H.
  destruct (obj_get "runId" o) as [[| | |ri| |]|] eqn:Er; try discriminate H.
  destruct (strings_of tr); try discriminate H.
  destruct (strings_of gr); try discriminate H.
  injection H as <-. exists o. repeat split; assumption.
Qed.

(** For a well-formed result that is an [AnalysisResult], the export
    downloads a file named [<ticker>_analysis_<runId>.json] whose
    content is the result as JSON indented by two spaces, and parsing
    that content gives the result back. *)
Lemma export_well_formed (s : State) (r : AnalysisResult.t) :
  decode (result s) = Some r ->
  well_formed (result s) ->
  exists d,
    handleExportJson (result s) = Some d /\
    filename d =
      (AnalysisResult.ticker r ++ "_analysis_" ++ AnalysisResult.runId r
       ++ ".json")%string /\
    mime d = "application/json" /\
    content d = JSON_stringify (result s) 2 /\
    JSON_parse (content d) = Some (result s).
Proof.
  intros Hdec Hwf.
  destruct (decode_object _ _ Hdec) as (o & Hv & Ht & Hr).
  rewrite Hv in *. unfold handleExportJson, property_text.
  cbn [truthy negb get_prop]. rewrite Ht, Hr. cbn [to_string_or_undefined to_string].
  eexists. split; [reflexivity|]. cbn [filename mime content].
  repeat split. now apply JSFacts.parse_stringify.
Qed.

(** ** The presenter *)

Lemma nodes_items (recs : list string) (n : Node) :
  In n (flat_map nodes (map (fun rec => El "li" [] [Text rec]) recs)) ->
  (exists rec, n = El "li" [] [Text rec]) \/ (exists rec, n = Text rec).
Proof.
  induction recs as [|rec recs IH]; simpl; [contradiction|].
  intros [H|[H|H]]; eauto.
Qed.

Ltac pick :=
  solve [ reflexivity
        | split; [discriminate | reflexivity]
        | eexists; reflexivity
        | left; pick
        | right; pick ].

(** The nodes of a score section. *)
Lemma nodes_section (title : string) (score : Number)
    (justification heading : string) (recs : list string) (n : Node) :
  In n (nodes (score_section title score justification heading recs)) ->
  n = score_section title score justification heading recs \/
  n = El "h3" [] [Text title; Text (Number_to_string score); Text "/100"] \/
  n = El "p" [] [Text justification] \/
  (recs <> [] /\ n = El "h4" [] [Text heading]) \/
  (recs <> [] /\ n = El "ul" [] (map (fun rec => El "li" [] [Text rec]) recs)) \/
  (exists rec, n = El "li" [] [Text rec]) \/
  (exists t, n = Text t).
Proof.
  unfold score_section, recommendations. destruct recs as [|rec recs].
  - simpl. intros H.
    repeat (destruct H as [<-|H]; [pick|]). contradiction.
  - change (0 <? Z.of_nat (List.length (rec :: recs))) with true.
    cbn [when nodes flat_map app map].
    intros H. rewrite app_nil_r in H.
    repeat (destruct H as [<-|H]; [pick|]).
    apply nodes_items in H. destruct H as [[x ->]|[x ->]]; pick.
Qed.

Lemma section_shows (title : string) (score : Number)
    (justification heading : string) (recs : list string) :
  let shown := nodes (score_section title score justification heading recs) in
  In (El "h3" [] [Text title; Text (Number_to_string score); Text "/100"]) shown /\
  In (El "p" [] [Text justification]) shown /\
  (recs <> [] ->
   In (El "h4" [] [Text heading]) shown /\
   In (El "ul" [] (map (fun rec => El "li" [] [Text rec]) recs)) shown).
Proof.
  unfold score_section, recommendations. destruct recs as [|rec recs].
  - simpl. intuition congruence.
  - change (0 <? Z.of_nat (List.length (rec :: recs))) with true.
    cbn [when nodes flat_map app map]. simpl. intuition.
Qed.

Lemma nodes_panel (r : AnalysisResult.t) :
  nodes (result_panel r) =
  result_panel r
  :: El "h2" [] [Text "Results for "; Text (AnalysisResult.ticker r)]
  :: Text "Results for " :: Text (AnalysisResult.ticker r)
  :: nodes (score_section "Trust (Transparency): "
              (AnalysisResult.trustScore r)
              (AnalysisResult.trustJustification r)
              "Transparency Recommendations:"
              (AnalysisResult.trustRecommendations r))
  ++ nodes (score_section "Growth (Differentiation): "
              (AnalysisResult.growthScore r)
              (AnalysisResult.growthJustification r)
              "Differentiation Recommendations:"
              (AnalysisResult.growthRecommendations r))
  ++ [El "p" [] [Text (AnalysisResult.summary r)];
      Text (AnalysisResult.summary r);
      El "p" [] [Text "Run ID: "; Text (AnalysisResult.runId r)];
      Text "Run ID: "; Text (AnalysisResult.runId r);
      El "div" [] [El "button" [On OnExportClick] [Text "Export JSON"]];
      El "button" [On OnExportClick] [Text "Export JSON"];
      Text "Export JSON"].
Proof. reflexivity. Qed.

(** A heading or a list in the panel belongs to one of the two score
    sections. *)
Lemma panel_heading_or_list (r : AnalysisResult.t) (n : Node) :
  In n (nodes (result_panel r)) ->
  (exists t, n = El "h4" [] [Text t]) \/ (exists l, n = El "ul" [] l) ->
  In n (nodes (score_section "Trust (Transparency): "
                 (AnalysisResult.trustScore r)
                 (AnalysisResult.trustJustification r)
                 "Transparency Recommendations:"
                 (AnalysisResult.trustRecommendations r))) \/
  In n (nodes (score_section "Growth (Differentiation): "
                 (AnalysisResult.growthScore r)
                 (AnalysisResult.growthJustification r)
                 "Differentiation Recommendations:"
                 (AnalysisResult.growthRecommendations r))).
Proof.
  intros H Hn. rewrite nodes_panel in H.
  destruct H as [H|[H|[H|[H|H]]]];
    try (subst n; destruct Hn as [[? Hn]|[? Hn]]; discriminate Hn).
  apply in_app_or in H as [H|H]; [now left|].
  apply in_app_or in H as [H|H]; [now right|].
  simpl in H.
  repeat (destruct H as [H|H];
          [subst n; destruct Hn as [[? Hn]|[? Hn]]; discriminate Hn|]).
  contradiction.
Qed.

Lemma panel_shows_sections (r : AnalysisResult.t) (n : Node) :
  In n (nodes (score_section "Trust (Transparency): "
                 (AnalysisResult.trustScore r)
                 (AnalysisResult.trustJustification r)
                 "Transparency Recommendations:"
                 (AnalysisResult.trustRecommendations r))) \/
  In n (nodes (score_section "Growth (Differentiation): "
                 (AnalysisResult.growthScore r)
                 (AnalysisResult.growthJustification r)
                 "Differentiation Recommendations:"
                 (AnalysisResult.growthRecommendations r))) ->
  In n (nodes (result_panel r)).
Proof.
  intros H. rewrite nodes_panel. do 4 right.
  apply in_or_app. destruct H as [H|H]; [now left|right].
  apply in_or_app. now left.
Qed.

Lemma nodes_self (n : Node) : In n (nodes n).
Proof. destruct n; left; reflexivity. Qed.

Lemma items_nil (recs : list string) :
  map (fun rec => El "li" [] [Text rec]) recs = [] -> recs = [].
Proof. destruct recs; [reflexivity | discriminate]. Qed.

Lemma list_items_strings (l : list Value) :
  forall recs,
    strings_of l = Some recs ->
    list_items l = Some (map (fun rec => El "li" [] [Text rec]) recs).
Proof.
  induction l as [|x l IH]; intros recs H; cbn [strings_of] in H.
  - injection H as <-. reflexivity.
  - destruct x as [| | |s| |]; try discriminate H.
    destruct (strings_of l) as [ss|]; [|discriminate H].
    injection H as <-. cbn [list_items child map].
    now rewrite (IH ss eq_refl).
Qed.

Lemma recommendations_typed (heading : string) (l : list Value)
    (recs : list string) :
  strings_of l = Some recs ->
  recommendations_of heading (Some (JArr l)) =
  Some (recommendations heading recs).
Proof.
  intros H. unfold recommendations_of. cbn [truthy negb].
  rewrite (list_items_strings l recs H).
  destruct l as [|x l].
  - injection H as <-. reflexivity.
  - destruct recs as [|rec recs]; [|reflexivity].
    cbn [strings_of] in H. destruct x; try discriminate H.
    destruct (strings_of l); discriminate H.
Qed.

(** On a result that is an [AnalysisResult] the JSX renders the panel
    of that record. *)
Lemma panel_typed (v : Value) (r : AnalysisResult.t) :
  decode v = Some r -> panel v = Some (result_panel r).
Proof.
  intros H. destruct v as [| | | | |o]; try discriminate H.
  unfold decode in H. unfold panel. cbn [get_prop].
  destruct (obj_get "ticker" o) as [[| | |t| |]|]; try discriminate H.
  destruct (obj_get "trustScore" o) as [[| |ts| | |]|]; try discriminate H.
  destruct (obj_get "trustJustification" o) as [[| | |tj| |]|]; try discriminate H.
  destruct (obj_get "trustRecommendations" o) as [[| | | |tr|]|]; try discriminate H.
  destruct (obj_get "growthScore" o) as [[| |gs| | |]|]; try discriminate H.
  destruct (obj_get "growthJustification" o) as [[| | |gj| |]|]; try discriminate H.
  destruct (obj_get "growthRecommendations" o) as [[| | | |gr|]|]; try discriminate H.
  destruct (obj_get "summary" o) as [[| | |su| |]|]; try discriminate H.
  destruct (obj_get "runId" o) as [[| | |ri| |]|]; try discriminate H.
  destruct (strings_of tr) as [trs|] eqn:Etr; try discriminate H.
  destruct (strings_of gr) as [grs|] eqn:Egr; try discriminate H.
  injection H as <-.
  unfold score_section_of. cbn [child_or_undefined child].
  rewrite (recommendations_typed _ tr trs Etr),
    (recommendations_typed _ gr grs Egr).
  reflexivity.
Qed.

(** C9. For a result that is an [AnalysisResult], the page renders the
    result panel, and the panel shows the ticker, each score followed by
    [/100], each justification, and for each of the two recommendation
    lists its heading and its items exactly when the list is not empty:
    with an empty list neither the heading nor the list is in the
    panel. *)
Theorem presenter_shows_result (s : State) (r : AnalysisResult.t) :
  decode (result s) = Some r ->
  exists page,
    view s = Some page /\
    In (result_panel r) (nodes page) /\
    let shown := nodes (result_panel r) in
    let items := map (fun rec => El "li" [] [Text rec]) in
    In (El "h2" [] [Text "Results for "; Text (AnalysisResult.ticker r)]) shown /\
    In (El "h3" [] [Text "Trust (Transparency): ";
                    Text (Number_to_string (AnalysisResult.trustScore r));
                    Text "/100"]) shown /\
    In (El "p" [] [Text (AnalysisResult.trustJustification r)]) shown /\
    In (El "h3" [] [Text "Growth (Differentiation): ";
                    Text (Number_to_string (AnalysisResult.growthScore r));
                    Text "/100"]) shown /\
    In (El "p" [] [Text (AnalysisResult.growthJustification r)]) shown /\
    (In (El "h4" [] [Text "Transparency Recommendations:"]) shown <->
     AnalysisResult.trustRecommendations r <> []) /\
    (In (El "ul" [] (items (AnalysisResult.trustRecommendations r))) shown <->
     AnalysisResult.trustRecommendations r <> []) /\
    (In (El "h4" [] [Text "Differentiation Recommendations:"]) shown <->
     AnalysisResult.growthRecommendations r <> []) /\
    (In (El "ul" [] (items (AnalysisResult.growthRecommendations r))) shown <->
     AnalysisResult.growthRecommendations r <> []).
Proof.
  intros Hdec.
  destruct (decode_object _ _ Hdec) as (o & Hv & _).
  exists (El "div" []
            ([El "h1" [] [Text "Trust & Growth Analyzer"]; form_node s]
             ++ [result_panel r])).
  split; [|split].
  - unfold view. rewrite (panel_typed _ _ Hdec), Hv. reflexivity.
  - cbn [nodes]. right. apply in_flat_map. exists (result_panel r).
    split; [|apply nodes_self]. apply in_or_app. right. now left.
  - pose proof (section_shows "Trust (Transparency): "
                  (AnalysisResult.trustScore r)
                  (AnalysisResult.trustJustification r)
                  "Transparency Recommendations:"
                  (AnalysisResult.trustRecommendations r)) as (T1 & T2 & T3).
    pose proof (section_shows "Growth (Differentiation): "
                  (AnalysisResult.growthScore r)
                  (AnalysisResult.growthJustification r)
                  "Differentiation Recommendations:"
                  (AnalysisResult.growthRecommendations r)) as (G1 & G2 & G3).
    cbv zeta.
    repeat match goal with |- _ /\ _ => split end.
    + rewrite nodes_panel. right. now left.
    + apply panel_shows_sections. now left.
    + apply panel_shows_sections. now left.
    + apply panel_shows_sections. now right.
    + apply panel_shows_sections. now right.
    + split.
      * intros H. apply panel_heading_or_list in H; [|left; eauto].
        destruct H as [H|H]; apply nodes_section in H;
          unfold score_section in H;
          destruct H as [H|[H|[H|[[Hne H]|[[Hne H]|[[x H]|[x H]]]]]]];
          try discriminate H; assumption.
      * intros Hne. apply panel_shows_sections. left. now apply T3.
    + split.
      * intros H. apply panel_heading_or_list in H; [|right; eauto].
        destruct H as [H|H]; apply nodes_section in H;
          unfold score_section in H;
          destruct H as [H|[H|[H|[[Hne H]|[[Hne H]|[[x H]|[x H]]]]]]];
          try discriminate H; try assumption.
        intros Hnil. rewrite Hnil in H. injection H as H.
        first [apply items_nil in H | symmetry in H; apply items_nil in H].
        contradiction.
      * intros Hne. apply panel_shows_sections. left. now apply T3.
    + split.
      * intros H. apply panel_heading_or_list in H; [|left; eauto].
        destruct H as [H|H]; apply nodes_section in H;
          unfold score_section in H;
          destruct H as [H|[H|[H|[[Hne H]|[[Hne H]|[[x H]|[x H]]]]]]];
          try discriminate H; assumption.
      * intros Hne. apply panel_shows_sections. right. now apply G3.
    + split.
      * intros H. apply panel_heading_or_list in H; [|right; eauto].
        destruct H as [H|H]; apply nodes_section in H;
          unfold score_section in H;
          destruct H as [H|[H|[H|[[Hne H]|[[Hne H]|[[x H]|[x H]]]]]]];
          try discriminate H; try assumption.
        intros Hnil. rewrite Hnil in H. injection H as H.
        first [apply items_nil in H | symmetry in H; apply items_nil in H].
        contradiction.
      * intros Hne. apply panel_shows_sections. right. now apply G3.
Qed.

(** ** Result and error over all runs of the page *)

Lemma react_keeps_invariant (e : Event) (w w' : World) :
  settled_or_waiting w -> react e w = Some w' -> settled_or_waiting w'.
Proof.
  unfold settled_or_waiting. intros Inv Hr.
  destruct e as [fs|t| |i o|]; unfold react in Hr.
  - injection Hr as <-. exact Inv.
  - injection Hr as <-. exact Inv.
  - destruct (loading (st w)) eqn:Hl; [discriminate|].
    apply (f_equal (fun x => match x with Some y => y | None => w end)) in Hr.
    cbv beta iota in Hr. subst w'. destruct Inv as [Hw Hre].
    assert (Hcases : (files (st w) = None \/ files (st w) = Some []) \/
                     exists f fs, files (st w) = Some (f :: fs)).
    { destruct (files (st w)) as [[|f fs]|]; eauto. }
    destruct Hcases as [Hf|(f & fs & Hf)].
    + rewrite (run_submit_no_files w Hf).
      cbn [st loading setError waiting error result]. rewrite Hl.
      split; [exact Hw | intros _; now right].
    + rewrite (run_submit_files w f fs Hf).
      cbn [st loading setError setResult setLoading waiting error result].
      rewrite Hw. repeat split.
  - destruct (loading (st w)) eqn:Hl.
    + destruct Inv as (Hw & He & Hre). rewrite Hw in Hr.
      destruct i as [|i]; [|destruct i; discriminate].
      cbn [nth_error remove_nth] in Hr. injection Hr as <-.
      destruct (after_fetch_shape o) as [[v ->]|[x ->]].
      * rewrite run_result.
        cbn [st loading setResult setLoading waiting error result].
        split; [reflexivity | intros _; now left].
      * rewrite run_caught.
        cbn [st loading setError setLoading waiting error result].
        split; [reflexivity | intros H; now contradiction H].
    + destruct Inv as [Hw _]. rewrite Hw in Hr. destruct i; discriminate.
  - destruct (truthy (result (st w))); [|discriminate].
    injection Hr as <-. exact Inv.
Qed.

Lemma play_keeps_invariant (es : list Event) :
  forall w w',
    settled_or_waiting w -> play es w = Some w' -> settled_or_waiting w'.
Proof.
  induction es as [|e es IH]; intros w w' Inv Hp; cbn [play] in Hp.
  - now injection Hp as <-.
  - destruct (react e w) as [w1|] eqn:Hr; [|discriminate].
    exact (IH w1 w' (react_keeps_invariant e w w1 Inv Hr) Hp).
Qed.

Lemma failed_response_throws (res : Response) :
  ok res = false -> exists e, fst (read_response res false) = inl e.
Proof.
  intros Hok. unfold read_response. rewrite Hok. cbn [negb].
  unfold bind, throw.
  match goal with
  | |- context [try_catch ?m ?h false] =>
      destruct (try_catch m h false) as [[e|a] u]
  end; cbn [fst]; eauto.
Qed.

(** C1, as the page has it.  After any events on a fresh page, a result
    and an error are held together only when the error is the
    validation message.  A submission with files clears the error and
    the result before it issues its request.  When a fetch settles, a
    2xx response whose body parses sets the result to the parsed body
    and leaves the error null; every other outcome (a 2xx body that
    does not parse, a response outside 200 to 299, a rejected fetch)
    sets the error and leaves the result null.  A submission without
    files sets the error to the validation message and leaves the
    result held as it is. *)
Theorem exclusive_except_validation (es : list Event) (w : World) :
  play es boot = Some w ->
  (result (st w) <> JNull ->
   error (st w) <> None ->
   error (st w) = Some "Please select at least one PDF file.") /\
  (forall f fs w',
      files (st w) = Some (f :: fs) ->
      react Submit w = Some w' ->
      result (st w') = JNull /\ error (st w') = None /\
      exists req,
        history w' =
          history w ++ [DidPreventDefault; DidSetLoading true;
                        DidSetError None; DidSetResult JNull; DidFetch req]) /\
  (forall i o w',
      react (Settle i o) w = Some w' ->
      match o with
      | Resolved res =>
          if ok res then
            match JSON_parse (decoded_body res) with
            | Some v => result (st w') = v /\ error (st w') = None
            | None =>
                result (st w') = JNull /\
                error (st w') = Some (surfaced (SyntaxError (decoded_body res)))
            end
          else
            result (st w') = JNull /\
            exists x, error (st w') = Some (surfaced x)
      | Rejected x =>
          result (st w') = JNull /\ error (st w') = Some (surfaced x)
      end) /\
  (forall w',
      files (st w) = None \/ files (st w) = Some [] ->
      react Submit w = Some w' ->
      error (st w') = Some "Please select at least one PDF file." /\
      result (st w') = result (st w)).
Proof.
  intros Hp.
  assert (Inv : settled_or_waiting boot) by (split; [reflexivity | now intros H]).
  pose proof (play_keeps_invariant es boot w Inv Hp) as H.
  split; [|split; [|split]].
  - intros Hres Herr. unfold settled_or_waiting in H.
    destruct (loading (st w)).
    + destruct H as (_ & _ & H). contradiction.
    + destruct H as [_ H]. destruct (H Hres) as [E|E]; [contradiction | exact E].
  - intros f fs w' Hf Hr. unfold react in Hr.
    destruct (loading (st w)); [discriminate|].
    apply (f_equal (fun x => match x with Some y => y | None => w end)) in Hr.
    cbv beta iota in Hr. subst w'.
    rewrite (run_submit_files w f fs Hf). cbn [st history result error setResult].
    repeat split. eexists. reflexivity.
  - intros i o w' Hr. unfold react in Hr. unfold settled_or_waiting in H.
    destruct (loading (st w)).
    + destruct H as (Hw & He & Hres). rewrite Hw in Hr.
      destruct i as [|i]; [|destruct i; discriminate].
      cbn [nth_error remove_nth] in Hr. injection Hr as <-.
      destruct o as [x|res].
      * rewrite after_fetch_rejected, run_caught.
        cbn [st result error setLoading setError]. now split.
      * destruct (ok res) eqn:Hok.
        -- rewrite (after_fetch_ok res Hok).
           destruct (JSON_parse (decoded_body res)) as [v|].
           ++ rewrite run_result.
              cbn [st result error setLoading setResult]. now split.
           ++ rewrite run_caught.
              cbn [st result error setLoading setError]. now split.
        -- destruct (failed_response_throws res Hok) as [x Hx].
           unfold after_fetch. rewrite Hx, run_caught.
           cbn [st result error setLoading setError]. split; [exact Hres|].
           now exists x.
    + destruct H as [Hw _]. rewrite Hw in Hr. destruct i; discriminate.
  - intros w' Hf Hr. unfold react in Hr.
    destruct (loading (st w)); [discriminate|].
    apply (f_equal (fun x => match x with Some y => y | None => w end)) in Hr.
    cbv beta iota in Hr. subst w'.
    rewrite (run_submit_no_files w Hf). split; reflexivity.
Qed.

(** ** The result held comes from the parser *)

Lemma after_fetch_result_parsed (o : FetchOutcome) (v : Value) (k : Proc) :
  after_fetch o = SetResult v k ->
  exists text, JSON_parse text = Some v.
Proof.
  destruct o as [e|res]; [discriminate|].
  destruct (ok res) eqn:Hok.
  - rewrite (after_fetch_ok res Hok).
    destruct (JSON_parse (decoded_body res)) as [x|] eqn:E; [|discriminate].
    intros H. injection H as <- _. eauto.
  - destruct (failed_response_throws res Hok) as [e He].
    unfold after_fetch. rewrite He. discriminate.
Qed.

Lemma react_keeps_parsed (e : Event) (w w' : World) :
  settled_or_waiting w -> held_parsed w ->
  react e w = Some w' -> held_parsed w'.
Proof.
  unfold held_parsed. intros Inv Hp Hr.
  destruct e as [fs|t| |i o|]; unfold react in Hr.
  - injection Hr as <-. exact Hp.
  - injection Hr as <-. exact Hp.
  - destruct (loading (st w)) eqn:Hl; [discriminate|].
    apply (f_equal (fun x => match x with Some y => y | None => w end)) in Hr.
    cbv beta iota in Hr. subst w'.
    assert (Hcases : (files (st w) = None \/ files (st w) = Some []) \/
                     exists f fs, files (st w) = Some (f :: fs)).
    { destruct (files (st w)) as [[|f fs]|]; eauto. }
    destruct Hcases as [Hf|(f & fs & Hf)].
    + rewrite (run_submit_no_files w Hf). exact Hp.
    + rewrite (run_submit_files w f fs Hf). now left.
  - unfold settled_or_waiting in Inv. destruct (loading (st w)).
    + destruct Inv as (Hw & _ & Hres). rewrite Hw in Hr.
      destruct i as [|i]; [|destruct i; discriminate].
      cbn [nth_error remove_nth] in Hr. injection Hr as <-.
      destruct (after_fetch_shape o) as [[v Hv]|[x Hx]].
      * rewrite Hv, run_result. cbn [st result setResult setLoading].
        right. exact (after_fetch_result_parsed o v _ Hv).
      * rewrite Hx, run_caught. cbn [st result setError setLoading].
        now left.
    + destruct Inv as [Hw _]. rewrite Hw in Hr. destruct i; discriminate.
  - destruct (truthy (result (st w))); [|discriminate].
    injection Hr as <-. exact Hp.
Qed.

(** After any events on a fresh page, the result held is [null] or a
    value that [JSON.parse] returned. *)
Theorem held_result_parsed (es : list Event) :
  forall w w',
    settled_or_waiting w -> held_parsed w ->
    play es w = Some w' -> settled_or_waiting w' /\ held_parsed w'.
Proof.
  induction es as [|e es IH]; intros w w' Inv Hp H; cbn [play] in H.
  - injection H as <-. now split.
  - destruct (react e w) as [w1|] eqn:Hr; [|discriminate].
    exact (IH w1 w' (react_keeps_invariant e w w1 Inv Hr)
              (react_keeps_parsed e w w1 Inv Hp Hr) H).
Qed.

(** C8. On the page, after any events, for a held result that is an
    [AnalysisResult] with integer numbers, the export downloads a file
    named [<ticker>_analysis_<runId>.json] whose content is the result
    as JSON indented by two spaces, and parsing that content gives the
    result back. *)
Theorem export_round_trip (es : list Event) (w : World) (r : AnalysisResult.t) :
  play es boot = Some w ->
  decode (result (st w)) = Some r ->
  integral (result (st w)) ->
  exists d w',
    react Export w = Some w' /\
    history w' = history w ++ [DidDownload d] /\
    filename d =
      (AnalysisResult.ticker r ++ "_analysis_" ++ AnalysisResult.runId r
       ++ ".json")%string /\
    mime d = "application/json" /\
    content d = JSON_stringify (result (st w)) 2 /\
    JSON_parse (content d) = Some (result (st w)).
Proof.
  intros Hplay Hdec Hint.
  assert (Hwf : well_formed (result (st w))).
  { assert (Inv : settled_or_waiting boot)
      by (split; [reflexivity | now intros H]).
    destruct (held_result_parsed es boot w Inv (or_introl eq_refl) Hplay)
      as [_ [Hnull|[text Htext]]].
    - rewrite Hnull in Hdec. discriminate.
    - exact (JSFacts.parse_well_formed text _ Htext Hint). }
  destruct (export_well_formed (st w) r Hdec Hwf)
    as (d & Hd & Hname & Hmime & Hcontent & Hparse).
  destruct (decode_object _ _ Hdec) as (o & Hv & _).
  exists d. eexists. split.
  - unfold react. rewrite Hv. cbn [truthy]. rewrite <- Hv, Hd. reflexivity.
  - cbn [history]. repeat split; assumption.
Qed.

End Submission.

(** C1, as stated, fails on this run of the page: a file is picked and
    submitted, the service answers 200 with an analysis, the selection
    is emptied and the form submitted again.  The validation error is
    set and the earlier result is still held: both are non-null. *)
Theorem validation_error_keeps_result :
  exists w,
    @play example_platform
      [PickFiles (Some [Sample.report]); Submit;
       Settle 0 (Sample.http 200 Sample.analysis_body);
       PickFiles (Some []); Submit] boot = Some w /\
    result (st w) = encode Sample.analysis /\
    result (st w) <> JNull /\
    error (st w) = Some "Please select at least one PDF file.".
Proof.
  eexists. split; [vm_compute; reflexivity|].
  repeat split. discriminate.
Qed.

(** C4. A 500 response with the plain-text body [server down], and one
    with an empty body, both surface the error of the second read of the
    body, not the body text and not [HTTP 500]. *)
Theorem unparsable_error_body_surfaces_body_used :
  error (st (run (@after_fetch example_platform (Sample.http 500 "server down"))
                 Sample.submitted)) =
    Some "Failed to execute 'text' on 'Response': body stream already read" /\
  error (st (run (@after_fetch example_platform (Sample.http 500 ""))
                 Sample.submitted)) =
    Some "Failed to execute 'text' on 'Response': body stream already read".
Proof. split; vm_compute; reflexivity. Qed.

(** ** The theorems at sample inputs *)

Lemma exclusive_except_validation_witness :
  error (st Sample.revalidated) = Some "Please select at least one PDF file." /\
  (result (st Sample.answered) = encode Sample.analysis /\
   error (st Sample.answered) = None) /\
  result (st Sample.revalidated) = result (st Sample.answered).
Proof.
  assert (P1 : @play example_platform
                 [PickFiles (Some [Sample.report]); Submit;
                  Settle 0 (Sample.http 200 Sample.analysis_body);
                  PickFiles (Some []); Submit] boot
               = Some Sample.revalidated)
    by (vm_compute; reflexivity).
  assert (P2 : @play example_platform
                 [PickFiles (Some [Sample.report]); Submit] boot
               = Some Sample.submitted)
    by reflexivity.
  assert (P3 : @react example_platform
                 (Settle 0 (Sample.http 200 Sample.analysis_body))
                 Sample.submitted
               = Some Sample.answered)
    by (vm_compute; reflexivity).
  assert (P4 : @play example_platform
                 [PickFiles (Some [Sample.report]); Submit;
                  Settle 0 (Sample.http 200 Sample.analysis_body);
                  PickFiles (Some [])] boot
               = Some (run (@handleFileChange (Some [])) Sample.answered))
    by (vm_compute; reflexivity).
  assert (P5 : @react example_platform Submit
                 (run (@handleFileChange (Some [])) Sample.answered)
               = Some Sample.revalidated)
    by (vm_compute; reflexivity).
  assert (N1 : result (st Sample.revalidated) <> JNull)
    by (vm_compute; discriminate).
  assert (N2 : error (st Sample.revalidated) <> None)
    by (vm_compute; discriminate).
  split; [|split].
  - exact (proj1 (@exclusive_except_validation example_platform _ _ P1) N1 N2).
  - pose proof (proj1 (proj2 (proj2
                  (@exclusive_except_validation example_platform _ _ P2)))
                  0%nat _ _ P3) as H.
    vm_compute in H. vm_compute. exact H.
  - exact (proj2 (proj2 (proj2 (proj2
             (@exclusive_except_validation example_platform _ _ P4)))
             _ (or_intror eq_refl) P5)).
Defined.

Lemma submit_without_files_witness :
  exists w',
    @react example_platform Submit boot = Some w' /\
    requests (history w') = [] /\
    loading (st w') = false /\
    error (st w') = Some "Please select at least one PDF file.".
Proof.
  destruct (@submit_without_files example_platform boot)
    as (w' & H1 & H2 & _ & H4 & H5);
    [reflexivity | left; reflexivity |].
  exists w'. repeat split; assumption.
Defined.

Lemma submit_issues_one_request_witness :
  exists w1,
    @react example_platform Submit Sample.file_picked = Some w1 /\
    requests (history w1) =
      [{| url := "http://localhost:4000/api/analyze";
          method := "POST";
          form := [("ticker", FText "VOLV-B");
                   ("files", FFile Sample.report)] |}] /\
    forall o, exists w2,
      @react example_platform (Settle 0 o) w1 = Some w2 /\
      requests (history w2) = requests (history w1).
Proof.
  destruct (@submit_issues_one_request example_platform Sample.file_picked
              Sample.report [])
    as (w1 & H1 & H2 & _ & H4);
    [reflexivity | reflexivity |].
  exists w1. repeat split; assumption.
Defined.

Lemma service_error_message_surfaced_witness :
  error (st (run (@after_fetch example_platform
                    (Sample.http 500 Sample.boom_body))
                 Sample.submitted)) = Some "boom".
Proof.
  apply (@service_error_message_surfaced example_platform Sample.submitted
           {| status := 500; body := Some Sample.boom_body |}
           [("error", JStr "boom")] "boom");
    [reflexivity | vm_compute; reflexivity | reflexivity | discriminate].
Defined.

Lemma transport_failure_message_witness :
  error (st (run (@after_fetch example_platform Sample.connection_refused)
                 Sample.submitted)) = Some "Failed to fetch" /\
  error (st (run (@after_fetch example_platform
                    (Rejected {| error_name := "Error"; message := "" |}))
                 Sample.submitted)) = Some "Unknown error" /\
  error (st (run (@after_fetch example_platform (Sample.http 200 "<html>"))
                 Sample.submitted)) =
    Some "Unexpected token in JSON at position 0".
Proof.
  destruct (@transport_failure_message example_platform Sample.submitted)
    as [H1 H2].
  split; [exact (H1 _) | split; [exact (H1 _) |]].
  apply (H2 {| status := 200; body := Some "<html>" |});
    [reflexivity | vm_compute; reflexivity].
Defined.

Lemma loading_brackets_submission_witness :
  exists w1,
    @react example_platform Submit Sample.file_picked = Some w1 /\
    loading (st w1) = true /\
    @react example_platform Submit w1 = None /\
    forall o, exists w2,
      @react example_platform (Settle 0 o) w1 = Some w2 /\
      loading (st w2) = false /\
      waiting w2 = [].
Proof.
  destruct (@loading_brackets_submission example_platform Sample.file_picked
              Sample.report [])
    as (w1 & req & H1 & _ & H3 & _ & H5 & H6);
    [reflexivity | reflexivity |].
  exists w1. repeat split; try assumption.
  intros o. destruct (H6 o) as (w2 & done & K1 & _ & K3 & K4 & _).
  exists w2. repeat split; assumption.
Defined.

Lemma export_round_trip_witness :
  exists d w',
    @react example_platform Export Sample.answered = Some w' /\
    history w' = history Sample.answered ++ [DidDownload d] /\
    filename d = "VOLV-B_analysis_run-42.json" /\
    JSON_parse (content d) = Some (encode Sample.analysis).
Proof.
  destruct (@export_round_trip example_platform
              [PickFiles (Some [Sample.report]); Submit;
               Settle 0 (Sample.http 200 Sample.analysis_body)]
              Sample.answered Sample.analysis)
    as (d & w' & H1 & H2 & H3 & _ & _ & H6);
    [vm_compute; reflexivity | reflexivity | vm_compute; repeat split |].
  exists d, w'. split; [exact H1 | split; [exact H2 | split; [exact H3 | exact H6]]].
Defined.

Lemma presenter_shows_result_witness :
  exists page,
    @view example_platform (setResult (encode Sample.analysis) initial)
      = Some page /\
    In (El "h3" [] [Text "Trust (Transparency): "; Text "82"; Text "/100"])
       (nodes (@result_panel example_platform Sample.analysis)) /\
    In (El "h4" [] [Text "Transparency Recommendations:"])
       (nodes (@result_panel example_platform Sample.analysis)) /\
    ~ In (El "h4" [] [Text "Differentiation Recommendations:"])
         (nodes (@result_panel example_platform Sample.analysis)).
Proof.
  destruct (@presenter_shows_result example_platform
              (setResult (encode Sample.analysis) initial) Sample.analysis)
    as (page & H1 & _ & _ & H4 & _ & _ & _ & H8 & _ & H10 & _);
    [reflexivity |].
  exists page. split; [exact H1|]. split; [exact H4|]. split.
  - apply H8. discriminate.
  - intros H. apply H10 in H. now apply H.
Defined.

Lemma any_json_becomes_result_witness :
  result (st (run (@after_fetch example_platform (Sample.http 200 "{}"))
                  Sample.submitted)) = JObj [] /\
  result (st (run (@after_fetch example_platform
                     (Sample.http 200 Sample.boom_body))
                  Sample.submitted)) = JObj [("error", JStr "boom")] /\
  error (st (run (@after_fetch example_platform
                    (Sample.http 200 Sample.boom_body))
                 Sample.submitted)) = None.
Proof.
  pose proof (@any_json_becomes_result example_platform Sample.submitted
                {| status := 200; body := Some "{}" |} eq_refl) as H1.
  pose proof (@any_json_becomes_result example_platform Sample.submitted
                {| status := 200; body := Some Sample.boom_body |} eq_refl) as H2.
  vm_compute in H1. vm_compute in H2.
  destruct H1 as (A & _). destruct H2 as (B & C & _).
  split; [exact A | split; [exact B | exact C]].
Defined.

End PageFacts.

(* ================================================================== *)
(** * Further facts about the page *)
(* ================================================================== *)

Module PageLaws.
Import JS Web Page PageFacts.
Unset Implicit Arguments.

Lemma settlements_app (h h' : list Action) :
  settlements (h ++ h') = (settlements h + settlements h')%nat.
Proof.
  induction h as [|a h IH]; simpl; [reflexivity|].
  destruct a as [| | |[|]| | | | |]; simpl; now rewrite IH.
Qed.

Section Laws.
Context {PF : Platform}.

(** ** One step of the page, case by case *)

Lemma react_cases (e : Event) (w w' : World) :
  settled_or_waiting w -> react e w = Some w' ->
  (exists fs,
      e = PickFiles fs /\
      w' = {| st := setFiles fs (st w); waiting := waiting w;
              history := history w ++ [DidSetFiles fs] |}) \/
  (exists t,
      e = PickTicker t /\
      w' = {| st := setTicker t (st w); waiting := waiting w;
              history := history w ++ [DidSetTicker t] |}) \/
  (e = Submit /\ loading (st w) = false /\
   (files (st w) = None \/ files (st w) = Some []) /\
   w' = {| st := setError (Some no_files_message) (st w);
           waiting := waiting w;
           history := history w ++ [DidPreventDefault;
                                    DidSetError (Some no_files_message)] |}) \/
  (exists f fs,
      e = Submit /\ loading (st w) = false /\ waiting w = [] /\
      files (st w) = Some (f :: fs) /\
      w' = {| st := setResult JNull (setError None (setLoading true (st w)));
              waiting := [after_fetch];
              history := history w ++
                [DidPreventDefault; DidSetLoading true; DidSetError None;
                 DidSetResult JNull;
                 DidFetch {| url := endpoint; method := "POST";
                             form := build_form (ticker (st w)) (f :: fs) |}] |}) \/
  (exists o v,
      e = Settle 0 o /\ loading (st w) = true /\ waiting w = [after_fetch] /\
      after_fetch o = SetResult v (SetLoading false Done) /\
      w' = {| st := setLoading false (setResult v (st w)); waiting := [];
              history := history w ++ [DidSetResult v; DidSetLoading false] |}) \/
  (exists o x,
      e = Settle 0 o /\ loading (st w) = true /\ waiting w = [after_fetch] /\
      after_fetch o = caught x /\
      w' = {| st := setLoading false (setError (Some (surfaced x)) (st w));
              waiting := [];
              history := history w ++ [DidConsoleError "Fetch error:" x;
                                       DidSetError (Some (surfaced x));
                                       DidSetLoading false] |}) \/
  (e = Export /\ truthy (result (st w)) = true /\
   w' = {| st := st w; waiting := waiting w;
           history := history w ++
             match handleExportJson (result (st w)) with
             | Some d => [DidDownload d]
             | None => []
             end |}).
Proof.
  unfold settled_or_waiting. intros Inv Hr.
  destruct e as [fs|t| |i o|]; unfold react in Hr.
  - left. exists fs. injection Hr as <-. split; reflexivity.
  - right; left. exists t. injection Hr as <-. split; reflexivity.
  - destruct (loading (st w)) eqn:Hl; [discriminate|].
    apply (f_equal (fun x => match x with Some y => y | None => w end)) in Hr.
    cbv beta iota in Hr. subst w'. destruct Inv as [Hw _].
    assert (Hcases : (files (st w) = None \/ files (st w) = Some []) \/
                     exists f fs, files (st w) = Some (f :: fs)).
    { destruct (files (st w)) as [[|f fs]|]; eauto. }
    destruct Hcases as [Hf|(f & fs & Hf)].
    + right; right; left. rewrite (run_submit_no_files w Hf). auto.
    + right; right; right; left. exists f, fs.
      rewrite (run_submit_files w f fs Hf). rewrite Hw. auto 6.
  - destruct (loading (st w)) eqn:Hl.
    + destruct Inv as (Hw & _ & _). rewrite Hw in Hr.
      destruct i as [|i]; [|destruct i; discriminate].
      cbn [nth_error remove_nth] in Hr. injection Hr as <-.
      destruct (after_fetch_shape o) as [[v Hv]|[x Hx]].
      * do 4 right; left. exists o, v. rewrite Hv, run_result. auto 6.
      * do 5 right; left. exists o, x. rewrite Hx, run_caught. auto 6.
    + destruct Inv as [Hw _]. rewrite Hw in Hr. destruct i; discriminate.
  - do 6 right. destruct (truthy (result (st w))); [|discriminate].
    injection Hr as <-. auto.
Qed.

Lemma boot_settled : settled_or_waiting boot.
Proof. split; [reflexivity | now intros H]. Qed.

(** What every step keeps, the page keeps over all its runs. *)
Lemma play_keeps (P : World -> Prop) :
  (forall e w w', settled_or_waiting w -> P w -> react e w = Some w' -> P w') ->
  forall es w w', settled_or_waiting w -> P w -> play es w = Some w' -> P w'.
Proof.
  intros Step es. induction es as [|e es IH]; intros w w' Inv HP Hp;
    cbn [play] in Hp.
  - now injection Hp as <-.
  - destruct (react e w) as [w1|] eqn:Hr; [|discriminate].
    exact (IH w1 w' (react_keeps_invariant e w w1 Inv Hr)
              (Step e w w1 Inv HP Hr) Hp).
Qed.


(** ** The selection and the request *)

(** X1. The request carries the selection as it is when the form is
    submitted: whatever was picked before, the files of the last pick,
    however many, and the ticker last chosen. *)
Theorem submit_sends_latest_selection
    (w : World) (fs0 : option (list File)) (t0 t : Ticker)
    (f : File) (fs : list File) :
  loading (st w) = false ->
  exists w',
    play [PickFiles fs0; PickTicker t0; PickFiles (Some (f :: fs));
          PickTicker t; Submit] w = Some w' /\
    requests (history w') =
      requests (history w) ++
      [{| url := "http://localhost:4000/api/analyze";
          method := "POST";
          form := ("ticker", FText (ticker_value t))
                  :: map (fun x => ("files", FFile x)) (f :: fs) |}] /\
    files (st w') = Some (f :: fs) /\
    ticker (st w') = t.
Proof.
  intros Hl.
  set (w4 := run (handleTickerChange t)
               (run (handleFileChange (Some (f :: fs)))
                  (run (handleTickerChange t0)
                     (run (handleFileChange fs0) w)))).
  assert (Hf : files (st w4) = Some (f :: fs)) by reflexivity.
  assert (Hl4 : loading (st w4) = false) by exact Hl.
  assert (Ht : ticker (st w4) = t) by reflexivity.
  assert (Hh : history w4 =
               history w ++ [DidSetFiles fs0; DidSetTicker t0;
                             DidSetFiles (Some (f :: fs)); DidSetTicker t]).
  { subst w4. cbn [run handleTickerChange handleFileChange act history].
    now rewrite <- !app_assoc. }
  exists (run (handleSubmit (files (st w4)) (ticker (st w4))) w4). split.
  - change (match react Submit w4 with
            | Some w' => play [] w'
            | None => None
            end =
            Some (run (handleSubmit (files (st w4)) (ticker (st w4))) w4)).
    unfold react. now rewrite Hl4.
  - rewrite (run_submit_files w4 f fs Hf). cbn [st history].
    rewrite Hh, Ht, !requests_app. cbn [requests]. rewrite app_nil_r.
    repeat split.
Qed.

(** ** Requests over all runs of the page *)

(** X2. After any events on a fresh page at most one request is in flight,
    [loading] is true exactly while one is, and every request issued
    before has had its [finally] block run once. *)
Theorem one_request_in_flight (es : list Event) (w : World) :
  play es boot = Some w ->
  (List.length (waiting w) <= 1)%nat /\
  (loading (st w) = true <-> waiting w <> []) /\
  List.length (requests (history w)) =
    (settlements (history w) + List.length (waiting w))%nat.
Proof.
  intros Hp.
  pose proof (play_keeps_invariant es boot w boot_settled Hp) as Inv.
  assert (Hcount : List.length (requests (history w)) =
                   (settlements (history w) + List.length (waiting w))%nat).
  { refine (play_keeps
              (fun w => List.length (requests (history w)) =
                        (settlements (history w) + List.length (waiting w))%nat)
              _ es boot w boot_settled eq_refl Hp).
    clear. intros e w w' Inv H Hr.
    destruct (react_cases e w w' Inv Hr)
      as [(fs & _ & ->)|[(t & _ & ->)|[(_ & _ & _ & ->)|
          [(f & fs & _ & _ & Hw & _ & ->)|[(o & v & _ & _ & Hw & _ & ->)|
          [(o & x & _ & _ & Hw & _ & ->)|(_ & _ & ->)]]]]]];
      cbn [history waiting]; rewrite ?Hw in H;
      rewrite requests_app, settlements_app, length_app, H;
      cbn [requests settlements List.length]; try lia.
    destruct (handleExportJson (result (st w))); cbn; lia. }
  unfold settled_or_waiting in Inv.
  destruct (loading (st w)).
  - destruct Inv as (Hw & _ & _). rewrite Hw in *. cbn [List.length] in *.
    repeat split; try lia; discriminate.
  - destruct Inv as (Hw & _). rewrite Hw in *. cbn [List.length] in *.
    repeat split; try lia; try discriminate. intros H. now contradiction H.
Qed.

(** X3. After any events on a fresh page, every request ever issued is a
    POST to the analysis endpoint whose form is a ticker of the select
    followed by at least one file. *)
Theorem every_request_has_a_file (es : list Event) (w : World) :
  play es boot = Some w ->
  Forall (fun req =>
            url req = "http://localhost:4000/api/analyze" /\
            method req = "POST" /\
            exists t f fs,
              form req = ("ticker", FText (ticker_value t))
                         :: map (fun x => ("files", FFile x)) (f :: fs))
         (requests (history w)).
Proof.
  intros Hp.
  refine (play_keeps (fun w => Forall _ (requests (history w)))
            _ es boot w boot_settled (Forall_nil _) Hp).
  clear. intros e w w' Inv H Hr.
  destruct (react_cases e w w' Inv Hr)
    as [(fs & _ & ->)|[(t & _ & ->)|[(_ & _ & _ & ->)|
        [(f & fs & _ & _ & Hw & _ & ->)|[(o & v & _ & _ & Hw & _ & ->)|
        [(o & x & _ & _ & Hw & _ & ->)|(_ & _ & ->)]]]]]];
    cbn [history]; rewrite requests_app; apply Forall_app; split;
    try exact H; cbn [requests]; try constructor.
  - repeat split. now exists (ticker (st w)), f, fs.
  - constructor.
  - destruct (handleExportJson (result (st w))); constructor.
Qed.


(** ** The form as rendered *)

Lemma surfaced_not_empty (x : JsError) : surfaced x <> "".
Proof.
  unfold surfaced. destruct (String.eqb (message x) "") eqn:E.
  - discriminate.
  - intros H. rewrite H in E. discriminate.
Qed.

(** The nodes of the list of selected files. *)
Lemma nodes_selected_files (s : State) (n : Node) :
  In n (flat_map nodes (selected_files s)) ->
  exists f fs,
    files s = Some (f :: fs) /\
    (n = El "div" []
           [Text "Selected Files:";
            El "ul" [] (map (fun file => El "li" [] [Text (file_name file)])
                            (f :: fs))] \/
     n = Text "Selected Files:" \/
     n = El "ul" [] (map (fun file => El "li" [] [Text (file_name file)])
                         (f :: fs)) \/
     (exists file, n = El "li" [] [Text (file_name file)]) \/
     (exists file, n = Text (file_name file))).
Proof.
  unfold selected_files. destruct (files s) as [[|f fs]|]; try contradiction.
  intros H. exists f, fs. split; [reflexivity|].
  cbn [flat_map nodes app] in H. rewrite app_nil_r in H.
  destruct H as [<-|[<-|[<-|H]]]; auto.
  rewrite app_nil_r in H. right; right; right.
  change (In n (flat_map nodes
                  (map (fun file => El "li" [] [Text (file_name file)])
                       (f :: fs)))) in H.
  induction (f :: fs) as [|x l IH]; [contradiction|].
  cbn [map flat_map nodes app] in H.
  destruct H as [<-|[<-|H]]; eauto.
Qed.

(** The nodes of the form: the form itself and its fixed parts, none of
    them a paragraph or a list, the submit button, the list of selected
    files and the error line. *)
Lemma nodes_form (s : State) (n : Node) :
  In n (nodes (form_node s)) ->
  (exists t, n = Text t) \/
  (exists tag a c,
      n = El tag a c /\
      In tag ["form"; "div"; "label"; "select"; "option"; "input"]) \/
  n = submit_button s \/
  In n (flat_map nodes (selected_files s)) \/
  (exists e, error s = Some e /\ e <> "" /\ n = El "p" [] [Text e]).
Proof.
  unfold form_node. cbn [nodes]. intros [<-|H].
  { right; left. do 3 eexists. split; [reflexivity|]. cbn; auto. }
  rewrite flat_map_app in H. apply in_app_or in H. destruct H as [H|H].
  - cbn [flat_map nodes app] in H.
    repeat (destruct H as [<-|H];
            [first [ left; eexists; reflexivity
                   | right; left; do 3 eexists;
                     split; [reflexivity | cbn; tauto]
                   | right; right; left; reflexivity ] |]).
    apply in_app_or in H. destruct H as [H|H].
    + right; right; right; left. exact H.
    + rewrite app_nil_r in H. unfold submit_button in *.
      cbn [nodes flat_map app] in H.
      destruct H as [<-|[<-|H]]; [| |contradiction].
      * right; right; left. reflexivity.
      * left. eexists; reflexivity.
  - unfold error_line in H. destruct (error s) as [e|]; [|contradiction].
    destruct (String.eqb e "") eqn:E; [contradiction|].
    cbn [when negb flat_map nodes app] in H.
    destruct H as [<-|[<-|H]]; [| |contradiction].
    + do 4 right. exists e. repeat split. intros ->. discriminate.
    + left. eexists; reflexivity.
Qed.

Lemma selected_files_in_form (s : State) (n : Node) :
  In n (flat_map nodes (selected_files s)) -> In n (nodes (form_node s)).
Proof.
  intros H. unfold form_node. cbn [nodes]. right.
  rewrite flat_map_app. apply in_or_app. left.
  cbn [flat_map nodes app].
  repeat first [apply in_or_app; left; exact H | right].
Qed.

Lemma error_line_in_form (s : State) (n : Node) :
  In n (error_line s) -> In n (nodes (form_node s)).
Proof.
  intros H. unfold form_node. cbn [nodes]. right.
  rewrite flat_map_app. apply in_or_app. right.
  apply in_flat_map. exists n. split; [exact H | apply nodes_self].
Qed.

(** X4. The form lists the names of the selected files, in order, when at
    least one file is selected, and has no list otherwise. *)
Theorem selected_files_are_listed (s : State) (l : list Node) :
  In (El "ul" [] l) (nodes (form_node s)) <->
  exists f fs,
    files s = Some (f :: fs) /\
    l = map (fun file => El "li" [] [Text (file_name file)]) (f :: fs).
Proof.
  split.
  - intros H.
    destruct (nodes_form s _ H)
      as [[t E]|[(tag & a & c & E & Htag)|[E|[Hs|(e & _ & _ & E)]]]];
      try discriminate.
    + injection E as <- _ _. cbn in Htag.
      repeat (destruct Htag as [Htag|Htag]; [discriminate|]). contradiction.
    + destruct (nodes_selected_files s _ Hs)
        as (f & fs & Hf & [E|[E|[E|[[x E]|[x E]]]]]); try discriminate.
      injection E as ->. now exists f, fs.
  - intros (f & fs & Hf & ->). apply selected_files_in_form.
    unfold selected_files. rewrite Hf. cbn [flat_map nodes app].
    right; right; left. reflexivity.
Qed.

(** X5. After any events on a fresh page an error held is not the empty
    string, and the paragraphs of the form are exactly the error held:
    one paragraph with the message when there is an error, none when
    there is not. *)
Theorem error_is_shown
    (es : list Event) (w : World) (a : list Attr) (c : list Node) :
  play es boot = Some w ->
  (forall e, error (st w) = Some e -> e <> "") /\
  (In (El "p" a c) (nodes (form_node (st w))) <->
   exists e, error (st w) = Some e /\ a = [] /\ c = [Text e]).
Proof.
  intros Hp.
  assert (Hne : forall e, error (st w) = Some e -> e <> "").
  { refine (play_keeps (fun w => forall e, error (st w) = Some e -> e <> "")
              _ es boot w boot_settled _ Hp); [|discriminate].
    clear. intros e w w' Inv H Hr.
    destruct (react_cases e w w' Inv Hr)
      as [(fs & _ & ->)|[(t & _ & ->)|[(_ & _ & _ & ->)|
          [(f & fs & _ & _ & Hw & _ & ->)|[(o & v & _ & _ & Hw & _ & ->)|
          [(o & x & _ & _ & Hw & _ & ->)|(_ & _ & ->)]]]]]];
      cbn [st error setFiles setTicker setError setResult setLoading];
      try exact H; intros m Hm; try discriminate.
    - injection Hm as <-. discriminate.
    - injection Hm as <-. apply surfaced_not_empty. }
  split; [exact Hne|]. split.
  - intros H.
    destruct (nodes_form (st w) _ H)
      as [[t E]|[(tag & a' & c' & E & Htag)|[E|[Hs|(e & He & _ & E)]]]];
      try discriminate.
    + injection E as <- _ _. cbn in Htag.
      repeat (destruct Htag as [Htag|Htag]; [discriminate|]). contradiction.
    + destruct (nodes_selected_files (st w) _ Hs)
        as (f & fs & Hf & [E|[E|[E|[[x E]|[x E]]]]]); discriminate.
    + injection E as -> ->. now exists e.
  - intros (e & He & -> & ->). apply error_line_in_form.
    unfold error_line. rewrite He.
    destruct (String.eqb e "") eqn:E.
    + apply String.eqb_eq in E. now destruct (Hne e He).
    + left. reflexivity.
Qed.

Lemma panel_has_export (v : Value) (p : Node) :
  panel v = Some p ->
  In (El "button" [On OnExportClick] [Text "Export JSON"]) (nodes p).
Proof.
  unfold panel. intros H.
  destruct (get_prop v "ticker") as [t|]; [|discriminate H].
  destruct (get_prop v "trustScore") as [ts|]; [|discriminate H].
  destruct (get_prop v "trustJustification") as [tj|]; [|discriminate H].
  destruct (get_prop v "trustRecommendations") as [tr|]; [|discriminate H].
  destruct (get_prop v "growthScore") as [gs|]; [|discriminate H].
  destruct (get_prop v "growthJustification") as [gj|]; [|discriminate H].
  destruct (get_prop v "growthRecommendations") as [gr|]; [|discriminate H].
  destruct (get_prop v "summary") as [su|]; [|discriminate H].
  destruct (get_prop v "runId") as [ri|]; [|discriminate H].
  destruct (child_or_undefined t) as [ct|]; [|discriminate H].
  destruct (score_section_of _ ts tj _ tr) as [trust|]; [|discriminate H].
  destruct (score_section_of _ gs gj _ gr) as [growth|]; [|discriminate H].
  destruct (child_or_undefined su) as [csu|]; [|discriminate H].
  destruct (child_or_undefined ri) as [cri|]; [|discriminate H].
  injection H as <-. cbn [nodes]. right. apply in_flat_map.
  exists (El "div" [] [El "button" [On OnExportClick] [Text "Export JSON"]]).
  split; [do 5 right; left; reflexivity|].
  right. left. reflexivity.
Qed.

(** X6. Whatever the result held, when the page renders, the Export
    JSON button is on it exactly when the result is truthy: the panel
    of any truthy result has the button, and with a falsy result the
    page has no export control. *)
Theorem export_button_iff_result (s : State) (page : Node) :
  view s = Some page ->
  (In (El "button" [On OnExportClick] [Text "Export JSON"]) (nodes page) <->
   truthy (result s) = true).
Proof.
  intros Hv. unfold view in Hv. destruct (truthy (result s)) eqn:Ht.
  - split; [reflexivity|]. intros _.
    destruct (panel (result s)) as [p|] eqn:Hp; [|discriminate].
    injection Hv as <-. cbn [nodes]. right.
    apply in_flat_map. exists p.
    split; [right; right; left; reflexivity|].
    exact (panel_has_export _ _ Hp).
  - split; [|discriminate]. intros H. injection Hv as <-.
    cbn [nodes app flat_map] in H.
    destruct H as [E|[E|[E|H]]]; try discriminate.
    apply in_app_or in H. destruct H as [H|H].
    + destruct (nodes_form s _ H)
        as [[t E]|[(tag & a' & c' & E & Htag)|[E|[Hs|(e & He & _ & E)]]]];
        try discriminate.
      * injection E as <- _ _. cbn in Htag.
        repeat (destruct Htag as [Htag|Htag]; [discriminate|]). contradiction.
      * destruct (nodes_selected_files s _ Hs)
          as (f & fs & Hf & [E|[E|[E|[[x E]|[x E]]]]]); discriminate.
    + destruct (result s) as [| |n| | |]; cbn [falsy_child flat_map nodes app] in H;
        try contradiction.
      destruct H as [E|H]; [discriminate | contradiction].
Qed.

(** ** Responses that are not a success *)

Lemma surfaced_Error (s : string) : s <> "" -> surfaced (Error s) = s.
Proof.
  intros H. unfold surfaced. cbn [message Error].
  destruct (String.eqb s "") eqn:E; [|reflexivity].
  apply String.eqb_eq in E. contradiction.
Qed.

Lemma stringify_not_empty (v : Value) (gap : nat) :
  (forall l, v <> JNum (NOther l)) -> JSON_stringify v gap <> "".
Proof.
  intros Hv H. unfold JSON_stringify in H.
  assert (E : stringify_at gap 0 v = []).
  { destruct (stringify_at gap 0 v); [reflexivity | discriminate]. }
  clear H. destruct v as [|[|]|[z|l]|s|[|x l]|[|kv o]];
    try discriminate; [|now contradiction (Hv l)].
  cbn [stringify_at number_chars] in E. unfold Z_to_chars in E.
  destruct (z <? 0); [discriminate|].
  destruct (JSFacts.N_to_chars_head (Z.to_N z)) as (c & r & Hc & _).
  rewrite Hc in E. discriminate.
Qed.

(** X7. A response outside 200 to 299 never becomes the result: whatever
    its body, the handler logs one error with the label of line 63, sets
    a non-empty error message, sets [loading] to false and leaves the
    result, the selection and the waiting handlers as they were. *)
Theorem failed_response_sets_error_only (w : World) (res : Response) :
  ok res = false ->
  let w' := run (after_fetch (Resolved res)) w in
  exists x,
    history w' = history w ++ [DidConsoleError "Fetch error:" x;
                               DidSetError (Some (surfaced x));
                               DidSetLoading false] /\
    error (st w') = Some (surfaced x) /\
    surfaced x <> "" /\
    result (st w') = result (st w) /\
    loading (st w') = false /\
    files (st w') = files (st w) /\
    ticker (st w') = ticker (st w) /\
    waiting w' = waiting w.
Proof.
  intros Hok w'. subst w'.
  destruct (failed_response_throws res Hok) as [x Hx].
  exists x. unfold after_fetch. rewrite Hx, run_caught.
  cbn [st history waiting]. repeat split. apply surfaced_not_empty.
Qed.

(** X8. A response outside 200 to 299 whose body is JSON without a truthy
    [error] property (no such property, or one that is null, false, 0
    or empty; an array, a number, a string, a boolean) surfaces the text
    of that JSON, compact, whatever numbers it holds: [e.message] is
    that text, and it is not empty unless the body is a single number
    that is not an integer and the platform prints as nothing.  With
    integer numbers the message parses back to the value the service
    sent. *)
Theorem error_json_without_message_surfaces_json
    (w : World) (res : Response) (errJson : Value) (e : MaybeUndefined) :
  ok res = false ->
  JSON_parse (decoded_body res) = Some errJson ->
  get_prop errJson "error" = Some e ->
  truthy_or_undefined e = false ->
  let shown := error (st (run (after_fetch (Resolved res)) w)) in
  shown = Some (surfaced (Error (JSON_stringify errJson 0))) /\
  ((forall l, errJson <> JNum (NOther l)) ->
   shown = Some (JSON_stringify errJson 0)) /\
  (integral errJson ->
   JSON_parse (JSON_stringify errJson 0) = Some errJson).
Proof.
  intros Hok Hparse Hget Hfalsy shown.
  assert (Hs : shown = Some (surfaced (Error (JSON_stringify errJson 0)))).
  { subst shown.
    rewrite (after_fetch_error_json res errJson e Hok Hparse Hget), run_caught.
    cbn [st error setLoading setError]. do 2 f_equal.
    destruct e as [v|]; [|reflexivity].
    cbn [truthy_or_undefined] in Hfalsy. now rewrite Hfalsy. }
  split; [exact Hs|]. split.
  - intros Hv. rewrite Hs. f_equal.
    apply surfaced_Error, stringify_not_empty, Hv.
  - intros Hint. apply JSFacts.parse_stringify.
    exact (JSFacts.parse_well_formed _ _ Hparse Hint).
Qed.

(** X9. A response outside 200 to 299 whose JSON body has a truthy [error]
    property that is not a string surfaces that property converted to a
    string: a number in decimal, [true], an array as its elements joined
    by commas, an object as [[object Object]]; [Unknown error] when the
    conversion gives the empty string, and the message of the TypeError
    when the conversion throws. *)
Theorem error_property_surfaces_as_string
    (w : World) (res : Response) (o : Obj) (m : Value) :
  ok res = false ->
  JSON_parse (decoded_body res) = Some (JObj o) ->
  obj_get "error" o = Some m ->
  truthy m = true ->
  error (st (run (after_fetch (Resolved res)) w)) =
    Some (match to_string m with
          | Some s => if String.eqb s "" then "Unknown error" else s
          | None => surfaced (TypeError NotPrimitive)
          end).
Proof.
  intros Hok Hparse Hget Ht.
  assert (Hp : get_prop (JObj o) "error" = Some (Some m))
    by (cbn [get_prop]; now rewrite Hget).
  rewrite (after_fetch_error_json res (JObj o) (Some m) Hok Hparse Hp),
    run_caught.
  cbn [st error setLoading setError]. rewrite Ht. unfold new_Error.
  destruct (to_string m) as [s|]; reflexivity.
Qed.

(** X10. A response outside 200 to 299 with a body that is not JSON, or that
    is the JSON [null], never surfaces its body text: [res.json()] has
    read the body, so [res.text()] in the inner [catch] throws, and the
    message surfaced is that of this TypeError. *)
Theorem text_fallback_reads_a_consumed_body
    (w : World) (res : Response) (t : string) :
  ok res = false ->
  body res = Some t ->
  JSON_parse (utf8_decode t) = None \/ JSON_parse (utf8_decode t) = Some JNull ->
  error (st (run (after_fetch (Resolved res)) w)) =
    Some (surfaced (TypeError (BodyUsed "text"))).
Proof.
  intros Hok Hbody Hparse.
  assert (E : after_fetch (Resolved res) = caught (TypeError (BodyUsed "text"))).
  { destruct Hparse as [Hparse|Hparse].
    - exact (after_fetch_error_text res t Hok Hbody Hparse).
    - unfold after_fetch, read_response. rewrite Hok. cbn [negb].
      unfold try_catch, json, text, bind, consume, read_error_property,
        ret, throw.
      rewrite Hbody, Hparse. reflexivity. }
  rewrite E, run_caught. reflexivity.
Qed.

(** X11. A response outside 200 to 299 with a null body surfaces
    [HTTP <status>], the status in decimal: the one case in which the
    text fallback is reached with a readable body. *)
Theorem null_body_surfaces_status (w : World) (res : Response) :
  ok res = false ->
  body res = None ->
  error (st (run (after_fetch (Resolved res)) w)) =
    Some ("HTTP " ++ Z_to_string (status res))%string.
Proof.
  intros Hok Hbody.
  rewrite (after_fetch_error_null_body res Hok Hbody), run_caught.
  reflexivity.
Qed.

(** ** Responses that are a success *)

(** X12. A 2xx response whose body is JSON for a falsy value ([null],
    [false], [0], the empty string) is stored as the result and sets no
    error; the export then does nothing, and for a value that is not a
    number the page looks as it does with no result: the heading and
    the form only. *)
Theorem falsy_success_body_shows_nothing
    (w : World) (res : Response) (v : Value) :
  ok res = true ->
  JSON_parse (decoded_body res) = Some v ->
  truthy v = false ->
  let w' := run (after_fetch (Resolved res)) w in
  result (st w') = v /\
  error (st w') = error (st w) /\
  handleExportJson (result (st w')) = None /\
  ((forall n, v <> JNum n) ->
   view (st w') =
     Some (El "div" [] [El "h1" [] [Text "Trust & Growth Analyzer"];
                        form_node (st w')])).
Proof.
  intros Hok Hparse Ht w'. subst w'.
  rewrite (after_fetch_ok res Hok), Hparse, run_result.
  unfold view, handleExportJson. cbn [st result error setLoading setResult].
  rewrite Ht. split; [reflexivity|]. split; [reflexivity|].
  split; [reflexivity|]. intros Hn.
  destruct v as [| |n| | |]; try reflexivity.
  now contradiction (Hn n).
Qed.

(** X13. A 2xx response with no body text (a null body, an empty body, a
    byte order mark alone) is an error: the SyntaxError of [res.json()]
    is surfaced and the result is left as it was. *)
Theorem empty_success_body_is_an_error (w : World) (res : Response) :
  ok res = true ->
  decoded_body res = "" ->
  let w' := run (after_fetch (Resolved res)) w in
  error (st w') = Some (surfaced (SyntaxError "")) /\
  result (st w') = result (st w) /\
  loading (st w') = false.
Proof.
  intros Hok Hbody w'. subst w'.
  rewrite (after_fetch_ok res Hok), Hbody, JSFacts.parse_empty_text, run_caught.
  repeat split.
Qed.

(** ** The export *)

(** X14. A 2xx body that is truthy JSON with none of the properties of an
    [AnalysisResult] (an object without them, an array, a number, a
    string, [true]) becomes the result, and exporting it downloads a
    file named [undefined_analysis_undefined.json]. *)
Theorem untyped_result_exports_as_undefined
    (w : World) (res : Response) (v : Value) :
  ok res = true ->
  JSON_parse (decoded_body res) = Some v ->
  truthy v = true ->
  (forall name,
      In name ["ticker"; "trustScore"; "trustJustification";
               "trustRecommendations"; "growthScore"; "growthJustification";
               "growthRecommendations"; "summary"; "runId"] ->
      get_prop v name = Some None) ->
  exists w',
    react Export (run (after_fetch (Resolved res)) w) = Some w' /\
    history w' =
      history w ++
      [DidSetResult v; DidSetLoading false;
       DidDownload {| filename := "undefined_analysis_undefined.json";
                      mime := "application/json";
                      content := JSON_stringify v 2 |}].
Proof.
  intros Hok Hparse Ht Hnone.
  assert (Hticker : get_prop v "ticker" = Some None)
    by (apply Hnone; cbn; tauto).
  assert (Hrun : get_prop v "runId" = Some None)
    by (apply Hnone; cbn; tauto).
  rewrite (after_fetch_ok res Hok), Hparse, run_result.
  unfold react, handleExportJson, property_text.
  cbn [st result setLoading setResult history].
  rewrite Ht, Hticker, Hrun. cbn [negb to_string_or_undefined].
  eexists. split; [reflexivity|]. cbn [history].
  now rewrite <- app_assoc.
Qed.

(** X15. After any events on a fresh page, whatever the shape of the result
    held, when its numbers are integers the content of a file the
    export downloads parses back to that result. *)
Theorem export_content_parses_back
    (es : list Event) (w : World) (d : Download) :
  play es boot = Some w ->
  integral (result (st w)) ->
  handleExportJson (result (st w)) = Some d ->
  JSON_parse (content d) = Some (result (st w)).
Proof.
  intros Hp Hint Hd.
  assert (Hc : content d = JSON_stringify (result (st w)) 2).
  { unfold handleExportJson in Hd.
    destruct (negb (truthy (result (st w)))); [discriminate|].
    destruct (property_text (result (st w)) "ticker") as [t|];
      [destruct (property_text (result (st w)) "runId") as [r|]|];
      try discriminate.
    now injection Hd as <-. }
  rewrite Hc. apply JSFacts.parse_stringify.
  destruct (held_result_parsed es boot w boot_settled (or_introl eq_refl) Hp)
    as [_ [Hnull|[text Htext]]].
  - rewrite Hnull. exact I.
  - exact (JSFacts.parse_well_formed text _ Htext Hint).
Qed.

(** ** Picking while a request is in flight *)

(** X16. Changing the selection while a request is in flight changes the
    selection only: when the fetch settles the page is as it would be
    had it settled first and the selection been changed afterwards, and
    no further request has been issued. *)
Theorem selection_does_not_disturb_flight
    (es : list Event) (w w1 : World)
    (fs : option (list File)) (t : Ticker) (i : nat) (o : FetchOutcome) :
  play es boot = Some w ->
  react (Settle i o) w = Some w1 ->
  exists w2,
    play [PickFiles fs; PickTicker t; Settle i o] w = Some w2 /\
    st w2 = setTicker t (setFiles fs (st w1)) /\
    waiting w2 = waiting w1 /\
    requests (history w2) = requests (history w1).
Proof.
  intros Hp Hr.
  pose proof (play_keeps_invariant es boot w boot_settled Hp) as Inv.
  destruct (react_cases (Settle i o) w w1 Inv Hr)
    as [(x & E & _)|[(x & E & _)|[(E & _)|
        [(f & x & E & _)|[(o' & v & E & _ & Hw & Hv & ->)|
        [(o' & x & E & _ & Hw & Hx & ->)|(E & _)]]]]]];
    try discriminate; injection E as -> <-;
    cbn [play react run handleFileChange handleTickerChange act
         waiting st history];
    rewrite Hw; cbn [nth_error remove_nth].
  - rewrite Hv, run_result. eexists. split; [reflexivity|].
    cbn [st waiting history]. rewrite !requests_app. cbn [requests].
    now rewrite !app_nil_r.
  - rewrite Hx, run_caught. eexists. split; [reflexivity|].
    cbn [st waiting history]. rewrite !requests_app. cbn [requests].
    now rewrite !app_nil_r.
Qed.

(** ** What each event may change *)

(** X17. After any events on a fresh page, the selected files change only
    when files are picked, the ticker only when the select changes, and
    [loading], the result and the error only when the form is submitted
    or the fetch settles. *)
Theorem events_change_only_their_state
    (es : list Event) (e : Event) (w w' : World) :
  play es boot = Some w ->
  react e w = Some w' ->
  (files (st w') <> files (st w) -> exists fs, e = PickFiles fs) /\
  (ticker (st w') <> ticker (st w) -> exists t, e = PickTicker t) /\
  (loading (st w') <> loading (st w) \/
   result (st w') <> result (st w) \/
   error (st w') <> error (st w) ->
   e = Submit \/ exists o, e = Settle 0 o).
Proof.
  intros Hp Hr.
  pose proof (play_keeps_invariant es boot w boot_settled Hp) as Inv.
  destruct (react_cases e w w' Inv Hr)
    as [(fs & -> & ->)|[(t & -> & ->)|[(-> & _ & _ & ->)|
        [(f & fs & -> & _ & _ & _ & ->)|[(o & v & -> & _ & _ & _ & ->)|
        [(o & x & -> & _ & _ & _ & ->)|(-> & _ & ->)]]]]]];
    cbn [st files ticker loading result error
         setFiles setTicker setLoading setResult setError];
    (split; [|split]); intros H;
    try (now contradiction H);
    try (destruct H as [H|[H|H]]; now contradiction H);
    eauto.
Qed.

End Laws.

(** ** The laws at sample inputs *)

Lemma submit_sends_latest_selection_witness :
  exists w',
    @play example_platform
      [PickFiles None; PickTicker VOLV_B;
       PickFiles (Some Sample.six_reports); PickTicker HM_B; Submit]
      boot = Some w' /\
    requests (history w') =
      requests (history boot) ++
      [{| url := "http://localhost:4000/api/analyze";
          method := "POST";
          form := ("ticker", FText "HM-B")
                  :: map (fun x => ("files", FFile x)) Sample.six_reports |}] /\
    files (st w') = Some Sample.six_reports /\
    ticker (st w') = HM_B.
Proof.
  exact (@submit_sends_latest_selection example_platform boot None VOLV_B HM_B
           {| file_name := "2018.pdf"; file_bytes := "%PDF-1.7" |}
           (tl Sample.six_reports) eq_refl).
Defined.

Lemma one_request_in_flight_witness :
  (List.length (waiting Sample.answered) <= 1)%nat /\
  (loading (st Sample.answered) = true <-> waiting Sample.answered <> []) /\
  List.length (requests (history Sample.answered)) =
    (settlements (history Sample.answered)
     + List.length (waiting Sample.answered))%nat.
Proof.
  refine (@one_request_in_flight example_platform
            [PickFiles (Some [Sample.report]); Submit;
             Settle 0 (Sample.http 200 Sample.analysis_body)]
            Sample.answered _).
  vm_compute. reflexivity.
Defined.

Lemma every_request_has_a_file_witness :
  Forall (fun req =>
            url req = "http://localhost:4000/api/analyze" /\
            method req = "POST" /\
            exists t f fs,
              form req = ("ticker", FText (ticker_value t))
                         :: map (fun x => ("files", FFile x)) (f :: fs))
         (requests (history Sample.failed)).
Proof.
  refine (@every_request_has_a_file example_platform
            [PickFiles (Some [Sample.report]); Submit;
             Settle 0 (Sample.http 500 Sample.boom_body)]
            Sample.failed _).
  vm_compute. reflexivity.
Defined.

Lemma error_is_shown_witness :
  (forall e, error (st Sample.failed) = Some e -> e <> "") /\
  (In (El "p" [] [Text "boom"]) (nodes (form_node (st Sample.failed))) <->
   exists e, error (st Sample.failed) = Some e /\
             @nil Attr = [] /\ [Text "boom"] = [Text e]).
Proof.
  refine (@error_is_shown example_platform
            [PickFiles (Some [Sample.report]); Submit;
             Settle 0 (Sample.http 500 Sample.boom_body)]
            Sample.failed [] [Text "boom"] _).
  vm_compute. reflexivity.
Defined.

Lemma export_button_iff_result_witness :
  exists page,
    @view example_platform (st Sample.mistyped) = Some page /\
    (In (El "button" [On OnExportClick] [Text "Export JSON"]) (nodes page) <->
     @truthy example_platform (result (st Sample.mistyped)) = true).
Proof.
  eexists.
  refine ((fun H => conj H (@export_button_iff_result example_platform
                              (st Sample.mistyped) _ H)) _).
  vm_compute. reflexivity.
Defined.

Lemma failed_response_sets_error_only_witness :
  let w' := run (@after_fetch example_platform (Sample.http 404 "Not Found"))
                Sample.resumed in
  exists x,
    history w' = history Sample.resumed ++
                 [DidConsoleError "Fetch error:" x;
                  DidSetError (Some (@surfaced x));
                  DidSetLoading false] /\
    error (st w') = Some (@surfaced x) /\
    @surfaced x <> "" /\
    result (st w') = result (st Sample.resumed) /\
    loading (st w') = false /\
    files (st w') = files (st Sample.resumed) /\
    ticker (st w') = ticker (st Sample.resumed) /\
    waiting w' = waiting Sample.resumed.
Proof.
  exact (@failed_response_sets_error_only example_platform Sample.resumed
           {| status := 404; body := Some "Not Found" |} eq_refl).
Defined.

Lemma error_json_without_message_surfaces_json_witness :
  error (st (run (@after_fetch example_platform
                    (Sample.http 400 Sample.ratio_body))
                 Sample.resumed)) = Some Sample.ratio_body /\
  error (st (run (@after_fetch example_platform
                    (Sample.http 400 Sample.detail_body))
                 Sample.resumed)) = Some Sample.detail_body /\
  JSON_parse Sample.detail_body = Some (JObj [("message", JStr "bad ticker")]).
Proof.
  split; [|split].
  - refine (proj1 (proj2
              (@error_json_without_message_surfaces_json example_platform
                 Sample.resumed
                 {| status := 400; body := Some Sample.ratio_body |}
                 (JObj [("ratio", JNum (NOther "0.5"))]) None
                 eq_refl eq_refl eq_refl eq_refl)) _).
    intros l H. discriminate H.
  - refine (proj1 (proj2
              (@error_json_without_message_surfaces_json example_platform
                 Sample.resumed
                 {| status := 400; body := Some Sample.detail_body |}
                 (JObj [("message", JStr "bad ticker")]) None
                 eq_refl eq_refl eq_refl eq_refl)) _).
    intros l H. discriminate H.
  - exact (proj2 (proj2
             (@error_json_without_message_surfaces_json example_platform
                Sample.resumed
                {| status := 400; body := Some Sample.detail_body |}
                (JObj [("message", JStr "bad ticker")]) None
                eq_refl eq_refl eq_refl eq_refl)) (conj I I)).
Defined.

Lemma error_property_surfaces_as_string_witness :
  error (st (run (@after_fetch example_platform
                    (Sample.http 500 Sample.coded_body))
                 Sample.resumed)) = Some "[object Object]".
Proof.
  exact (@error_property_surfaces_as_string example_platform
           Sample.resumed {| status := 500; body := Some Sample.coded_body |}
           [("error", JObj [("code", JNum (NInt 1))])]
           (JObj [("code", JNum (NInt 1))])
           eq_refl eq_refl eq_refl eq_refl).
Defined.

Lemma text_fallback_reads_a_consumed_body_witness :
  error (st (run (@after_fetch example_platform
                    (Sample.http 502 "<h1>Bad Gateway</h1>"))
                 Sample.resumed)) =
    Some "Failed to execute 'text' on 'Response': body stream already read" /\
  error (st (run (@after_fetch example_platform (Sample.http 500 "null"))
                 Sample.resumed)) =
    Some "Failed to execute 'text' on 'Response': body stream already read".
Proof.
  split.
  - exact (@text_fallback_reads_a_consumed_body example_platform
             Sample.resumed
             {| status := 502; body := Some "<h1>Bad Gateway</h1>" |}
             "<h1>Bad Gateway</h1>" eq_refl eq_refl (or_introl eq_refl)).
  - exact (@text_fallback_reads_a_consumed_body example_platform
             Sample.resumed {| status := 500; body := Some "null" |}
             "null" eq_refl eq_refl (or_intror eq_refl)).
Defined.

Lemma null_body_surfaces_status_witness :
  error (st (run (@after_fetch example_platform
                    (Resolved {| status := 304; body := None |}))
                 Sample.resumed)) = Some "HTTP 304".
Proof.
  exact (@null_body_surfaces_status example_platform Sample.resumed
           {| status := 304; body := None |} eq_refl eq_refl).
Defined.

Lemma falsy_success_body_shows_nothing_witness :
  let w' := run (@after_fetch example_platform (Sample.http 200 "false"))
                Sample.resumed in
  result (st w') = JBool false /\
  error (st w') = error (st Sample.resumed) /\
  @handleExportJson example_platform (result (st w')) = None /\
  ((forall n, JBool false <> JNum n) ->
   @view example_platform (st w') =
     Some (El "div" [] [El "h1" [] [Text "Trust & Growth Analyzer"];
                        form_node (st w')])).
Proof.
  exact (@falsy_success_body_shows_nothing example_platform Sample.resumed
           {| status := 200; body := Some "false" |} (JBool false)
           eq_refl eq_refl eq_refl).
Defined.

Lemma empty_success_body_is_an_error_witness :
  let w' := run (@after_fetch example_platform
                   (Resolved {| status := 204; body := None |}))
                Sample.resumed in
  error (st w') = Some "Unexpected end of JSON input" /\
  result (st w') = result (st Sample.resumed) /\
  loading (st w') = false.
Proof.
  exact (@empty_success_body_is_an_error example_platform Sample.resumed
           {| status := 204; body := None |} eq_refl eq_refl).
Defined.

Lemma untyped_result_exports_as_undefined_witness :
  exists w',
    @react example_platform Export Sample.mistyped = Some w' /\
    history w' =
      history Sample.resumed ++
      [DidSetResult (JObj [("error", JStr "boom")]); DidSetLoading false;
       DidDownload {| filename := "undefined_analysis_undefined.json";
                      mime := "application/json";
                      content := @JSON_stringify example_platform
                                   (JObj [("error", JStr "boom")]) 2 |}].
Proof.
  refine (@untyped_result_exports_as_undefined example_platform Sample.resumed
            {| status := 200; body := Some Sample.boom_body |}
            (JObj [("error", JStr "boom")]) eq_refl eq_refl eq_refl _).
  intros name H. cbn in H.
  repeat (destruct H as [<-|H]; [reflexivity|]). contradiction.
Defined.

Lemma export_content_parses_back_witness :
  exists d,
    @handleExportJson example_platform (result (st Sample.mistyped)) = Some d /\
    JSON_parse (content d) = Some (result (st Sample.mistyped)).
Proof.
  assert (Hp : @play example_platform
                 [PickFiles (Some [Sample.report]); Submit;
                  Settle 0 (Sample.http 200 Sample.boom_body)] boot
               = Some Sample.mistyped)
    by (vm_compute; reflexivity).
  assert (Hi : integral (result (st Sample.mistyped)))
    by (vm_compute; repeat split).
  eexists.
  refine ((fun H => conj H (@export_content_parses_back example_platform
                              _ Sample.mistyped _ Hp Hi H)) _).
  vm_compute. reflexivity.
Defined.

Lemma selection_does_not_disturb_flight_witness :
  exists w2,
    @play example_platform
      [PickFiles (Some []); PickTicker HM_B;
       Settle 0 (Sample.http 200 Sample.analysis_body)]
      Sample.submitted = Some w2 /\
    st w2 = setTicker HM_B (setFiles (Some []) (st Sample.answered)) /\
    waiting w2 = waiting Sample.answered /\
    requests (history w2) = requests (history Sample.answered).
Proof.
  assert (Hp : @play example_platform
                 [PickFiles (Some [Sample.report]); Submit] boot
               = Some Sample.submitted)
    by reflexivity.
  assert (Hr : @react example_platform
                 (Settle 0 (Sample.http 200 Sample.analysis_body))
                 Sample.submitted
               = Some Sample.answered)
    by (vm_compute; reflexivity).
  exact (@selection_does_not_disturb_flight example_platform
           _ Sample.submitted Sample.answered (Some []) HM_B 0%nat
           (Sample.http 200 Sample.analysis_body) Hp Hr).
Defined.

Lemma events_change_only_their_state_witness :
  (files (st Sample.submitted) <> files (st Sample.file_picked) ->
   exists fs, Submit = PickFiles fs) /\
  (ticker (st Sample.submitted) <> ticker (st Sample.file_picked) ->
   exists t, Submit = PickTicker t) /\
  (loading (st Sample.submitted) <> loading (st Sample.file_picked) \/
   result (st Sample.submitted) <> result (st Sample.file_picked) \/
   error (st Sample.submitted) <> error (st Sample.file_picked) ->
   Submit = Submit \/ exists o, Submit = Settle 0 o).
Proof.
  exact (@events_change_only_their_state example_platform
           [PickFiles (Some [Sample.report])] Submit
           Sample.file_picked Sample.submitted eq_refl eq_refl).
Defined.

End PageLaws.
